(** * XplaneNoaaWeather: the weather state engine and its client/server channel

    A shallow embedding of [PI_noaaWeather.py] (class [Weather]: the client
    thread, [setTurbulence], [setWinds], [setWindLayer], [transWindLayer],
    [interpolateWindLayer], [setClouds]) and of [noaweather/weatherServer.py]
    ([clientHandler.handle]), followed by the properties of the
    specification that concern them.

    Conventions.
    - Python floats are read as exact rationals ([Q]); two numbers are the
      same number when they are [==] ([Qeq]).
    - A Python exception is a value [Raise e] of the result type [res].
    - A dict is a [gmap] on strings; a list is a [list].
    - Mutable objects that are reachable from two places (the [extra] dict
      of a wind layer, reachable from the snapshot and from the tuple
      returned by [transWindLayer]) are kept in an explicit store and are
      addressed by reference ([lref]).
    - The helper module [noaweather.c] is not part of the sources at hand.
      Its functions are either modelled from the specification (each such
      definition says so) or, where the specification fixes no formula,
      taken as the fields of an interface [CLib] over which every general
      theorem quantifies. *)

From Stdlib Require Import QArith Qround Qabs ZArith Lia Lqa.
From Stdlib Require Import DecimalString DecimalNat.
From Stdlib Require Import Ascii String.
From stdpp Require Import gmap strings list fin_maps options.

Open Scope Q_scope.

(** ** Numbers *)

Module Num.

Definition ltb (a b : Q) : bool := negb (Qle_bool b a).
Definition leb (a b : Q) : bool := Qle_bool a b.
Definition eqb (a b : Q) : bool := Qeq_bool a b.

(** Python's [a % m] on floats, for a positive modulus. *)
Definition pymod (a m : Q) : Q := a - m * inject_Z (Qfloor (a / m)).

(** [max(a, b)] of Python: the first argument unless the second is larger. *)
Definition pymax (a b : Q) : Q := if ltb a b then b else a.

End Num.

(** ** Exceptions *)

Inductive pyerr : Set :=
  | TypeError | KeyError | IndexError | ZeroDivisionError | ValueError.

Inductive res (A : Type) : Type :=
  | Ok (a : A)
  | Raise (e : pyerr).
Arguments Ok {A} a.
Arguments Raise {A} e.

Definition rbind {A B} (m : res A) (k : A -> res B) : res B :=
  match m with
  | Ok a => k a
  | Raise e => Raise e
  end.

Notation "'let*' x ':=' m 'in' k" := (rbind m (fun x => k))
  (at level 10, x pattern, m at level 100, k at level 200).

(** [d[key]] on a dict whose key may be absent. *)
Definition getitem {A} (o : option A) : res A :=
  match o with
  | Some a => Ok a
  | None => Raise KeyError
  end.

(** ** Strings *)

Module Str.

(** [str(n)] for a list index. *)
Definition of_nat (n : nat) : string :=
  NilZero.string_of_uint (Nat.to_uint n).

(** [str(blayer)], where [blayer] is [False] or an index. *)
Definition of_index (b : option nat) : string :=
  match b with
  | Some n => of_nat n
  | None => "False"
  end.

(** [needle in hay] for two strings. *)
Fixpoint contains (needle hay : string) : bool :=
  String.prefix needle hay
  || match hay with
     | EmptyString => false
     | String _ hay' => contains needle hay'
     end.

(** The layer a reference key [id-var] belongs to: the text before its
    first dash. *)
Fixpoint before_dash (k : string) : string :=
  match k with
  | EmptyString => EmptyString
  | String a k' => if Ascii.eqb a "-"%char then EmptyString else String a (before_dash k')
  end.

(** The string has no dash in it. *)
Fixpoint dashless (s : string) : bool :=
  match s with
  | EmptyString => true
  | String a s' => negb (Ascii.eqb a "-"%char) && dashless s'
  end.

End Str.

(** ** Data model (spec section 3, as the code reads it) *)

(** A value of a wind layer's [extra] dict: a number, or a Python bool
    (the [metar] marker is [True]; a missing reading may be [False]). *)
Inductive xval : Set :=
  | XNum (q : Q)
  | XBool (b : bool).

(** The number a value stands for in arithmetic ([True] is 1, [False] 0). *)
Definition xnum (v : xval) : Q :=
  match v with
  | XNum q => q
  | XBool true => 1
  | XBool false => 0
  end.

(** [v is not False]. *)
Definition is_not_False (v : xval) : bool :=
  match v with
  | XBool false => false
  | _ => true
  end.

Abbreviation extras := (gmap string xval).

(** A wind layer [[alt, hdg, speed, extra]]. *)
Record WindLayer : Type := mkWindLayer {
  l_alt : Q;
  l_hdg : Q;
  l_speed : Q;
  l_extra : extras
}.

(** The station report; a field is [None] when its key is absent.
    [variable_wind] is [None] also when the value is falsy. A cloud is
    [(base, cover code, extra)]. Only the keys read below are kept. *)
Record Metar : Type := mkMetar {
  m_elevation : option Q;
  m_distance : option Q;
  m_wind : option (Q * Q * Q);
  m_variable_wind : option (Q * Q);
  m_temperature : option (option Q * option Q);
  m_clouds : option (list (Q * string * string))
}.

(** The forecast part: wind layers, cloud bands [(base, top, cover %)]. *)
Record Gfs : Type := mkGfs {
  g_winds : option (list WindLayer);
  g_clouds : option (list (Q * Q * Q));
  g_pressure : option Q
}.

Record Info : Type := mkInfo {
  i_lat : Q;
  i_lon : Q;
  i_gfs_cycle : string;
  i_wafs_cycle : string
}.

(** A decoded dict payload; each top-level key may be absent. *)
Record Snapshot : Type := mkSnapshot {
  s_info : option Info;
  s_gfs : option Gfs;
  s_wafs : option (list (Q * Q));
  s_metar : option Metar
}.

(** What [pickle.loads] may return: a string (the termination marker
    ['!bye']) or a dict. *)
Inductive Payload : Type :=
  | PStr (s : string)
  | PDict (d : Snapshot).

(** The knobs of [Conf] that the engine reads. *)
Record Conf : Type := mkConf {
  metar_agl_limit : Q;
  metar_distance_limit : Q;
  windHdgTransSpeed : Q;
  windGustTransSpeed : Q;
  turbulence_probability : Q;
  max_cloud_height : Q
}.

(** ** The helper module [noaweather.c] *)

(** The keyword and optional arguments of a [c.randPattern] call: the fourth
    positional argument, [min_time] and [max_time]. *)
Record RandArgs : Type := mkRandArgs {
  ra_fourth : option Q;
  ra_min_time : option Q;
  ra_max_time : option Q
}.

(** The functions of [noaweather.c] for which the specification fixes no
    formula. [RandRefs] is the state of the random patterns together with
    the random source; an omitted [expo] argument is [None]. [c_cc2xp] is
    [c.cc2xp], the conversion of a forecast cover to the simulator's scale
    that [setClouds] calls. *)
Record CLib : Type := mkCLib {
  RandRefs : Type;
  randPattern : string -> Q -> Q -> RandArgs -> RandRefs -> Q * RandRefs;
  expoCosineInterpolate : Q -> Q -> Q -> Q -> Q -> option Q -> Q;
  expoCosineInterpolateHeading : Q -> Q -> Q -> Q -> Q -> option Q -> Q;
  oat2msltemp : Q -> Q -> Q;
  c_cc2xp : Q -> Q
}.

Module C.

(** Modelled from the spec: [c.transition] of [noaweather.c] (section 4.1,
    linear variant). The first call for a key returns the value and records
    it; a later call moves the recorded value toward the value by at most
    [rate * elapsed], reaching it exactly once it is within one step. *)
Definition transition (value : Q) (key : string) (elapsed rate : Q)
    (refs : gmap string Q) : Q * gmap string Q :=
  match refs !! key with
  | None => (value, <[key := value]> refs)
  | Some cur =>
      let step := rate * elapsed in
      let new :=
        if Num.leb (Qabs (value - cur)) step then value
        else if Num.ltb cur value then cur + step else cur - step in
      (new, <[key := new]> refs)
  end.

(** Modelled from the spec: [c.transition] called on an item of an [extra]
    dict (section 4.1). It is [transition] on the number the item stands
    for; where [transition] returns the value itself (the first call for
    the key, or a value within one step), what comes back is the item that
    was passed, so that a reading [False] stays [False]; a value that has
    been moved is a number. *)
Definition transition_item (value : xval) (key : string) (elapsed rate : Q)
    (refs : gmap string Q) : xval * gmap string Q :=
  match refs !! key with
  | None => (value, <[key := xnum value]> refs)
  | Some cur =>
      let step := rate * elapsed in
      if Num.leb (Qabs (xnum value - cur)) step then
        (value, <[key := xnum value]> refs)
      else
        let new := if Num.ltb cur (xnum value) then cur + step
                   else cur - step in
        (XNum new, <[key := new]> refs)
  end.

(** The signed shorter arc from heading [a] to heading [b], in (-180, 180]. *)
Definition shortHdg (a b : Q) : Q :=
  let d := Num.pymod (b - a) 360 in
  if Num.ltb 180 d then d - 360 else d.

(** Modelled from the spec: [c.transitionHdg] of [noaweather.c] (section
    4.1): as [transition], with the distance measured on the circle of
    period 360 along the shorter arc. *)
Definition transitionHdg (value : Q) (key : string) (elapsed rate : Q)
    (refs : gmap string Q) : Q * gmap string Q :=
  match refs !! key with
  | None => (value, <[key := value]> refs)
  | Some cur =>
      let step := rate * elapsed in
      let d := shortHdg cur value in
      let new :=
        if Num.leb (Qabs d) step then value
        else if Num.ltb 0 d then Num.pymod (cur + step) 360
        else Num.pymod (cur - step) 360 in
      (new, <[key := new]> refs)
  end.

(** Modelled from the spec: [c.transitionClearReferences(exclude=...)] of
    [noaweather.c] (section 4.1: "clears all state for keys not in a
    caller-supplied exclusion set"). The exclusion set names layers; a key
    [id-var] belongs to the layer [id] written before its first dash. *)
Definition transitionClearReferences (exclude : list string)
    (refs : gmap string Q) : gmap string Q :=
  filter (fun kv => Str.before_dash kv.1 ∈ exclude) refs.

(** Modelled from the spec: [c.interpolate] of [noaweather.c] (section
    4.2: "linear interpolation weighted by altitude position"); a
    degenerate bracket yields the bound itself. *)
Definition interpolate (t1 t2 alt1 alt2 alt : Q) : Q :=
  if Num.eqb alt1 alt2 then t1
  else t1 + (alt - alt1) * (t2 - t1) / (alt2 - alt1).

(** Modelled from the spec: [c.limit(value, max, min)] of [noaweather.c]
    (section 4.3: "clipped to [min,max]"); an omitted bound is [None]. *)
Definition limit (value : Q) (max min : option Q) : Q :=
  match max, min with
  | Some mx, _ => if Num.ltb mx value then mx
                  else match min with
                       | Some mn => if Num.ltb value mn then mn else value
                       | None => value
                       end
  | None, Some mn => if Num.ltb value mn then mn else value
  | None, None => value
  end.

(** Modelled from the spec: [c.f2m] of [noaweather.c], feet to metres (the
    factor is the one [setWinds] writes out: 0.3048 m is one foot). *)
Definition f2m (feet : Q) : Q := feet * (3048 # 10000).

End C.

(** ** The engine state *)

(** The simulator variables of one wind layer and of one cloud layer
    ([EasyDref] objects, read and written through [.value]). *)
Record WindDref : Type := mkWindDref {
  d_alt : Q;
  d_hdg : Q;
  d_speed : Q;
  d_gust : Q;
  d_gust_hdg : Q;
  d_turbulence : Q
}.

Record CloudDref : Type := mkCloudDref {
  d_top : Q;
  d_bottom : Q;
  d_coverage : Q
}.

(** The cover of an assembled cloud layer: a number of the simulator's
    scale, or the station report's code when it is not in the table. *)
Inductive cover : Type :=
  | CNum (q : Q)
  | CCode (s : string).

(** The fields of a [Weather] instance (with [self.data]'s cloud lists and
    override switch), and the two tables of [noaweather.c]. *)
Record Weather (c : CLib) : Type := mkWeather {
  conf : Conf;
  alt : Q;
  weatherData : option Payload;
  newData : bool;
  queryResponses : list Payload;
  die : bool;
  windAlts : Z;
  winds : list WindDref;
  clouds : list CloudDref;
  msltemp : Q;
  msldewp : Q;
  override_clouds : bool;
  cloud_base : list Q;
  cloud_top : list Q;
  cloud_cover : list cover;
  transrefs : gmap string Q;
  randRefs : RandRefs c
}.
Arguments mkWeather {c}.
Arguments conf {c}.
Arguments alt {c}.
Arguments weatherData {c}.
Arguments newData {c}.
Arguments queryResponses {c}.
Arguments die {c}.
Arguments windAlts {c}.
Arguments winds {c}.
Arguments clouds {c}.
Arguments msltemp {c}.
Arguments msldewp {c}.
Arguments override_clouds {c}.
Arguments cloud_base {c}.
Arguments cloud_top {c}.
Arguments cloud_cover {c}.
Arguments transrefs {c}.
Arguments randRefs {c}.

Section Setters.
Context {c : CLib}.
Implicit Type w : Weather c.

Definition set_snapshot (p : Payload) w : Weather c :=
  mkWeather (conf w) (alt w) (Some p) true (queryResponses w) (die w)
    (windAlts w) (winds w) (clouds w) (msltemp w) (msldewp w)
    (override_clouds w) (cloud_base w) (cloud_top w) (cloud_cover w)
    (transrefs w) (randRefs w).

Definition set_queryResponses (q : list Payload) w : Weather c :=
  mkWeather (conf w) (alt w) (weatherData w) (newData w) q (die w)
    (windAlts w) (winds w) (clouds w) (msltemp w) (msldewp w)
    (override_clouds w) (cloud_base w) (cloud_top w) (cloud_cover w)
    (transrefs w) (randRefs w).

Definition set_alt (a : Q) w : Weather c :=
  mkWeather (conf w) a (weatherData w) (newData w) (queryResponses w) (die w)
    (windAlts w) (winds w) (clouds w) (msltemp w) (msldewp w)
    (override_clouds w) (cloud_base w) (cloud_top w) (cloud_cover w)
    (transrefs w) (randRefs w).

Definition set_windAlts (t : Z) w : Weather c :=
  mkWeather (conf w) (alt w) (weatherData w) (newData w) (queryResponses w)
    (die w) t (winds w) (clouds w) (msltemp w) (msldewp w)
    (override_clouds w) (cloud_base w) (cloud_top w) (cloud_cover w)
    (transrefs w) (randRefs w).

Definition set_winds (ws : list WindDref) w : Weather c :=
  mkWeather (conf w) (alt w) (weatherData w) (newData w) (queryResponses w)
    (die w) (windAlts w) ws (clouds w) (msltemp w) (msldewp w)
    (override_clouds w) (cloud_base w) (cloud_top w) (cloud_cover w)
    (transrefs w) (randRefs w).

Definition set_clouds (cs : list CloudDref) w : Weather c :=
  mkWeather (conf w) (alt w) (weatherData w) (newData w) (queryResponses w)
    (die w) (windAlts w) (winds w) cs (msltemp w) (msldewp w)
    (override_clouds w) (cloud_base w) (cloud_top w) (cloud_cover w)
    (transrefs w) (randRefs w).

Definition set_msltemp (t : Q) w : Weather c :=
  mkWeather (conf w) (alt w) (weatherData w) (newData w) (queryResponses w)
    (die w) (windAlts w) (winds w) (clouds w) t (msldewp w)
    (override_clouds w) (cloud_base w) (cloud_top w) (cloud_cover w)
    (transrefs w) (randRefs w).

Definition set_msldewp (t : Q) w : Weather c :=
  mkWeather (conf w) (alt w) (weatherData w) (newData w) (queryResponses w)
    (die w) (windAlts w) (winds w) (clouds w) (msltemp w) t
    (override_clouds w) (cloud_base w) (cloud_top w) (cloud_cover w)
    (transrefs w) (randRefs w).

Definition set_cloud_data (b t : list Q) (cv : list cover) w : Weather c :=
  mkWeather (conf w) (alt w) (weatherData w) (newData w) (queryResponses w)
    (die w) (windAlts w) (winds w) (clouds w) (msltemp w) (msldewp w)
    (override_clouds w) b t cv (transrefs w) (randRefs w).

Definition set_transrefs (r : gmap string Q) w : Weather c :=
  mkWeather (conf w) (alt w) (weatherData w) (newData w) (queryResponses w)
    (die w) (windAlts w) (winds w) (clouds w) (msltemp w) (msldewp w)
    (override_clouds w) (cloud_base w) (cloud_top w) (cloud_cover w)
    r (randRefs w).

Definition set_randRefs (r : RandRefs c) w : Weather c :=
  mkWeather (conf w) (alt w) (weatherData w) (newData w) (queryResponses w)
    (die w) (windAlts w) (winds w) (clouds w) (msltemp w) (msldewp w)
    (override_clouds w) (cloud_base w) (cloud_top w) (cloud_cover w)
    (transrefs w) r.

End Setters.

(** ** The client thread ([Weather.weatherClient]) *)

Section Client.
Context {c : CLib}.
Implicit Type w : Weather c.

(** ['info' in wdata]: a key test on a dict, a substring test on a string. *)
Definition has_info (wdata : Payload) : bool :=
  match wdata with
  | PStr s => Str.contains "info" s
  | PDict d => bool_decide (is_Some (s_info d))
  end.

(** [wdata == '!bye']. *)
Definition is_bye (wdata : Payload) : bool :=
  match wdata with
  | PStr s => String.eqb s "!bye"
  | PDict _ => false
  end.

(** One turn of the receive loop on a decoded payload; [None] is [break]. *)
Definition weatherClient_step (wdata : Payload) w : option (Weather c) :=
  if die w || is_bye wdata then None
  else if negb (has_info wdata) then
    Some (set_queryResponses (queryResponses w ++ [wdata]) w)
  else
    Some (set_snapshot wdata w).

(** The loop over the payloads that arrive, in order. *)
Fixpoint weatherClient (received : list Payload) w : Weather c :=
  match received with
  | [] => w
  | wdata :: rest =>
      match weatherClient_step wdata w with
      | None => w
      | Some w' => weatherClient rest w'
      end
  end.

End Client.

(** ** Turbulence ([Weather.setTurbulence]) *)

(** [self.winds[i][...].value = ...]: an update of the [i]-th layer's
    variables. *)
Definition upd_dref {A} (i : nat) (f : A -> A) (ds : list A) : res (list A) :=
  match ds !! i with
  | Some d => Ok (<[i := f d]> ds)
  | None => Raise IndexError
  end.

Definition with_turbulence (t : Q) (d : WindDref) : WindDref :=
  mkWindDref (d_alt d) (d_hdg d) (d_speed d) (d_gust d) (d_gust_hdg d) t.

(** The band loop: [prev] is [prevlayer] ([None] for [False]), [cur] the
    loop variable [clayer]. *)
Fixpoint turb_search (bands : list (Q * Q)) (alt : Q)
    (prev : option (Q * Q)) (cur : Q * Q) : option (Q * Q) * (Q * Q) :=
  match bands with
  | [] => (prev, cur)
  | clayer :: rest =>
      if Num.ltb alt clayer.1 then (prev, clayer)
      else turb_search rest alt (Some clayer) clayer
  end.

(** The value of [turb] before the probability factor is applied. *)
Definition turb_level (turbulence : list (Q * Q)) (alt : Q) : Q :=
  if bool_decide (1 < length turbulence)%nat then
    match turb_search turbulence alt None (0, 0) with
    | (Some prevlayer, clayer) =>
        C.interpolate prevlayer.2 clayer.2 prevlayer.1 clayer.1 alt
    | (None, clayer) => clayer.2
    end
  else 0.

Definition turbulence_args : RandArgs := mkRandArgs (Some 20) (Some 1) None.

Section Turbulence.
Context {c : CLib}.
Implicit Type w : Weather c.

Definition setTurbulence (turbulence : list (Q * Q)) (elapsed : Q) w
    : res (Weather c) :=
  let turb := turb_level turbulence (alt w) in
  let turb := turb * turbulence_probability (conf w) in
  let '(turb, rr) :=
    randPattern c "turbulence" turb elapsed turbulence_args (randRefs w) in
  let* ws := upd_dref 0 (with_turbulence turb) (winds w) in
  let* ws := upd_dref 1 (with_turbulence turb) ws in
  let* ws := upd_dref 2 (with_turbulence turb) ws in
  Ok (set_winds ws (set_randRefs rr w)).

End Turbulence.

(** ** The server's request handler ([clientHandler.handle]) *)

Module Server.

(** [s.strip(chars)]. *)
Fixpoint lstrip (chars : list ascii) (s : string) : string :=
  match s with
  | EmptyString => EmptyString
  | String a s' => if bool_decide (a ∈ chars) then lstrip chars s' else s
  end.

Fixpoint rstrip (chars : list ascii) (s : string) : string :=
  match s with
  | EmptyString => EmptyString
  | String a s' =>
      match rstrip chars s' with
      | EmptyString => if bool_decide (a ∈ chars) then EmptyString
                       else String a EmptyString
      | r => String a r
      end
  end.

Definition strip (chars : list ascii) (s : string) : string :=
  rstrip chars (lstrip chars s).

(** [s.split('|')]. *)
Fixpoint split_bar (s : string) : list string :=
  match s with
  | EmptyString => [EmptyString]
  | String a s' =>
      if Ascii.eqb a "|"%char then EmptyString :: split_bar s'
      else match split_bar s' with
           | w :: ws => String a w :: ws
           | [] => [String a EmptyString]
           end
  end.

(** The characters of the literal ["\n\c\t "]: newline, backslash, [c],
    tab and space. *)
Definition strip_chars : list ascii :=
  ["010"; "\"; "c"; "009"; " "]%char.

(** [s[1:]]. *)
Definition tail (s : string) : string :=
  match s with
  | EmptyString => EmptyString
  | String _ s' => s'
  end.

Section Handler.

(** The collaborators the handler reaches through the globals [gfs] and
    [conf]: the forecast and station-report repositories [G] with the
    operations the handler calls on them, and the configuration [K]. A
    station record is a sequence of fields [F]; [getClosestStation] gives
    [None] for a result that is not a record. *)
Variables G K F : Type.
Variable lastgrib : G -> option string.
Variable wafs_lastgrib : G -> option string.
Variable parseGribData : G -> string -> Q -> Q -> Gfs.
Variable wafs_parseGribData : G -> string -> Q -> Q -> list (Q * Q).
Variable getClosestStation : G -> Q -> Q -> option (list F).
Variable parseMetar : G -> F -> F -> F -> Metar.
Variable getMetar : G -> string -> option Payload.
Variable conf_load : K -> K.
Variable float : string -> option Q.

Record state : Type := mkState {
  gfs : G;
  config : K;
  shutting_down : bool;
  printed : list (string * nat)
}.

Definition empty_gfs : Gfs := mkGfs None None None.
Definition empty_metar : Metar := mkMetar None None None None None None.

(** [apt[i]] on a station record. *)
Definition apt_field (apt : list F) (i : nat) : res F :=
  match apt !! i with
  | Some x => Ok x
  | None => Raise IndexError
  end.

(** Lines 44-46: the station report of the closest station, parsed from
    the fields 0, 5 and 3 of its record when the record has more than
    four fields. *)
Definition closestMetar (g : G) (lat lon : Q) : res Metar :=
  match getClosestStation g lat lon with
  | Some apt =>
      if bool_decide (4 < length apt)%nat then
        let* a0 := apt_field apt 0 in
        let* a5 := apt_field apt 5 in
        let* a3 := apt_field apt 3 in
        Ok (parseMetar g a0 a5 a3)
      else Ok empty_metar
  | None => Ok empty_metar
  end.

(** [getWeatherData]: the snapshot localized to the point asked for;
    [float] raises [ValueError] on text that is not a number. The parts
    start as empty dicts and are replaced by what the repositories hold. *)
Definition getWeatherData (sdata : list string) (g : G) : res Snapshot :=
  let* a := match sdata !! 0%nat with
            | Some a => Ok a | None => Raise IndexError end in
  let* b := match sdata !! 1%nat with
            | Some b => Ok b | None => Raise IndexError end in
  let* lat := match float a with
              | Some q => Ok q | None => Raise ValueError end in
  let* lon := match float b with
              | Some q => Ok q | None => Raise ValueError end in
  let g_part := match lastgrib g with
                | Some cyc => parseGribData g cyc lat lon
                | None => empty_gfs
                end in
  let w_part := match wafs_lastgrib g with
                | Some cyc => wafs_parseGribData g cyc lat lon
                | None => []
                end in
  let info := mkInfo lat lon
                (default "na" (lastgrib g)) (default "na" (wafs_lastgrib g)) in
  let* m_part := closestMetar g lat lon in
  Ok (mkSnapshot (Some info) (Some g_part) (Some w_part) (Some m_part)).

(** The outcome of one datagram: the new state and the datagram sent back
    to the client, if any. The number printed is the size of the response;
    the model prints 1 for a response and 0 for none. *)
Definition handle (request : string) (s : state)
    : res (state * option Payload) :=
  let data := strip strip_chars request in
  let finish (s : state) (response : option Payload) :=
    Ok (mkState (gfs s) (config s) (shutting_down s)
          (printed s ++ [(data, match response with
                                | Some _ => 1%nat
                                | None => 0%nat
                                end)]),
        response) in
  if bool_decide (1 < String.length data)%nat then
    if String.prefix "?" data then
      let sdata := split_bar (tail data) in
      if bool_decide (1 < length sdata)%nat then
        let* r := getWeatherData sdata (gfs s) in
        finish s (Some (PDict r))
      else if bool_decide (String.length data = 5%nat) then
        finish s (getMetar (gfs s) (tail data))
      else finish s None
    else if String.eqb data "!shutdown" then
      finish (mkState (gfs s) (config s) true (printed s)) None
    else if String.eqb data "!reload" then
      finish (mkState (gfs s) (conf_load (config s)) (shutting_down s)
                (printed s)) None
    else Ok (s, None)
  else finish s None.

End Handler.

End Server.

(** ** Wind layers: the store of [extra] dicts *)

(** A wind layer is the list [[alt, hdg, speed, extra]]; the code never
    assigns to its items, but it does assign to the items of [extra], a
    dict that stays shared between the caller's list and every tuple built
    from the layer. A reference names such a dict: the one of the [i]-th
    layer of the list passed to [setWinds], or the one of the synthetic
    surface layer built during the call. *)
Inductive lref : Set :=
  | LArg (i : nat)
  | LSyn.

Record Store : Type := mkStore {
  st_arg : list WindLayer;
  st_syn : extras
}.

(** The [extra] of a tuple: a shared dict, or a dict of its own. *)
Inductive xref : Type :=
  | XRef (r : lref)
  | XNew (e : extras).

(** A layer as the code holds it locally: its three numbers and its
    [extra]. *)
Record TLayer : Type := mkTLayer {
  t_alt : Q;
  t_hdg : Q;
  t_speed : Q;
  t_extra : xref
}.

Definition with_extra (e : extras) (l : WindLayer) : WindLayer :=
  mkWindLayer (l_alt l) (l_hdg l) (l_speed l) e.

(** Reading a dict through a reference. References are only ever made
    from existing objects, so the lookup cannot miss; the empty dict
    stands for the impossible case. *)
Definition load (h : Store) (x : xref) : extras :=
  match x with
  | XRef (LArg i) => default ∅ (l_extra <$> st_arg h !! i)
  | XRef LSyn => st_syn h
  | XNew e => e
  end.

(** Assigning to items of a dict through a reference; a dict of the
    tuple's own is seen by nobody else. *)
Definition store (x : xref) (e : extras) (h : Store) : Store :=
  match x with
  | XRef (LArg i) => mkStore (alter (with_extra e) i (st_arg h)) (st_syn h)
  | XRef LSyn => mkStore (st_arg h) e
  | XNew _ => h
  end.

(** The local view of the [i]-th layer of the caller's list. *)
Definition arg_layer (i : nat) (l : WindLayer) : TLayer :=
  mkTLayer (l_alt l) (l_hdg l) (l_speed l) (XRef (LArg i)).

(** [winds[:]]: a new list of the same layer objects. *)
Definition copy_list (winds : list WindLayer) : list TLayer :=
  imap arg_layer winds.

(** [l[i]] on a list. *)
Definition index {A} (l : list A) (i : nat) : res A :=
  match l !! i with
  | Some a => Ok a
  | None => Raise IndexError
  end.

(** ** [Weather.transWindLayer] *)

(** One turn of the loop over ['gust', 'rh', 'dew']. *)
Definition trans_extra (id : string) (elapsed rate : Q)
    (acc : extras * gmap string Q) (var : string) : extras * gmap string Q :=
  match acc.1 !! var with
  | Some v =>
      let '(v', refs) :=
        C.transition_item v (id +:+ "-" +:+ var) elapsed rate acc.2 in
      (<[var := v']> acc.1, refs)
  | None => acc
  end.

Definition transWindLayer (cf : Conf) (wlayer : TLayer) (id : string)
    (elapsed : Q) (refs : gmap string Q) (h : Store)
    : TLayer * gmap string Q * Store :=
  let '(hdg, refs) :=
    C.transitionHdg (t_hdg wlayer) (id +:+ "-hdg") elapsed
      (windHdgTransSpeed cf) refs in
  let '(speed, refs) :=
    C.transition (t_speed wlayer) (id +:+ "-speed") elapsed
      (windHdgTransSpeed cf) refs in
  let '(extra, refs) :=
    foldl (trans_extra id elapsed (windGustTransSpeed cf))
      (load h (t_extra wlayer), refs) ["gust"; "rh"; "dew"] in
  let extra :=
    match extra !! "gust_hdg" with
    | Some _ => <["gust_hdg" := XNum 0]> extra
    | None => extra
    end in
  (mkTLayer (t_alt wlayer) hdg speed (t_extra wlayer), refs,
   store (t_extra wlayer) extra h).

(** ** [Weather.interpolateWindLayer] *)

(** Lines 360-364: the exponent that weights the heading blend. *)
Definition windExpo (speed1 speed2 : Q) : res Q :=
  if negb (Num.eqb speed1 0) || negb (Num.eqb speed2 0) then
    if Num.eqb (speed1 + speed2) 0 then Raise ZeroDivisionError
    else Ok (2 * speed1 / (speed1 + speed2))
  else Ok 1.

Section Interpolate.
Context (c : CLib).

(** The loop over the keys of [wlayer1[3]]: the item of the new dict for
    one key, if it gets one. *)
Definition interpolate_extra (a1 a2 alt : Q) (nlayer : nat) (e2 : extras)
    (key : string) (v1 : xval) : option xval :=
  let keep := if bool_decide (key ∈ ["temp"; "dew"]) then None else Some v1 in
  match e2 !! key with
  | Some v2 =>
      if is_not_False v2 then
        if bool_decide (nlayer ≠ 0%nat) then
          Some (XNum (C.interpolate (xnum v1) (xnum v2) a1 a2 alt))
        else
          Some (XNum (expoCosineInterpolate c (xnum v1) (xnum v2) a1 a2 alt None))
      else keep
  | None => keep
  end.

Definition interpolateWindLayer (wlayer1 wlayer2 : TLayer)
    (current_altitude : Q) (nlayer : nat) (h : Store) : res (TLayer * Store) :=
  if Num.eqb (t_alt wlayer1) (t_alt wlayer2) then Ok (wlayer1, h)
  else
    let a1 := t_alt wlayer1 in
    let a2 := t_alt wlayer2 in
    let* expo := windExpo (t_speed wlayer1) (t_speed wlayer2) in
    let hdg :=
      expoCosineInterpolateHeading c (t_hdg wlayer1) (t_hdg wlayer2) a1 a2
        current_altitude (Some expo) in
    let speed :=
      if bool_decide (nlayer ≠ 0%nat) then
        C.interpolate (t_speed wlayer1) (t_speed wlayer2) a1 a2 current_altitude
      else
        expoCosineInterpolate c (t_speed wlayer1) (t_speed wlayer2) a1 a2
          current_altitude (Some expo) in
    let e1 := load h (t_extra wlayer1) in
    let '(e1, h) :=
      match e1 !! "variation" with
      | Some _ => (e1, h)
      | None =>
          let e1' := <["variation" := XNum 0]> e1 in
          (e1', store (t_extra wlayer1) e1' h)
      end in
    let e2 := load h (t_extra wlayer2) in
    let extra :=
      map_imap (interpolate_extra a1 a2 current_altitude nlayer e2) e1 in
    Ok (mkTLayer current_altitude hdg speed (XNew extra), h).

End Interpolate.

(** ** [Weather.setWindLayer] *)

Definition with_wind (hdg speed : Q) (d : WindDref) : WindDref :=
  mkWindDref (d_alt d) hdg speed (d_gust d) (d_gust_hdg d) (d_turbulence d).

Definition with_gust (g : Q) (d : WindDref) : WindDref :=
  mkWindDref (d_alt d) (d_hdg d) (d_speed d) g (d_gust_hdg d) (d_turbulence d).

Definition with_gust_hdg (g : Q) (d : WindDref) : WindDref :=
  mkWindDref (d_alt d) (d_hdg d) (d_speed d) (d_gust d) g (d_turbulence d).

Definition setWindLayer (idx : nat) (wlayer : TLayer) (h : Store)
    (ws : list WindDref) : res (list WindDref) :=
  let extra := load h (t_extra wlayer) in
  let hdg :=
    match extra !! "variation" with
    | Some v => Num.pymod (t_hdg wlayer + xnum v) 360
    | None => t_hdg wlayer
    end in
  let* ws := upd_dref idx (with_wind hdg (t_speed wlayer)) ws in
  match extra !! "gust" with
  | Some g => upd_dref idx (with_gust (xnum g)) ws
  | None => Ok ws
  end.

(** ** [Weather.setWinds] *)

(** Lines 248-257: the loop that finds the bracket. [blayer] is [None] for
    [False]; [tlayer] is the loop variable, returned as it stands when the
    loop ends. *)
Fixpoint search_from (alts : list Q) (alt : Q) (i : nat)
    (blayer : option nat) (tlayer : nat) : option nat * nat :=
  match alts with
  | [] => (blayer, tlayer)
  | a :: rest =>
      if Num.ltb alt a then (blayer, i)
      else search_from rest alt (S i) (Some i) i
  end.

Definition searchLayers (lw : list TLayer) (alt : Q) : option nat * nat :=
  search_from (t_alt <$> lw) alt 0 None 0.

Definition metar_wind_args : RandArgs := mkRandArgs None (Some 20) (Some 50).

(** The station report with a wind, if the snapshot has one (line 213).
    [weatherData] is [False] before the first snapshot, and [in] on it
    raises; on a string [in] is the substring test and indexing raises. *)
Definition metar_with_wind (wd : option Payload)
    : res (option (Metar * (Q * Q * Q))) :=
  match wd with
  | None => Raise TypeError
  | Some (PStr s) =>
      if Str.contains "metar" s then Raise TypeError else Ok None
  | Some (PDict d) =>
      match s_metar d with
      | Some m =>
          match m_wind m with
          | Some wind => Ok (Some (m, wind))
          | None => Ok None
          end
      | None => Ok None
      end
  end.

(** Lines 233-238: the temperatures of the station report, in kelvin. *)
Definition metar_temperatures (m : Metar) (extra : extras) : extras :=
  match m_temperature m with
  | Some (t, d) =>
      let extra :=
        match t with
        | Some t => <["temp" := XNum (t + (27315 # 100))]> extra
        | None => extra
        end in
      match d with
      | Some d => <["dew" := XNum (d + (27315 # 100))]> extra
      | None => extra
      end
  | None => extra
  end.

(** Lines 240-243: the lowest forecast layer is removed from the local
    list when it lies below the synthetic layer's altitude plus the limit. *)
Definition drop_close_layer (agl alt : Q) (lw : list TLayer) : list TLayer :=
  match lw with
  | first :: rest =>
      if bool_decide (1 < length lw)%nat && Num.ltb (t_alt first) (alt + agl)
      then rest else lw
  | [] => lw
  end.

Section SetWinds.
Context {c : CLib}.
Implicit Type w : Weather c.

(** Lines 210-245: the local copy of the list, with the synthetic surface
    layer of the station report put in front of it. *)
Definition appendMetarLayer (layers : list WindLayer) (elapsed : Q) w
    : res (list TLayer * Store * Weather c) :=
  let lw := copy_list layers in
  let* mw := metar_with_wind (weatherData w) in
  match mw with
  | None => Ok (lw, mkStore layers ∅, w)
  | Some (m, (hdg, speed, gust)) =>
      let* alt := getitem (m_elevation m) in
      let extra : extras := <["metar" := XBool true]> {["gust" := XNum gust]} in
      let '(hdg, extra, rr) :=
        match m_variable_wind m with
        | Some (h1, h2) =>
            let h1 := Num.pymod h1 360 in
            let var := if Num.ltb h2 h1 then 360 - h1 + h2 else h2 - h1 in
            let '(v, rr) :=
              randPattern c "metar_wind_hdg" var elapsed metar_wind_args
                (randRefs w) in
            (h1, <["variation" := XNum v]> extra, rr)
        | None => (hdg, extra, randRefs w)
        end in
      let alt := alt + metar_agl_limit (conf w) in
      let '(alt, refs) :=
        C.transition alt "0-metar_wind_alt" elapsed (3048 # 10000)
          (transrefs w) in
      let extra := metar_temperatures m extra in
      let lw := drop_close_layer (metar_agl_limit (conf w)) alt lw in
      Ok (mkTLayer alt hdg speed (XRef LSyn) :: lw, mkStore layers extra,
          set_transrefs refs (set_randRefs rr w))
  end.

(** Lines 259-262: on a change of [tlayer] the transition references of
    the other layers are cleared. *)
Definition resetTransitions (blayer : option nat) (tlayer : nat) w
    : Weather c :=
  if bool_decide (windAlts w ≠ Z.of_nat tlayer) then
    set_transrefs
      (C.transitionClearReferences [Str.of_index blayer; Str.of_nat tlayer]
         (transrefs w))
      (set_windAlts (Z.of_nat tlayer) w)
  else w.

(** Lines 264-273: the bracketing layers are transitioned and blended. *)
Definition resolveWind (lw : list TLayer) (blayer : option nat)
    (tlayer : nat) (elapsed : Q) (h : Store) w
    : res (TLayer * Store * Weather c) :=
  let* wt := index lw tlayer in
  let '(twind, refs, h) :=
    transWindLayer (conf w) wt (Str.of_nat tlayer) elapsed (transrefs w) h in
  match blayer with
  | Some b =>
      if bool_decide (b ≠ tlayer) then
        let* wb := index lw b in
        let '(bwind, refs, h) :=
          transWindLayer (conf w) wb (Str.of_nat b) elapsed refs h in
        let* (rwind, h) := interpolateWindLayer c twind bwind (alt w) b h in
        Ok (rwind, h, set_transrefs refs w)
      else Ok (twind, h, set_transrefs refs w)
  | None => Ok (twind, h, set_transrefs refs w)
  end.

(** Lines 283-297: sea-level temperature and dew point, from the resolved
    layer or else from the layer above [tlayer]. *)
Definition msl_value (key : string) (extra : extras)
    (altLayer : option TLayer) (h : Store) (alt old : Q) : Q :=
  match extra !! key with
  | Some v => oat2msltemp c (xnum v - (27315 # 100)) alt
  | None =>
      match altLayer with
      | Some l =>
          match load h (t_extra l) !! key with
          | Some v => oat2msltemp c (xnum v - (27315 # 100)) (t_alt l)
          | None => old
          end
      | None => old
      end
  end.

(** [setWinds(winds, elapsed)], with [layers] for the argument [winds]
    (the field [self.winds] keeps its name). The result carries, next to the new state,
    the caller's list as the call leaves it: the same layers with the
    [extra] dicts as assigned to along the way. *)
Definition setWinds (layers : list WindLayer) (elapsed : Q) w
    : res (list WindLayer * Weather c) :=
  let* (lw, h, w) := appendMetarLayer layers elapsed w in
  let nlayers := length lw in
  if bool_decide (0 < nlayers)%nat then
    let '(blayer, tlayer) := searchLayers lw (alt w) in
    let w := resetTransitions blayer tlayer w in
    let* (rwind, h, w) := resolveWind lw blayer tlayer elapsed h w in
    let* ws := setWindLayer 0 rwind h (winds w) in
    let* ws := setWindLayer 1 rwind h ws in
    let* ws := setWindLayer 2 rwind h ws in
    let extra := load h (t_extra rwind) in
    let altLayer :=
      if bool_decide (tlayer + 1 < nlayers)%nat then lw !! (tlayer + 1)%nat
      else None in
    let w := set_msltemp (msl_value "temp" extra altLayer h (alt w) (msltemp w)) w in
    let w := set_msldewp (msl_value "dew" extra altLayer h (alt w) (msldewp w)) w in
    let* ws := upd_dref 0 (with_gust_hdg 0) ws in
    let* ws := upd_dref 1 (with_gust_hdg 0) ws in
    let* ws := upd_dref 2 (with_gust_hdg 0) ws in
    Ok (st_arg h, set_winds ws w)
  else Ok (st_arg h, w).

End SetWinds.

(** ** Clouds ([Weather.setClouds]) *)

(** [Weather.cc2xp], the engine's own conversion of a cover percentage to
    the simulator's scale. [setClouds] does not call it: it calls the
    function of the same name of [noaweather.c], [c_cc2xp]. *)
Definition cc2xp (cover : Q) : Q :=
  let xp := cover / 100 * 4 in
  if Num.ltb xp 1 && Num.ltb 0 cover then 1
  else if Num.ltb 89 cover then 4
  else xp.

(** An assembled layer [[base, top, cover]]. *)
Record CloudLayer : Type := mkCloud {
  c_base : Q;
  c_top : Q;
  c_cover : cover
}.

(** A cover used as a number; a code left as text raises [TypeError]
    there (Python 3). *)
Definition cover_num (cv : cover) : res Q :=
  match cv with
  | CNum q => Ok q
  | CCode _ => Raise TypeError
  end.

Definition minCloud : Q := C.f2m 2000.

Definition maxCloud (cf : Conf) : Q :=
  C.f2m (C.limit 40000 (Some (max_cloud_height cf)) None).

Definition minRedraw (i : nat) : Q :=
  match i with
  | 0%nat => C.f2m 500
  | 1%nat => C.f2m 5000
  | _ => C.f2m 10000
  end.

(** The table [xpClouds]: cover on the simulator's scale and default
    thickness by cover code. *)
Definition xpClouds (code : string) : option (Q * Q) :=
  if String.eqb code "FEW" then Some (1, C.f2m 2000)
  else if String.eqb code "SCT" then Some (2, C.f2m 4000)
  else if String.eqb code "BKN" then Some (3, C.f2m 4000)
  else if String.eqb code "OVC" then Some (4, C.f2m 4000)
  else if String.eqb code "VV" then Some (4, C.f2m 6000)
  else None.

(** Lines 440-445: the top borrowed from the first forecast band the
    observed base falls in. *)
Fixpoint gfs_equivalent (cf : Conf) (gfsClouds : list (Q * Q * Q)) (base : Q)
    : option Q :=
  match gfsClouds with
  | [] => None
  | (gfsBase, gfsTop, _) :: rest =>
      if Num.ltb 0 gfsBase && Num.ltb (gfsBase - 1500) base
         && Num.ltb base gfsTop
      then Some (base + C.limit (gfsTop - gfsBase) (Some (maxCloud cf))
                          (Some minCloud))
      else gfs_equivalent cf rest base
  end.

(** The variables a cloud loop carries along. *)
Record CloudAcc : Type := mkAcc {
  lastBase : Q;
  maxTop : Q;
  acc_clouds : list CloudLayer
}.

(** Lines 431-453: one observed layer, taken from the top down. *)
Definition metar_cloud (cf : Conf) (gfsClouds : list (Q * Q * Q))
    (a : CloudAcc) (cloud : Q * string * string) : CloudAcc :=
  let '(base, code, _) := cloud in
  let '(top, cv) :=
    match xpClouds code with
    | Some (xp, thick) => (base + thick, CNum xp)
    | None => (minCloud, CCode code)
    end in
  let top := default top (gfs_equivalent cf gfsClouds base) in
  let top :=
    if negb (Num.eqb (lastBase a) 0) && Num.ltb (lastBase a) top
    then lastBase a else top in
  mkAcc base (if Num.eqb (maxTop a) 0 then top else maxTop a)
    (acc_clouds a ++ [mkCloud base top cv]).

(** Lines 456-463: a forecast band above everything is put in front. *)
Definition add_gfs_cloud (c : CLib) (cf : Conf) (gfsCloudLimit mxTop : Q)
    (out : list CloudLayer) (cloud : Q * Q * Q) : list CloudLayer :=
  let '(base, top, cv) := cloud in
  if bool_decide (length out < 3)%nat
     && Num.ltb (Num.pymax gfsCloudLimit mxTop) base
  then mkCloud base
         (base + C.limit (top - base) (Some (maxCloud cf)) (Some minCloud))
         (CNum (c_cc2xp c cv)) :: out
  else out.

(** Lines 467-479: one forecast band of the forecast-only branch, taken
    from the top down. *)
Definition gfs_cloud (c : CLib) (cf : Conf) (a : CloudAcc)
    (cloud : Q * Q * Q) : CloudAcc :=
  let '(base, top, cv) := cloud in
  let cv := c_cc2xp c cv in
  if Num.ltb 0 cv && Num.ltb 0 base && Num.ltb 0 top then
    let top :=
      if Num.ltb cv 3 then base + minCloud
      else base + C.limit (top - base) (Some (maxCloud cf)) (Some minCloud) in
    let top := if Num.ltb top (lastBase a) then lastBase a else top in
    mkAcc base (maxTop a) (acc_clouds a ++ [mkCloud base top (CNum cv)])
  else a.

(** [self.weatherData[...]]: subscripting needs a dict. *)
Definition snapshot_dict (wd : option Payload) : res Snapshot :=
  match wd with
  | Some (PDict d) => Ok d
  | _ => Raise TypeError
  end.

(** Lines 423-425: the observed clouds, when the station is within the
    distance limit. *)
Definition usable_metar_clouds (cf : Conf) (m : Metar)
    : option (list (Q * string * string)) :=
  match m_distance m with
  | Some dist =>
      if Num.ltb dist (metar_distance_limit cf) then m_clouds m else None
  | None => None
  end.

(** Lines 397-479: the list [setClouds] as the two branches leave it
    (highest layer first), with [gfsCloudLimit]. *)
Definition collectClouds (c : CLib) (cf : Conf) (wd : option Payload)
    : res (list CloudLayer * Q) :=
  let* d := snapshot_dict wd in
  let* g := getitem (s_gfs d) in
  let gfsClouds := default [] (g_clouds g) in
  let* m := getitem (s_metar d) in
  match usable_metar_clouds cf m with
  | Some clouds =>
      let* elevation := getitem (m_elevation m) in
      let gfsCloudLimit := C.f2m 5600 + elevation in
      let a := foldl (metar_cloud cf gfsClouds) (mkAcc 0 0 []) (reverse clouds) in
      Ok (foldl (add_gfs_cloud c cf gfsCloudLimit (maxTop a)) (acc_clouds a)
            gfsClouds,
          gfsCloudLimit)
  | None =>
      let a := foldl (gfs_cloud c cf) (mkAcc 0 0 []) (reverse gfsClouds) in
      Ok (acc_clouds a, C.f2m 5600)
  end.

(** Lines 483-491: the list is put lowest layer first and padded with
    clear layers. *)
Definition padClouds (gfsCloudLimit : Q) (out : list CloudLayer)
    : res (list CloudLayer) :=
  let nClouds := length out in
  let sc := reverse out in
  match sc with
  | [] => Ok sc
  | first :: _ =>
      let sc :=
        if bool_decide (nClouds < 3)%nat && Num.ltb gfsCloudLimit (c_base first)
        then mkCloud 0 minCloud (CNum 0) :: sc else sc in
      match sc with
      | [s0; s1] =>
          let* cv1 := cover_num (c_cover s1) in
          if Num.ltb gfsCloudLimit cv1 then
            let* cv0 := cover_num (c_cover s0) in
            Ok [s0; mkCloud cv0 (cv0 + minCloud) (CNum 0); s1]
          else Ok sc
      | _ => Ok sc
      end
  end.

(** The cloud set [setClouds] assembles (line 493), lowest layer first. *)
Definition assembleClouds (c : CLib) (cf : Conf) (wd : option Payload)
    : res (list CloudLayer) :=
  let* (out, gfsCloudLimit) := collectClouds c cf wd in
  padClouds gfsCloudLimit out.

(** [Weather.setDrefIfDiff]: the value the variable holds afterwards. *)
Definition setDrefIfDiff (cur value : Q) (max_diff : option Q) : Q :=
  match max_diff with
  | Some d => if Num.ltb d (Qabs (cur - value)) then value else cur
  | None => if Num.eqb cur value then cur else value
  end.

(** Lines 496-503 for one index. *)
Definition writeCloud (alt : Q) (sc : list CloudLayer) (i : nat)
    (ds : list CloudDref) : res (list CloudDref) :=
  let* d := index ds i in
  match sc !! i with
  | Some l =>
      let* cv := cover_num (c_cover l) in
      let thr := minRedraw i + alt / 10 in
      Ok (<[i := mkCloudDref
                   (setDrefIfDiff (d_top d) (c_top l) (Some thr))
                   (setDrefIfDiff (d_bottom d) (c_base l) (Some thr))
                   (setDrefIfDiff (d_coverage d) cv (Some 1))]> ds)
  | None =>
      Ok (<[i := mkCloudDref (d_top d) (d_bottom d)
                   (setDrefIfDiff (d_coverage d) 0 None)]> ds)
  end.

Section SetClouds.
Context {c : CLib}.
Implicit Type w : Weather c.

Definition setClouds w : res (Weather c) :=
  let* sc := assembleClouds c (conf w) (weatherData w) in
  let* ds :=
    if override_clouds w then Ok (clouds w)
    else
      let* ds := writeCloud (alt w) sc 0 (clouds w) in
      let* ds := writeCloud (alt w) sc 1 ds in
      writeCloud (alt w) sc 2 ds in
  Ok (set_cloud_data (c_base <$> sc) (c_top <$> sc) (c_cover <$> sc)
        (set_clouds ds w)).

End SetClouds.

(** ** Concrete implementations and states, for running the model *)

(** An implementation of the interface in which both blends weight
    linearly whatever the exponent, the random pattern never departs from
    its target, the lapse rate is 6.5 K per 1000 m and the cover
    conversion is the engine's own [cc2xp]. It stands for
    [noaweather.c] where a computation needs one; the general theorems
    hold for every implementation. *)
Definition c_lin : CLib :=
  {| RandRefs := unit;
     randPattern := fun _ target _ _ rr => (target, rr);
     expoCosineInterpolate := fun t1 t2 a1 a2 alt _ =>
       C.interpolate t1 t2 a1 a2 alt;
     expoCosineInterpolateHeading := fun h1 h2 a1 a2 alt _ =>
       C.interpolate h1 h2 a1 a2 alt;
     oat2msltemp := fun oat alt => oat + (65 # 10000) * alt;
     c_cc2xp := cc2xp |}.

(** An implementation whose heading blend returns the exponent it is
    given: it makes the argument that [interpolateWindLayer] passes
    visible in the result. *)
Definition c_probe : CLib :=
  {| RandRefs := unit;
     randPattern := fun _ target _ _ rr => (target, rr);
     expoCosineInterpolate := fun t1 t2 a1 a2 alt _ =>
       C.interpolate t1 t2 a1 a2 alt;
     expoCosineInterpolateHeading := fun _ _ _ _ _ expo => default 3 expo;
     oat2msltemp := fun oat alt => oat + (65 # 10000) * alt;
     c_cc2xp := cc2xp |}.

Definition default_conf : Conf :=
  {| metar_agl_limit := 300;
     metar_distance_limit := 100000;
     windHdgTransSpeed := 1;
     windGustTransSpeed := 1;
     turbulence_probability := 1;
     max_cloud_height := 40000 |}.

(** The state [Weather.__init__] leaves, at altitude [a] with the snapshot
    [wd]. *)
Definition init_weather (c : CLib) (rr : RandRefs c) (cf : Conf) (a : Q)
    (wd : option Payload) : Weather c :=
  {| conf := cf;
     alt := a;
     weatherData := wd;
     newData := false;
     queryResponses := [];
     die := false;
     windAlts := (-1)%Z;
     winds := replicate 3 (mkWindDref 0 0 0 0 0 0);
     clouds := replicate 3 (mkCloudDref 0 0 0);
     msltemp := 0;
     msldewp := 0;
     override_clouds := false;
     cloud_base := [];
     cloud_top := [];
     cloud_cover := [];
     transrefs := ∅;
     randRefs := rr |}.

(** The two wind layers of the scenario of spec section 8. *)
Definition two_layers : list WindLayer :=
  [mkWindLayer 0 0 5 ∅; mkWindLayer 1000 90 15 ∅].

Definition forecast_only (layers : list WindLayer) : option Payload :=
  Some (PDict (mkSnapshot (Some (mkInfo 0 0 "na" "na"))
                 (Some (mkGfs (Some layers) None None)) (Some [])
                 (Some (mkMetar None None None None None None)))).

(** ** Inputs and predicates of the statements *)

(** A layer does not reach into the layer above it: its top is at most
    the base of the higher layer (or the higher layer's base is 0, the
    value the loop reads as "no layer yet"). *)
Definition capped (hi lo : CloudLayer) : Prop :=
  c_base hi == 0 \/ c_top lo <= c_base hi.

(** Every layer of a list that runs from the top down is capped by the
    one before it. *)
Fixpoint capped_chain (l : list CloudLayer) : Prop :=
  match l with
  | hi :: rest =>
      match rest with
      | lo :: _ => capped hi lo /\ capped_chain rest
      | [] => True
      end
  | [] => True
  end.

(** The loop invariant of the branch that merges the station report: the
    layers collected so far are capped, and [lastBase] is the base of the
    last one. *)
Definition metar_inv (a : CloudAcc) : Prop :=
  capped_chain (acc_clouds a)
  /\ forall hi, last (acc_clouds a) = Some hi -> lastBase a = c_base hi.

(** A snapshot with forecast cloud bands and the station report [m]. *)
Definition cloud_payload (bands : list (Q * Q * Q)) (m : Metar)
    : option Payload :=
  Some (PDict (mkSnapshot (Some (mkInfo 0 0 "na" "na"))
                 (Some (mkGfs None (Some bands) None)) (Some []) (Some m))).

(** A snapshot with the forecast layers [layers] and the station report
    [m]. *)
Definition wind_snapshot (layers : list WindLayer) (m : Metar) : Snapshot :=
  mkSnapshot (Some (mkInfo 0 0 "na" "na"))
    (Some (mkGfs (Some layers) None None)) (Some []) (Some m).

Definition wind_payload (layers : list WindLayer) (m : Metar)
    : option Payload :=
  Some (PDict (wind_snapshot layers m)).

(** A station 200 km away, at sea level, reporting wind 270 degrees at
    10 kt. *)
Definition far_station : Metar :=
  mkMetar (Some 0) (Some 200000) (Some (270, 10, 0)) None None None.

(** An airport at 3000 m reporting wind 270 degrees at 10 kt, 1 km away. *)
Definition high_airport : Metar :=
  mkMetar (Some 3000) (Some 1000) (Some (270, 10, 0)) None None None.

(** A layer with a gust of 10 kt, and the state of a later frame in which
    the gust last emitted for layer 0 was 0 kt. *)
Definition gusty_layers : list WindLayer :=
  [mkWindLayer 0 270 10 {["gust" := XNum 10]}].

Definition later_frame : Weather c_lin :=
  set_transrefs {["0-gust" := 0]}
    (init_weather c_lin tt default_conf 0 (forecast_only gusty_layers)).

(** [x] lies strictly between [a] and [b], whichever is the larger. *)
Definition strictly_between (x a b : Q) : Prop :=
  (a < x /\ x < b) \/ (b < x /\ x < a).

(** Modelled from the spec: the property that section 4.2 gives as the
    reason for the blends [c.expoCosineInterpolate] and
    [c.expoCosineInterpolateHeading] of [noaweather.c] ("blends smoothly
    without overshooting past either endpoint's direction"), for a positive
    exponent and an altitude strictly inside the bracket: the blended
    value lies strictly between two different end values, and the blended
    heading strictly between two headings less than half a turn apart. *)
Definition no_overshoot (c : CLib) : Prop :=
  forall v1 v2 a1 a2 alt e,
    0 < e -> strictly_between alt a1 a2 -> ~ v1 == v2 ->
    strictly_between (expoCosineInterpolate c v1 v2 a1 a2 alt (Some e)) v1 v2
    /\ (0 <= v1 < 360 -> 0 <= v2 < 360 -> Qabs (v1 - v2) < 180 ->
        strictly_between
          (expoCosineInterpolateHeading c v1 v2 a1 a2 alt (Some e)) v1 v2).

(** What a run of transitions for the layer [id] does to the references:
    the references of other layers stay as they are, and no reference
    goes away. *)
Definition extends_for (id : string) (refs refs' : gmap string Q) : Prop :=
  (forall k, Str.before_dash k <> id -> refs' !! k = refs !! k)
  /\ (forall k, is_Some (refs !! k) -> is_Some (refs' !! k)).

(** ** Predicates on dicts and layers *)

(** Two dicts agree on every key outside [keys]. *)
Definition same_but (keys : list string) (e e' : extras) : Prop :=
  forall key, key ∉ keys -> e' !! key = e !! key.

(** The keys of [extra] that [transWindLayer] assigns to. *)
Definition transitioned_keys : list string := ["gust"; "rh"; "dew"; "gust_hdg"].

(** A layer of the caller's list after a call, against the layer before
    it: the three numbers are the same, and so is every item of [extra]
    outside the keys that [setWinds] may assign to. *)
Definition layer_kept (l l' : WindLayer) : Prop :=
  l_alt l' = l_alt l /\ l_hdg l' = l_hdg l /\ l_speed l' = l_speed l
  /\ same_but ("variation" :: transitioned_keys) (l_extra l) (l_extra l').

(** The heading and the gust that [setWindLayer] writes for a layer. *)
Definition emitted_hdg (r : TLayer) (h : Store) : Q :=
  match load h (t_extra r) !! "variation" with
  | Some v => Num.pymod (t_hdg r + xnum v) 360
  | None => t_hdg r
  end.

Definition emitted_gust (r : TLayer) (h : Store) : option Q :=
  xnum <$> load h (t_extra r) !! "gust".

(** The variables of one simulator wind layer after [setWinds] has
    written the heading, the speed, the gust if there is one, and the
    shear direction 0. *)
Definition emitted (hdg speed : Q) (gust : option Q) (d : WindDref)
    : WindDref :=
  mkWindDref (d_alt d) hdg speed (default (d_gust d) gust) 0
    (d_turbulence d).

(** ** Predicates on cloud layers *)



(** ** Requests of the client *)

(** Line 1501: the position request, ["?%.2f|%.2f\n" % (lat, lon)], for
    the two formatted numbers. *)
Definition position_query (lat lon : string) : string :=
  "?" +:+ lat +:+ "|" +:+ lon +:+ String "010"%char EmptyString.

(** Line 1334: the station request, ['?' + query]. *)
Definition icao_query (query : string) : string := "?" +:+ query.

(** The characters a number formatted with [%.2f] is made of. *)
Definition numeral_chars : list ascii :=
  ["0"; "1"; "2"; "3"; "4"; "5"; "6"; "7"; "8"; "9"; "-"; "."]%char.

Definition numeral (s : string) : bool :=
  negb (String.eqb s "")
  && forallb (fun ch => bool_decide (ch ∈ numeral_chars))
       (list_ascii_of_string s).

(** No ['|'] in the text. *)
Definition no_bar (s : string) : bool :=
  forallb (fun ch => negb (Ascii.eqb ch "|"%char)) (list_ascii_of_string s).

Fixpoint last_char (s : string) : option ascii :=
  match s with
  | EmptyString => None
  | String a EmptyString => Some a
  | String _ s' => last_char s'
  end.

(** An implementation of [float] on plain decimal numerals (an optional
    sign, digits, an optional point and digits), for running the handler. *)
Definition digit_val (ch : ascii) : option Z :=
  let n := nat_of_ascii ch in
  if (48 <=? n)%nat && (n <=? 57)%nat then Some (Z.of_nat (n - 48)) else None.

Fixpoint digits_val (s : string) (acc : Z) : option Z :=
  match s with
  | EmptyString => Some acc
  | String ch s' =>
      match digit_val ch with
      | Some d => digits_val s' (10 * acc + d)%Z
      | None => None
      end
  end.

Fixpoint split_dot (s : string) : string * option string :=
  match s with
  | EmptyString => (EmptyString, None)
  | String ch s' =>
      if Ascii.eqb ch "."%char then (EmptyString, Some s')
      else let '(i, f) := split_dot s' in (String ch i, f)
  end.

Definition unsigned_decimal (s : string) : option Q :=
  let '(i, f) := split_dot s in
  let f := default EmptyString f in
  if String.eqb i "" && String.eqb f "" then None
  else
    match digits_val i 0, digits_val f 0 with
    | Some n, Some m =>
        Some (inject_Z n
              + Qmake m (Z.to_pos (10 ^ Z.of_nat (String.length f))))
    | _, _ => None
    end.

Definition decimal_float (s : string) : option Q :=
  match s with
  | String "-"%char s' => Qopp <$> unsigned_decimal s'
  | _ => unsigned_decimal s
  end.

(** A server whose repositories hold nothing yet, with [decimal_float]
    for [float]. *)
Definition idle_state : Server.state unit unit :=
  Server.mkState unit unit tt tt false [].

Definition idle_handle (request : string) (s : Server.state unit unit)
    : res (Server.state unit unit * option Payload) :=
  Server.handle unit unit string (fun _ => None) (fun _ => None)
    (fun _ _ _ _ => Server.empty_gfs) (fun _ _ _ _ => [])
    (fun _ _ _ => None) (fun _ _ _ _ => Server.empty_metar)
    (fun _ _ => None) (fun k => k) decimal_float
    request s.

(** * Properties *)

(** ** Numbers and strings *)

Module NumFacts.

Lemma ltb_lt a b : Num.ltb a b = true <-> a < b.
Proof.
  unfold Num.ltb. rewrite negb_true_iff, <- not_true_iff_false, Qle_bool_iff.
  split; [apply Qnot_le_lt | apply Qlt_not_le].
Qed.

Lemma ltb_ge a b : Num.ltb a b = false <-> b <= a.
Proof. unfold Num.ltb. rewrite negb_false_iff. apply Qle_bool_iff. Qed.

Lemma leb_le a b : Num.leb a b = true <-> a <= b.
Proof. apply Qle_bool_iff. Qed.

Lemma eqb_eq a b : Num.eqb a b = true <-> a == b.
Proof. apply Qeq_bool_iff. Qed.

Lemma eqb_neq a b : Num.eqb a b = false <-> ~ a == b.
Proof. unfold Num.eqb. rewrite <- not_true_iff_false, Qeq_bool_iff. tauto. Qed.

End NumFacts.

Module StrFacts.

Lemma before_dash_app s v :
  Str.dashless s = true -> Str.before_dash (s +:+ "-" +:+ v) = s.
Proof.
  induction s as [|a s IH]; simpl; [reflexivity|].
  intros [Ha Hs]%andb_prop. apply negb_true_iff in Ha. rewrite Ha.
  f_equal. apply IH, Hs.
Qed.

Lemma dashless_uint d : Str.dashless (NilEmpty.string_of_uint d) = true.
Proof. induction d; simpl; auto. Qed.

Lemma dashless_of_nat n : Str.dashless (Str.of_nat n) = true.
Proof.
  unfold Str.of_nat, NilZero.string_of_uint.
  destruct (Nat.to_uint n); try reflexivity; apply dashless_uint.
Qed.

Lemma of_nat_inj n m : Str.of_nat n = Str.of_nat m -> n = m.
Proof.
  unfold Str.of_nat. intros H.
  apply (f_equal NilZero.uint_of_string) in H.
  assert (Hn : forall k, Nat.to_uint k <> Decimal.Nil).
  { intros k Hk.
    pose proof (DecimalNat.Unsigned.to_of (Nat.to_uint k)) as Hk'.
    rewrite DecimalNat.Unsigned.of_to, Hk in Hk'. discriminate. }
  rewrite !NilZero.usu in H by apply Hn.
  injection H as H. apply (f_equal Nat.of_uint) in H.
  now rewrite !DecimalNat.Unsigned.of_to in H.
Qed.

Lemma of_nat_not_False n : Str.of_nat n <> "False".
Proof.
  unfold Str.of_nat, NilZero.string_of_uint.
  destruct (Nat.to_uint n); simpl; discriminate.
Qed.

Lemma of_index_inj b b' : Str.of_index b = Str.of_index b' -> b = b'.
Proof.
  destruct b as [n|], b' as [m|]; simpl; intros H.
  - f_equal. now apply of_nat_inj.
  - now apply of_nat_not_False in H.
  - symmetry in H. now apply of_nat_not_False in H.
  - reflexivity.
Qed.

End StrFacts.

(** ** The client thread *)

(** A payload for which the loop ends ([break]) is neither stored nor
    queued. *)
Lemma weatherClient_step_break (c : CLib) (wdata : Payload) (w : Weather c) :
  die w = true \/ is_bye wdata = true <-> weatherClient_step wdata w = None.
Proof.
  unfold weatherClient_step.
  destruct (die w), (is_bye wdata), (has_info wdata); simpl;
    split; intros H; try reflexivity; try discriminate;
    try (left; reflexivity); try (right; reflexivity);
    destruct H; discriminate.
Qed.

(** C5, refuted as stated: the termination marker ['!bye'] is a decoded
    payload without the key [info], yet it is not appended to the queue of
    ad-hoc responses (the loop ends on it). *)
Lemma weatherClient_bye_not_queued :
  let w := init_weather c_lin tt default_conf 0 None in
  has_info (PStr "!bye") = false /\
  queryResponses (weatherClient [PStr "!bye"] w)
    <> queryResponses w ++ [PStr "!bye"].
Proof. split; [reflexivity | discriminate]. Qed.

(** C5, amended: for every decoded payload other than ['!bye'] that is
    received while the [die] event is not set, a payload with the key
    [info] replaces the current snapshot and sets the new-data flag (the
    queue is unchanged), and a payload without it is appended to the queue
    of ad-hoc responses (snapshot and flag unchanged). *)
Theorem weatherClient_dispatch (c : CLib) (wdata : Payload) (w : Weather c) :
  die w = false ->
  is_bye wdata = false ->
  exists w', weatherClient_step wdata w = Some w' /\
    if has_info wdata
    then weatherData w' = Some wdata /\ newData w' = true
         /\ queryResponses w' = queryResponses w
    else queryResponses w' = queryResponses w ++ [wdata]
         /\ weatherData w' = weatherData w /\ newData w' = newData w.
Proof.
  intros Hdie Hbye. unfold weatherClient_step. rewrite Hdie, Hbye. simpl.
  destruct (has_info wdata); simpl; eexists; split; try reflexivity;
    repeat split.
Qed.

Lemma weatherClient_dispatch_witness :
  let w := init_weather c_lin tt default_conf 0 None in
  let wdata := PDict (mkSnapshot None None None None) in
  die w = false /\ is_bye wdata = false /\
  exists w', weatherClient_step wdata w = Some w' /\
    if has_info wdata
    then weatherData w' = Some wdata /\ newData w' = true
         /\ queryResponses w' = queryResponses w
    else queryResponses w' = queryResponses w ++ [wdata]
         /\ weatherData w' = weatherData w /\ newData w' = newData w.
Proof.
  split; [reflexivity|]. split; [reflexivity|].
  apply (weatherClient_dispatch c_lin); reflexivity.
Defined.

(** ** Turbulence *)

(** With one band the band loop is not entered. *)
Lemma turb_level_single (band : Q * Q) (alt : Q) : turb_level [band] alt = 0.
Proof. reflexivity. Qed.

(** C7, refuted as stated: with the single band (5000 m, severity 3), at
    5000 m and with probability factor 1, the three turbulence outputs get
    the pattern of severity 0, not of severity 3 ([c_lin]'s pattern returns
    the severity it is fed). *)
Lemma setTurbulence_single_band_is_calm :
  let w := init_weather c_lin tt default_conf 5000 None in
  exists w', setTurbulence [(5000, 3)] 1 w = Ok w' /\
    d_turbulence <$> winds w' = [0 * 1; 0 * 1; 0 * 1] /\
    ~ 0 * 1 == 3 * turbulence_probability (conf w).
Proof.
  eexists. split; [reflexivity|]. split; [reflexivity|]. discriminate.
Qed.

(** C7, amended: for a band list of exactly one band, [setTurbulence] does
    not look at the band (the loop needs more than one band): the severity
    fed to the jitter pattern is 0 times the probability factor, as for an
    empty list, and the pattern's value is written to all three wind-layer
    turbulence outputs. *)
Theorem setTurbulence_single_band (c : CLib) (band : Q * Q) (elapsed : Q)
    (w : Weather c) :
  length (winds w) = 3%nat ->
  let fed := 0 * turbulence_probability (conf w) in
  let out := randPattern c "turbulence" fed elapsed turbulence_args (randRefs w) in
  exists w', setTurbulence [band] elapsed w = Ok w' /\
    setTurbulence [] elapsed w = Ok w' /\
    d_turbulence <$> winds w' = [out.1; out.1; out.1] /\
    randRefs w' = out.2.
Proof.
  intros Hlen fed out. unfold setTurbulence.
  rewrite turb_level_single. change (turb_level [] (alt w)) with 0.
  fold fed. fold out. destruct out as [t rr] eqn:Hout.
  destruct (winds w) as [|d0 [|d1 [|d2 [|? ?]]]]; try discriminate.
  simpl. eexists. split; [reflexivity|]. split; [reflexivity|].
  split; reflexivity.
Qed.

Lemma setTurbulence_single_band_witness :
  let w := init_weather c_lin tt default_conf 5000 None in
  length (winds w) = 3%nat /\
  exists w', setTurbulence [(5000, 3)] 1 w = Ok w' /\
    setTurbulence [] 1 w = Ok w' /\
    d_turbulence <$> winds w' = [0 * 1; 0 * 1; 0 * 1] /\
    randRefs w' = tt.
Proof.
  split; [reflexivity|].
  apply (setTurbulence_single_band c_lin (5000, 3) 1
           (init_weather c_lin tt default_conf 5000 None)).
  reflexivity.
Defined.

(** ** The server's handler *)

Section HandlerFacts.
Variables G K F : Type.
Variable lastgrib : G -> option string.
Variable wafs_lastgrib : G -> option string.
Variable parseGribData : G -> string -> Q -> Q -> Gfs.
Variable wafs_parseGribData : G -> string -> Q -> Q -> list (Q * Q).
Variable getClosestStation : G -> Q -> Q -> option (list F).
Variable parseMetar : G -> F -> F -> F -> Metar.
Variable getMetar : G -> string -> option Payload.
Variable conf_load : K -> K.
Variable float : string -> option Q.

Let handle :=
  Server.handle G K F lastgrib wafs_lastgrib parseGribData
    wafs_parseGribData getClosestStation parseMetar getMetar conf_load float.

(** The two control messages the handler knows: a shutdown request and a
    reload of the configuration; neither is answered. *)
Lemma handle_shutdown (s : Server.state G K) :
  exists s', handle "!shutdown" s = Ok (s', None)
    /\ Server.shutting_down G K s' = true
    /\ Server.gfs G K s' = Server.gfs G K s.
Proof. eexists. split; [reflexivity|]. split; reflexivity. Qed.

Lemma handle_reload (s : Server.state G K) :
  exists s', handle "!reload" s = Ok (s', None)
    /\ Server.config G K s' = conf_load (Server.config G K s)
    /\ Server.gfs G K s' = Server.gfs G K s.
Proof. eexists. split; [reflexivity|]. split; reflexivity. Qed.

(** C8, the code at the message ['!resetMetar']: the handler has no case
    for it and returns at once; nothing is sent, and the state, with the
    station-report source in [gfs], is the one before. *)
Theorem handle_resetMetar (s : Server.state G K) :
  handle "!resetMetar" s = Ok (s, None).
Proof. reflexivity. Qed.

End HandlerFacts.

(** ** The heading exponent *)

(** For speeds that are not negative, the guard of lines 361-364 keeps
    the division away from a zero denominator. *)
Lemma windExpo_nonneg (s1 s2 : Q) :
  0 <= s1 -> 0 <= s2 ->
  exists e, windExpo s1 s2 = Ok e /\
    (s1 == 0 /\ s2 == 0 -> e = 1) /\
    (~ (s1 == 0 /\ s2 == 0) ->
       ~ s1 + s2 == 0 /\ e = 2 * s1 / (s1 + s2)).
Proof.
  intros H1 H2. unfold windExpo.
  destruct (Qeq_dec s1 0) as [E1|E1], (Qeq_dec s2 0) as [E2|E2].
  - apply NumFacts.eqb_eq in E1 as B1. apply NumFacts.eqb_eq in E2 as B2.
    rewrite B1, B2. simpl. exists 1.
    split; [reflexivity|]. split; [reflexivity|]. tauto.
  - apply NumFacts.eqb_eq in E1 as B1. apply NumFacts.eqb_neq in E2 as B2.
    assert (Hs : ~ s1 + s2 == 0) by (intros Hs; apply E2; lra).
    apply NumFacts.eqb_neq in Hs as Hb. rewrite B1, B2, Hb. simpl. eexists.
    split; [reflexivity|]. split; [tauto|]. auto.
  - apply NumFacts.eqb_neq in E1 as B1.
    assert (Hs : ~ s1 + s2 == 0) by (intros Hs; apply E1; lra).
    apply NumFacts.eqb_neq in Hs as Hb. rewrite B1, Hb. simpl. eexists.
    split; [reflexivity|]. split; [tauto|]. auto.
  - apply NumFacts.eqb_neq in E1 as B1.
    assert (Hs : ~ s1 + s2 == 0) by (intros Hs; apply E1; lra).
    apply NumFacts.eqb_neq in Hs as Hb. rewrite B1, Hb. simpl. eexists.
    split; [reflexivity|]. split; [tauto|]. auto.
Qed.

(** [interpolateWindLayer] raises only through the exponent. *)
Lemma interpolateWindLayer_ok (c : CLib) (wlayer1 wlayer2 : TLayer)
    (alt : Q) (nlayer : nat) (h : Store) (e : Q) :
  windExpo (t_speed wlayer1) (t_speed wlayer2) = Ok e ->
  exists r, interpolateWindLayer c wlayer1 wlayer2 alt nlayer h = Ok r.
Proof.
  intros He. unfold interpolateWindLayer.
  destruct (Num.eqb (t_alt wlayer1) (t_alt wlayer2)); [eauto|].
  rewrite He. simpl.
  destruct (load h (t_extra wlayer1) !! "variation"); eauto.
Qed.

(** C10: for every pair of wind layers (a wind speed is not negative),
    [interpolateWindLayer] returns; the exponent is 1 when both speeds are
    0, and otherwise it is [2*s1/(s1+s2)] with a denominator that is not
    0. *)
Theorem interpolateWindLayer_total (c : CLib) (wlayer1 wlayer2 : TLayer)
    (alt : Q) (nlayer : nat) (h : Store) :
  0 <= t_speed wlayer1 ->
  0 <= t_speed wlayer2 ->
  let s1 := t_speed wlayer1 in
  let s2 := t_speed wlayer2 in
  (exists e, windExpo s1 s2 = Ok e /\
     (s1 == 0 /\ s2 == 0 -> e = 1) /\
     (~ (s1 == 0 /\ s2 == 0) -> ~ s1 + s2 == 0 /\ e = 2 * s1 / (s1 + s2)))
  /\ exists r, interpolateWindLayer c wlayer1 wlayer2 alt nlayer h = Ok r.
Proof.
  intros H1 H2 s1 s2.
  destruct (windExpo_nonneg s1 s2 H1 H2) as (e & He & Hz & Hnz).
  split; [exists e; auto|].
  eapply interpolateWindLayer_ok. exact He.
Qed.

Lemma interpolateWindLayer_total_witness :
  let wlayer1 := mkTLayer 1000 90 15 (XNew ∅) in
  let wlayer2 := mkTLayer 0 0 5 (XNew ∅) in
  (0 <= 15 /\ 0 <= 5) /\
  (exists e, windExpo 15 5 = Ok e /\
     (15 == 0 /\ 5 == 0 -> e = 1) /\
     (~ (15 == 0 /\ 5 == 0) -> ~ 15 + 5 == 0 /\ e = 2 * 15 / (15 + 5)))
  /\ exists r, interpolateWindLayer c_lin wlayer1 wlayer2 500 0
                 (mkStore [] ∅) = Ok r.
Proof.
  split; [split; discriminate|].
  apply (interpolateWindLayer_total c_lin (mkTLayer 1000 90 15 (XNew ∅))
           (mkTLayer 0 0 5 (XNew ∅)) 500 0 (mkStore [] ∅));
    discriminate.
Defined.

(** ** Cloud layers *)

Lemma capped_chain_snoc (l : list CloudLayer) (x : CloudLayer) :
  capped_chain l ->
  (forall hi, last l = Some hi -> capped hi x) ->
  capped_chain (l ++ [x]).
Proof.
  induction l as [|a l IH]; simpl; [auto|].
  intros Hc Hlast. destruct l as [|b l]; simpl in *.
  - split; [apply Hlast; reflexivity | exact I].
  - destruct Hc as [Hab Hc]. split; [exact Hab|].
    apply IH; [exact Hc | exact Hlast].
Qed.

Lemma metar_cloud_inv (cf : Conf) (gfsClouds : list (Q * Q * Q))
    (a : CloudAcc) (cloud : Q * string * string) :
  metar_inv a -> metar_inv (metar_cloud cf gfsClouds a cloud).
Proof.
  intros [Hc Hl]. destruct cloud as [[base code] x]. unfold metar_cloud.
  destruct (match xpClouds code with
            | Some (xp, thick) => (base + thick, CNum xp)
            | None => (minCloud, CCode code)
            end) as [top cv].
  set (top' := default top (gfs_equivalent cf gfsClouds base)).
  split; simpl.
  - apply capped_chain_snoc; [exact Hc|].
    intros hi Hhi. unfold capped. simpl. rewrite <- (Hl hi Hhi).
    destruct (Num.eqb (lastBase a) 0) eqn:E0; simpl.
    + left. apply NumFacts.eqb_eq, E0.
    + right. destruct (Num.ltb (lastBase a) top') eqn:Elt.
      * apply Qle_refl.
      * apply NumFacts.ltb_ge, Elt.
  - intros hi. rewrite last_snoc. intros [= <-]. reflexivity.
Qed.

(** In the branch that merges the station report, the layers made from
    observed layers are capped: this is the loop of lines 431-453. *)
Lemma metar_clouds_capped (cf : Conf) (gfsClouds : list (Q * Q * Q))
    (clouds : list (Q * string * string)) :
  capped_chain
    (acc_clouds (foldl (metar_cloud cf gfsClouds) (mkAcc 0 0 []) clouds)).
Proof.
  assert (H : forall a, metar_inv a ->
            metar_inv (foldl (metar_cloud cf gfsClouds) a clouds)).
  { induction clouds as [|x clouds IH]; simpl; [auto|].
    intros a Ha. apply IH, metar_cloud_inv, Ha. }
  apply H. split; simpl; [exact I | discriminate].
Qed.

(** A forecast band whose converted cover is 3 or more keeps its own
    thickness, clipped, and is only ever raised to [lastBase]. *)
Lemma gfs_cloud_dense (c : CLib) (cf : Conf) (a : CloudAcc)
    (base top cover : Q) :
  3 <= c_cc2xp c cover -> 0 < base -> 0 < top ->
  gfs_cloud c cf a (base, top, cover)
  = let t := base + C.limit (top - base) (Some (maxCloud cf)) (Some minCloud) in
    mkAcc base (maxTop a)
      (acc_clouds a
       ++ [mkCloud base (if Num.ltb t (lastBase a) then lastBase a else t)
             (CNum (c_cc2xp c cover))]).
Proof.
  intros Hq Hb Ht. unfold gfs_cloud.
  assert (H0 : Num.ltb 0 (c_cc2xp c cover) = true)
    by (apply NumFacts.ltb_lt; lra).
  assert (H3 : Num.ltb (c_cc2xp c cover) 3 = false)
    by (apply NumFacts.ltb_ge; exact Hq).
  apply NumFacts.ltb_lt in Hb, Ht. rewrite H0, Hb, Ht, H3. reflexivity.
Qed.

(** Two layers that start below the limit are put lowest first and get
    no filler. *)
Lemma padClouds_pair (limit q : Q) (hi lo : CloudLayer) :
  c_base lo <= limit -> c_cover hi = CNum q -> q <= limit ->
  padClouds limit [hi; lo] = Ok [lo; hi].
Proof.
  intros Hb Hc Hq. unfold padClouds.
  change (reverse [hi; lo]) with [lo; hi]. cbn [length].
  apply NumFacts.ltb_ge in Hb, Hq. rewrite Hb, andb_false_r, Hc.
  cbn [cover_num rbind]. rewrite Hq. reflexivity.
Qed.

Lemma assembleClouds_dense_pair (c : CLib) :
  3 <= c_cc2xp c 100 -> c_cc2xp c 100 <= 4 ->
  assembleClouds c default_conf
    (cloud_payload [(1000, 5000, 100); (3000, 6000, 100)]
       (mkMetar None None None None None None))
  = Ok [mkCloud 1000 5000 (CNum (c_cc2xp c 100));
        mkCloud 3000 6000 (CNum (c_cc2xp c 100))].
Proof.
  intros H3 H4.
  unfold assembleClouds, collectClouds, cloud_payload.
  cbn [snapshot_dict rbind getitem s_gfs s_metar g_clouds default
       usable_metar_clouds m_distance reverse rev_append foldl].
  change (rev_append (id [(1000, 5000, 100); (3000, 6000, 100)]) [])
    with [(3000, 6000, 100); (1000, 5000, 100)].
  cbn [foldl].
  rewrite !gfs_cloud_dense by (exact H3 || reflexivity).
  cbn [acc_clouds lastBase maxTop app].
  match goal with
  | |- context [mkCloud 3000 ?t _] =>
      replace t with 6000 by (vm_compute; reflexivity)
  end.
  match goal with
  | |- context [mkCloud 1000 ?t _] =>
      replace t with 5000 by (vm_compute; reflexivity)
  end.
  apply (padClouds_pair _ (c_cc2xp c 100)); [discriminate | reflexivity |].
  eapply Qle_trans; [exact H4 | discriminate].
Qed.

Lemma assembleClouds_added_bands (c : CLib) :
  assembleClouds c default_conf
    (cloud_payload [(3000, 8000, 100); (5000, 9000, 100)]
       (mkMetar (Some 0) (Some 1000) None None None (Some [])))
  = Ok [mkCloud 0 minCloud (CNum 0);
        mkCloud 3000 8000 (CNum (c_cc2xp c 100));
        mkCloud 5000 9000 (CNum (c_cc2xp c 100))].
Proof. vm_compute. reflexivity. Qed.

(** C6, the code at two inputs. Forecast-only branch: for the bands
    (1000, 5000) and (3000, 6000), both at 100 percent, the assembled set
    keeps the lower layer's top at 5000, above the base 3000 of the layer
    over it; line 477 raises a top to [lastBase] when it is lower but
    never lowers it. This holds for every cover conversion [c.cc2xp] that
    maps 100 percent to a cover from 3 to 4. Merging branch: with a
    station in range that reports no cloud and the bands (3000, 8000) and
    (5000, 9000), the two forecast bands are put in front uncapped, and
    8000 is above 5000, whatever the cover conversion. Both sets are what
    [setClouds] publishes. *)
Theorem setClouds_layers_overlap (c : CLib) (rr : RandRefs c) :
  let near := mkMetar (Some 0) (Some 1000) None None None (Some []) in
  let none := mkMetar None None None None None None in
  (3 <= c_cc2xp c 100 -> c_cc2xp c 100 <= 4 ->
   exists lo hi,
     assembleClouds c default_conf
       (cloud_payload [(1000, 5000, 100); (3000, 6000, 100)] none)
     = Ok [lo; hi]
     /\ c_base hi = 3000 /\ c_top lo = 5000 /\ c_base hi < c_top lo)
  /\
  (exists clear lo hi,
     assembleClouds c default_conf
       (cloud_payload [(3000, 8000, 100); (5000, 9000, 100)] near)
     = Ok [clear; lo; hi]
     /\ c_base hi = 5000 /\ c_top lo = 8000 /\ c_base hi < c_top lo)
  /\
  (3 <= c_cc2xp c 100 -> c_cc2xp c 100 <= 4 ->
   exists w',
     setClouds (init_weather c rr default_conf 0
                  (cloud_payload [(1000, 5000, 100); (3000, 6000, 100)] none))
     = Ok w'
     /\ cloud_base w' = [1000; 3000] /\ cloud_top w' = [5000; 6000]).
Proof.
  intros near none. split; [|split].
  - intros H3 H4. do 2 eexists.
    split; [apply (assembleClouds_dense_pair c H3 H4)|].
    split; [reflexivity|]. split; [reflexivity|]. vm_compute. reflexivity.
  - do 3 eexists. split; [apply (assembleClouds_added_bands c)|].
    split; [reflexivity|]. split; [reflexivity|]. vm_compute. reflexivity.
  - intros H3 H4. unfold setClouds.
    cbn [conf weatherData override_clouds clouds alt init_weather].
    fold none. unfold none.
    rewrite (assembleClouds_dense_pair c H3 H4). cbn [rbind].
    eexists. split; [reflexivity|]. split; reflexivity.
Qed.

Lemma setClouds_layers_overlap_witness :
  let near := mkMetar (Some 0) (Some 1000) None None None (Some []) in
  let none := mkMetar None None None None None None in
  (3 <= c_cc2xp c_lin 100 /\ c_cc2xp c_lin 100 <= 4)
  /\ (exists lo hi,
        assembleClouds c_lin default_conf
          (cloud_payload [(1000, 5000, 100); (3000, 6000, 100)] none)
        = Ok [lo; hi]
        /\ c_base hi = 3000 /\ c_top lo = 5000 /\ c_base hi < c_top lo)
  /\ (exists clear lo hi,
        assembleClouds c_lin default_conf
          (cloud_payload [(3000, 8000, 100); (5000, 9000, 100)] near)
        = Ok [clear; lo; hi]
        /\ c_base hi = 5000 /\ c_top lo = 8000 /\ c_base hi < c_top lo)
  /\ (exists w',
        setClouds (init_weather c_lin tt default_conf 0
                     (cloud_payload [(1000, 5000, 100); (3000, 6000, 100)]
                        none))
        = Ok w'
        /\ cloud_base w' = [1000; 3000] /\ cloud_top w' = [5000; 6000]).
Proof.
  intros near none.
  assert (H3 : 3 <= c_cc2xp c_lin 100) by discriminate.
  assert (H4 : c_cc2xp c_lin 100 <= 4) by discriminate.
  destruct (setClouds_layers_overlap c_lin tt) as (A & B & C).
  split; [split; assumption|].
  split; [exact (A H3 H4)|]. split; [exact B | exact (C H3 H4)].
Defined.

(** ** The synthetic surface layer *)

(** With a station report that has a wind, the list gets the synthetic
    layer in front, at the transitioned altitude, and loses its first
    layer or not by the test of line 242. The station's distance is not
    read. *)
Lemma appendMetarLayer_shape (c : CLib) (layers : list WindLayer)
    (elapsed : Q) (w : Weather c) (d : Snapshot) (m : Metar)
    (wind : Q * Q * Q) (elevation : Q) :
  weatherData w = Some (PDict d) ->
  s_metar d = Some m ->
  m_wind m = Some wind ->
  m_elevation m = Some elevation ->
  let agl := metar_agl_limit (conf w) in
  let alt :=
    (C.transition (elevation + agl) "0-metar_wind_alt" elapsed (3048 # 10000)
       (transrefs w)).1 in
  exists syn h w',
    appendMetarLayer layers elapsed w
    = Ok (syn :: drop_close_layer agl alt (copy_list layers), h, w')
    /\ t_alt syn = alt /\ t_speed syn = wind.1.2
    /\ t_extra syn = XRef LSyn
    /\ st_arg h = layers
    /\ st_syn h !! "metar" = Some (XBool true).
Proof.
  intros Hdata Hmetar Hwind Helev agl alt.
  unfold appendMetarLayer, metar_with_wind.
  rewrite Hdata, Hmetar, Hwind. simpl. rewrite Helev. simpl.
  destruct wind as [[hdg speed] gust]. subst alt agl.
  destruct (C.transition _ _ _ _ _) as [alt refs] eqn:Ht.
  assert (Hx : forall e : extras,
            e !! "metar" = Some (XBool true) ->
            metar_temperatures m e !! "metar" = Some (XBool true)).
  { intros e He. unfold metar_temperatures.
    destruct (m_temperature m) as [[[t|] [dw|]]|];
      rewrite ?lookup_insert_ne by discriminate; exact He. }
  destruct (m_variable_wind m) as [[h1 h2]|].
  - destruct (randPattern c _ _ _ _ _) as [v rr]. simpl.
    do 3 eexists. split; [reflexivity|]. repeat split.
    simpl. apply Hx. rewrite lookup_insert_ne by discriminate.
    apply lookup_insert_eq.
  - simpl. do 3 eexists. split; [reflexivity|]. repeat split.
    simpl. apply Hx. apply lookup_insert_eq.
Qed.

(** C3, the code on a station beyond the distance limit: [setWinds] tests
    only that the report has a wind, so the synthetic layer (marked
    [metar], with the station's wind speed) is put in front of the list
    all the same. *)
Theorem appendMetarLayer_beyond_distance_limit (c : CLib)
    (layers : list WindLayer) (elapsed : Q) (w : Weather c) (d : Snapshot)
    (m : Metar) (wind : Q * Q * Q) (elevation dist : Q) :
  weatherData w = Some (PDict d) ->
  s_metar d = Some m ->
  m_wind m = Some wind ->
  m_elevation m = Some elevation ->
  m_distance m = Some dist ->
  metar_distance_limit (conf w) < dist ->
  exists syn lw h w',
    appendMetarLayer layers elapsed w = Ok (syn :: lw, h, w')
    /\ t_extra syn = XRef LSyn
    /\ t_speed syn = wind.1.2
    /\ st_syn h !! "metar" = Some (XBool true).
Proof.
  intros Hdata Hmetar Hwind Helev _ _.
  destruct (appendMetarLayer_shape c layers elapsed w d m wind elevation
              Hdata Hmetar Hwind Helev)
    as (syn & h & w' & Heq & _ & Hs & Hx & _ & Hm).
  eexists syn, _, h, w'. split; [exact Heq|]. auto.
Qed.

Lemma appendMetarLayer_beyond_distance_limit_witness :
  let w := init_weather c_lin tt default_conf 0
             (wind_payload two_layers far_station) in
  metar_distance_limit (conf w) < 200000 /\
  exists syn lw h w',
    appendMetarLayer two_layers 1 w = Ok (syn :: lw, h, w')
    /\ t_extra syn = XRef LSyn
    /\ t_speed syn = 10
    /\ st_syn h !! "metar" = Some (XBool true).
Proof.
  split; [reflexivity|].
  apply (appendMetarLayer_beyond_distance_limit c_lin two_layers 1
           (init_weather c_lin tt default_conf 0
              (wind_payload two_layers far_station))
           (wind_snapshot two_layers far_station) far_station (270, 10, 0)
           0 200000);
    reflexivity.
Defined.

(** C4, refuted as stated: at an airport at 3000 m (synthetic layer at
    3300 m, limit 300 m) the lowest forecast layer, at 0 m, is removed
    although it is 3300 m away from the synthetic layer, not closer than
    the 300 m of the limit. *)
Lemma appendMetarLayer_drops_far_below :
  let layers := [mkWindLayer 0 0 5 ∅; mkWindLayer 5000 90 15 ∅] in
  let w := init_weather c_lin tt default_conf 0
             (wind_payload layers high_airport) in
  exists syn rest h w',
    appendMetarLayer layers 1 w = Ok (syn :: rest, h, w')
    /\ t_alt syn = 3000 + 300
    /\ t_alt <$> rest = [5000]
    /\ ~ Qabs (0 - t_alt syn) < metar_agl_limit (conf w).
Proof.
  do 4 eexists. split; [reflexivity|]. split; [reflexivity|].
  split; [reflexivity|]. vm_compute. discriminate.
Qed.

(** C4, amended: when a synthetic surface layer is created (at the
    altitude that the transition toward station elevation plus the limit
    has reached), [setWinds] removes the lowest forecast layer exactly when
    there is more than one forecast layer and the lowest one's altitude is
    below the synthetic layer's altitude plus the limit, so also when it
    lies further below the synthetic layer than the limit; otherwise the
    forecast layers are all kept. *)
Theorem appendMetarLayer_drop_rule (c : CLib) (layers : list WindLayer)
    (elapsed : Q) (w : Weather c) (d : Snapshot) (m : Metar)
    (wind : Q * Q * Q) (elevation : Q) :
  weatherData w = Some (PDict d) ->
  s_metar d = Some m ->
  m_wind m = Some wind ->
  m_elevation m = Some elevation ->
  let agl := metar_agl_limit (conf w) in
  let too_low (syn : TLayer) :=
    (1 < length layers)%nat
    /\ exists first, head layers = Some first
                     /\ l_alt first < t_alt syn + agl in
  exists syn lw h w',
    appendMetarLayer layers elapsed w = Ok (syn :: lw, h, w')
    /\ t_alt syn
       = (C.transition (elevation + agl) "0-metar_wind_alt" elapsed
            (3048 # 10000) (transrefs w)).1
    /\ (too_low syn -> lw = tail (copy_list layers))
    /\ (~ too_low syn -> lw = copy_list layers).
Proof.
  intros Hdata Hmetar Hwind Helev agl too_low.
  destruct (appendMetarLayer_shape c layers elapsed w d m wind elevation
              Hdata Hmetar Hwind Helev)
    as (syn & h & w' & Heq & Ha & _).
  eexists syn, _, h, w'. split; [exact Heq|]. split; [exact Ha|].
  subst too_low agl. cbv beta. rewrite <- Ha.
  set (agl := metar_agl_limit (conf w)).
  unfold drop_close_layer, copy_list.
  destruct layers as [|first rest]; simpl.
  - split; [reflexivity|]. reflexivity.
  - rewrite length_imap.
    destruct (bool_decide (1 < S (length rest))%nat) eqn:Hlen; simpl.
    + apply bool_decide_eq_true in Hlen.
      destruct (Num.ltb (l_alt first) (t_alt syn + agl)) eqn:Hlt.
      * split; [reflexivity|]. intros Hn. exfalso. apply Hn.
        split; [exact Hlen|]. exists first. split; [reflexivity|].
        apply NumFacts.ltb_lt, Hlt.
      * split; [|reflexivity]. intros (_ & f & [= <-] & Hf).
        apply NumFacts.ltb_lt in Hf. congruence.
    + apply bool_decide_eq_false in Hlen.
      split; [|reflexivity]. intros (Hl & _). contradiction.
Qed.

Lemma appendMetarLayer_drop_rule_witness :
  let layers := [mkWindLayer 0 0 5 ∅; mkWindLayer 5000 90 15 ∅] in
  let w := init_weather c_lin tt default_conf 0
             (wind_payload layers high_airport) in
  let too_low (syn : TLayer) :=
    (1 < length layers)%nat
    /\ exists first, head layers = Some first
                     /\ l_alt first < t_alt syn + 300 in
  exists syn lw h w',
    appendMetarLayer layers 1 w = Ok (syn :: lw, h, w')
    /\ t_alt syn
       = (C.transition (3000 + 300) "0-metar_wind_alt" 1
            (3048 # 10000) (transrefs w)).1
    /\ (too_low syn -> lw = tail (copy_list layers))
    /\ (~ too_low syn -> lw = copy_list layers).
Proof.
  apply (appendMetarLayer_drop_rule c_lin
           [mkWindLayer 0 0 5 ∅; mkWindLayer 5000 90 15 ∅] 1
           (init_weather c_lin tt default_conf 0
              (wind_payload [mkWindLayer 0 0 5 ∅; mkWindLayer 5000 90 15 ∅]
                 high_airport))
           (wind_snapshot [mkWindLayer 0 0 5 ∅; mkWindLayer 5000 90 15 ∅]
              high_airport)
           high_airport (270, 10, 0) 3000);
    reflexivity.
Defined.

(** ** The caller's list after a call *)

(** C9, the code at two inputs. Between the two layers of the scenario,
    at 500 m, [interpolateWindLayer] adds the key [variation] to the
    [extra] of the top layer, which is the snapshot's own dict. With one
    layer whose gust is 10 kt while the gust transition stands at 0 kt,
    [transWindLayer] writes the transitioned gust, 1 kt, over the
    snapshot's 10 kt. In both cases the caller's list is not what it was
    before the call. *)
Theorem setWinds_writes_into_snapshot :
  (exists layers' w',
     setWinds two_layers 1
       (init_weather c_lin tt default_conf 500 (forecast_only two_layers))
     = Ok (layers', w')
     /\ l_extra <$> two_layers = [∅; ∅]
     /\ l_extra <$> layers' = [∅; {["variation" := XNum 0]}]
     /\ layers' <> two_layers)
  /\
  (exists layers' w',
     setWinds gusty_layers 1 later_frame = Ok (layers', w')
     /\ l_extra <$> layers' = [{["gust" := XNum (0 + 1 * 1)]}]
     /\ layers' <> gusty_layers).
Proof.
  split.
  - do 2 eexists. split; [reflexivity|]. split; [reflexivity|].
    split; [vm_compute; reflexivity|]. vm_compute. discriminate.
  - do 2 eexists. split; [reflexivity|].
    split; [vm_compute; reflexivity|]. vm_compute. discriminate.
Qed.

(** ** The bracket and the heading blend *)

(** Between two layers at different altitudes, [interpolateWindLayer]
    returns a new layer at the current altitude whose heading is the
    heading blend at the exponent of [windExpo], first layer first. *)
Lemma interpolateWindLayer_blend (c : CLib) (wlayer1 wlayer2 : TLayer)
    (alt : Q) (nlayer : nat) (h : Store) (e : Q) :
  ~ t_alt wlayer1 == t_alt wlayer2 ->
  windExpo (t_speed wlayer1) (t_speed wlayer2) = Ok e ->
  exists r h',
    interpolateWindLayer c wlayer1 wlayer2 alt nlayer h = Ok (r, h')
    /\ t_alt r = alt
    /\ t_hdg r
       = expoCosineInterpolateHeading c (t_hdg wlayer1) (t_hdg wlayer2)
           (t_alt wlayer1) (t_alt wlayer2) alt (Some e)
    /\ t_speed r
       = if bool_decide (nlayer ≠ 0%nat)
         then C.interpolate (t_speed wlayer1) (t_speed wlayer2)
                (t_alt wlayer1) (t_alt wlayer2) alt
         else expoCosineInterpolate c (t_speed wlayer1) (t_speed wlayer2)
                (t_alt wlayer1) (t_alt wlayer2) alt (Some e).
Proof.
  intros Halt He. unfold interpolateWindLayer.
  apply NumFacts.eqb_neq in Halt. rewrite Halt, He. simpl.
  destruct (load h (t_extra wlayer1) !! "variation");
    do 2 eexists; (split; [reflexivity|]); repeat split.
Qed.

(** The transitions leave a layer's altitude as it is. *)
Lemma transWindLayer_alt (cf : Conf) (wlayer : TLayer) (id : string)
    (elapsed : Q) (refs : gmap string Q) (h : Store) :
  t_alt (transWindLayer cf wlayer id elapsed refs h).1.1 = t_alt wlayer.
Proof.
  unfold transWindLayer.
  destruct (C.transitionHdg _ _ _ _ _) as [hdg refs1].
  destruct (C.transition _ _ _ _ _) as [speed refs2].
  destruct (foldl _ _ _) as [extra refs3]. reflexivity.
Qed.

(** A heading in [0, 360) is its own remainder. *)
Lemma pymod_small (x : Q) : 0 <= x -> x < 360 -> Num.pymod x 360 == x.
Proof.
  intros H0 H1. unfold Num.pymod.
  assert (Hf : Qfloor (x / 360) = 0%Z).
  { assert (Hlo : 0 <= x / 360).
    { apply Qle_shift_div_l; [reflexivity | lra]. }
    assert (Hhi : x / 360 < 1).
    { apply Qlt_shift_div_r; [reflexivity | lra]. }
    pose proof (Qfloor_le (x / 360)) as Hfl.
    pose proof (Qlt_floor (x / 360)) as Hfu.
    assert (H1' : (0 <= Qfloor (x / 360))%Z).
    { change 0%Z with (Qfloor 0). apply Qfloor_resp_le, Hlo. }
    assert (H2' : (Qfloor (x / 360) < 1)%Z).
    { rewrite Zlt_Qlt. eapply Qle_lt_trans; [exact Hfl | exact Hhi]. }
    lia. }
  rewrite Hf. change (inject_Z 0) with 0. ring.
Qed.

(** The linear blend lies strictly between its end values. *)
Lemma interpolate_between (v1 v2 a1 a2 alt : Q) :
  strictly_between alt a1 a2 -> ~ v1 == v2 ->
  strictly_between (C.interpolate v1 v2 a1 a2 alt) v1 v2.
Proof.
  intros Halt Hv. unfold C.interpolate.
  assert (Hne : ~ a1 == a2) by (destruct Halt; lra).
  apply NumFacts.eqb_neq in Hne as Hb. rewrite Hb.
  set (f := (alt - a1) / (a2 - a1)).
  assert (Hf : 0 < f /\ f < 1).
  { unfold f. destruct Halt as [[H1 H2]|[H1 H2]].
    - split.
      + apply Qlt_shift_div_l; lra.
      + apply Qlt_shift_div_r; lra.
    - assert (E : (alt - a1) / (a2 - a1) == (a1 - alt) / (a1 - a2)).
      { field. lra. }
      rewrite E. split.
      + apply Qlt_shift_div_l; lra.
      + apply Qlt_shift_div_r; lra. }
  assert (E : v1 + (alt - a1) * (v2 - v1) / (a2 - a1) == v1 + f * (v2 - v1)).
  { unfold f. field. lra. }
  unfold strictly_between. rewrite E.
  destruct Hf as [Hf0 Hf1].
  destruct (Qlt_le_dec v1 v2) as [Hlt|Hge].
  - left. split; nra.
  - right. assert (v2 < v1) by (apply Qle_lteq in Hge; destruct Hge as [?|Heq];
      [assumption | exfalso; apply Hv; symmetry; exact Heq]).
    split; nra.
Qed.

Lemma c_lin_no_overshoot : no_overshoot c_lin.
Proof.
  intros v1 v2 a1 a2 alt e _ Halt Hv. simpl.
  split; [|intros _ _ _]; apply interpolate_between; assumption.
Qed.

(** C1, refuted as stated: in the scenario (layers (0 m, 0 deg, 5 kt) and
    (1000 m, 90 deg, 15 kt), aircraft at 500 m) the exponent handed to the
    heading blend is 2*15/(15+5) = 3/2, not 2*5/(5+15) = 1/2. [c_probe]'s
    heading blend returns the exponent it receives, so the exponent shows
    as the emitted heading. *)
Lemma setWinds_scenario_exponent :
  exists layers' w',
    setWinds (c := c_probe) two_layers 1
      (init_weather c_probe tt default_conf 500 (forecast_only two_layers))
    = Ok (layers', w')
    /\ Forall (fun d => d_hdg d == 3 # 2) (winds w')
    /\ ~ 3 # 2 == 2 * 5 / (5 + 15).
Proof.
  do 2 eexists. split; [reflexivity|]. split.
  - vm_compute. repeat constructor.
  - discriminate.
Qed.

(** C1, amended. First part: when the bracket has a bottom layer [b] and
    a top layer [t] at different altitudes, whose transitioned speeds are
    not negative and not both 0, the resolved heading is the exponential-
    cosine heading blend taken from the top layer to the bottom layer at
    the exponent 2*speed_top/(speed_top+speed_bottom): [setWinds] passes
    the top layer as the first layer. Second part: in the scenario the
    call returns, the exponent is 2*15/(15+5) = 3/2, the emitted heading
    is the heading blend of 90 and 0 degrees (plus the variation 0, modulo
    360) and the emitted speed, the bottom index being 0, the exponential-
    cosine blend of 15 and 5 kt at that exponent; so the heading lies
    strictly between 0 and 90 degrees and the speed strictly between 5 and
    15 kt for every blend that does not overshoot. *)
Theorem setWinds_heading_exponent :
  (forall (c : CLib) (lw : list TLayer) (b t : nat) (elapsed : Q)
          (h : Store) (w : Weather c) (wt wb twind bwind : TLayer)
          (refs1 refs2 : gmap string Q) (h1 h2 : Store),
     b <> t ->
     lw !! t = Some wt ->
     lw !! b = Some wb ->
     transWindLayer (conf w) wt (Str.of_nat t) elapsed (transrefs w) h
     = (twind, refs1, h1) ->
     transWindLayer (conf w) wb (Str.of_nat b) elapsed refs1 h1
     = (bwind, refs2, h2) ->
     ~ t_alt wt == t_alt wb ->
     0 <= t_speed twind ->
     0 <= t_speed bwind ->
     ~ (t_speed twind == 0 /\ t_speed bwind == 0) ->
     exists rwind h3 w',
       resolveWind lw (Some b) t elapsed h w = Ok (rwind, h3, w')
       /\ t_hdg rwind
          = expoCosineInterpolateHeading c (t_hdg twind) (t_hdg bwind)
              (t_alt wt) (t_alt wb) (alt w)
              (Some (2 * t_speed twind / (t_speed twind + t_speed bwind))))
  /\
  (forall (c : CLib) (rr : RandRefs c) (elapsed : Q),
     let e := 2 * 15 / (15 + 5) in
     let hdg := expoCosineInterpolateHeading c 90 0 1000 0 500 (Some e) in
     let speed := expoCosineInterpolate c 15 5 1000 0 500 (Some e) in
     exists layers' w',
       setWinds two_layers elapsed
         (init_weather c rr default_conf 500 (forecast_only two_layers))
       = Ok (layers', w')
       /\ e == 3 # 2
       /\ d_hdg <$> winds w' = replicate 3 (Num.pymod (hdg + 0) 360)
       /\ d_speed <$> winds w' = replicate 3 speed
       /\ (no_overshoot c ->
           (0 < hdg /\ hdg < 90) /\ Num.pymod (hdg + 0) 360 == hdg
           /\ (5 < speed /\ speed < 15))).
Proof.
  split.
  - intros c lw b t elapsed h w wt wb twind bwind refs1 refs2 h1 h2
      Hbt Ht Hb Htw Hbw Halt Hs1 Hs2 Hnz.
    destruct (windExpo_nonneg _ _ Hs1 Hs2) as (e & He & _ & Hne).
    destruct (Hne Hnz) as [_ ->].
    assert (Ha1 : t_alt twind = t_alt wt).
    { pose proof (transWindLayer_alt (conf w) wt (Str.of_nat t) elapsed
                    (transrefs w) h) as Hx.
      rewrite Htw in Hx. exact Hx. }
    assert (Ha2 : t_alt bwind = t_alt wb).
    { pose proof (transWindLayer_alt (conf w) wb (Str.of_nat b) elapsed
                    refs1 h1) as Hx.
      rewrite Hbw in Hx. exact Hx. }
    assert (Halt' : ~ t_alt twind == t_alt bwind) by (rewrite Ha1, Ha2; exact Halt).
    destruct (interpolateWindLayer_blend c twind bwind (alt w) b h2 _ Halt' He)
      as (r & h3 & Hi & _ & Hh & _).
    exists r, h3, (set_transrefs refs2 w).
    unfold resolveWind, index. rewrite Ht. simpl. rewrite Htw.
    rewrite bool_decide_eq_true_2 by exact Hbt.
    rewrite Hb. simpl. rewrite Hbw, Hi. simpl.
    split; [reflexivity|]. rewrite Hh, Ha1, Ha2. reflexivity.
  - intros c rr elapsed e hdg speed.
    do 2 eexists. split; [reflexivity|].
    split; [reflexivity|]. split; [reflexivity|]. split; [reflexivity|].
    intros Hno.
    assert (Hin : strictly_between 500 1000 0).
    { right. split; reflexivity. }
    assert (He : 0 < e) by reflexivity.
    destruct (Hno 15 5 1000 0 500 e He Hin) as [Hsp _]; [discriminate|].
    destruct (Hno 90 0 1000 0 500 e He Hin) as [_ Hhd]; [discriminate|].
    fold speed in Hsp.
    assert (Hh : strictly_between hdg 90 0).
    { apply Hhd; [split; discriminate || reflexivity
                 | split; discriminate || reflexivity | reflexivity]. }
    assert (Hh' : 0 < hdg /\ hdg < 90).
    { destruct Hh as [[H1 H2]|[H1 H2]]; [lra | split; assumption]. }
    split; [exact Hh'|]. split.
    + rewrite pymod_small by lra. lra.
    + destruct Hsp as [[H1 H2]|[H1 H2]]; [lra | split; assumption].
Qed.

Lemma setWinds_heading_exponent_witness :
  let w := init_weather c_lin tt default_conf 500 (forecast_only two_layers) in
  let lw := copy_list two_layers in
  let h := mkStore two_layers ∅ in
  let wt := mkTLayer 1000 90 15 (XRef (LArg 1)) in
  let wb := mkTLayer 0 0 5 (XRef (LArg 0)) in
  let r1 := transWindLayer (conf w) wt "1" 1 (transrefs w) h in
  let r2 := transWindLayer (conf w) wb "0" 1 r1.1.2 r1.2 in
  (0%nat <> 1%nat /\ lw !! 1%nat = Some wt /\ lw !! 0%nat = Some wb
   /\ ~ t_alt wt == t_alt wb
   /\ 0 <= t_speed r1.1.1 /\ 0 <= t_speed r2.1.1
   /\ ~ (t_speed r1.1.1 == 0 /\ t_speed r2.1.1 == 0))
  /\
  (exists rwind h3 w',
     resolveWind lw (Some 0%nat) 1 1 h w = Ok (rwind, h3, w')
     /\ t_hdg rwind
        = expoCosineInterpolateHeading c_lin (t_hdg r1.1.1) (t_hdg r2.1.1)
            (t_alt wt) (t_alt wb) (alt w)
            (Some (2 * t_speed r1.1.1 / (t_speed r1.1.1 + t_speed r2.1.1))))
  /\
  no_overshoot c_lin
  /\
  (let e := 2 * 15 / (15 + 5) in
   let hdg := expoCosineInterpolateHeading c_lin 90 0 1000 0 500 (Some e) in
   let speed := expoCosineInterpolate c_lin 15 5 1000 0 500 (Some e) in
   exists layers' w',
     setWinds two_layers 1 w = Ok (layers', w')
     /\ e == 3 # 2
     /\ d_hdg <$> winds w' = replicate 3 (Num.pymod (hdg + 0) 360)
     /\ d_speed <$> winds w' = replicate 3 speed
     /\ (no_overshoot c_lin ->
         (0 < hdg /\ hdg < 90) /\ Num.pymod (hdg + 0) 360 == hdg
         /\ (5 < speed /\ speed < 15))).
Proof.
  intros w lw h wt wb r1 r2.
  assert (H1 : 0%nat <> 1%nat) by discriminate.
  assert (H2 : lw !! 1%nat = Some wt) by reflexivity.
  assert (H3 : lw !! 0%nat = Some wb) by reflexivity.
  assert (H4 : ~ t_alt wt == t_alt wb) by discriminate.
  assert (H5 : 0 <= t_speed r1.1.1) by discriminate.
  assert (H6 : 0 <= t_speed r2.1.1) by discriminate.
  assert (H7 : ~ (t_speed r1.1.1 == 0 /\ t_speed r2.1.1 == 0)).
  { intros [H _]. discriminate H. }
  split; [repeat split; assumption|].
  split.
  - apply (proj1 setWinds_heading_exponent c_lin lw 0%nat 1%nat 1 h w wt wb
             r1.1.1 r2.1.1 r1.1.2 r2.1.2 r1.2 r2.2);
      try assumption; reflexivity.
  - split; [exact c_lin_no_overshoot|].
    exact (proj2 setWinds_heading_exponent c_lin tt 1).
Defined.

(** ** Transition references *)

Lemma transition_refs (value : Q) (key : string) (elapsed rate : Q)
    (refs : gmap string Q) :
  exists v, (C.transition value key elapsed rate refs).2 = <[key := v]> refs.
Proof. unfold C.transition. destruct (refs !! key); eexists; reflexivity. Qed.

(** On an item, [c.transition] keeps the references and the number of
    [c.transition] on the number the item stands for. *)
Lemma transition_item_num (value : xval) (key : string) (elapsed rate : Q)
    (refs : gmap string Q) :
  (C.transition_item value key elapsed rate refs).2
  = (C.transition (xnum value) key elapsed rate refs).2
  /\ xnum (C.transition_item value key elapsed rate refs).1
     = (C.transition (xnum value) key elapsed rate refs).1.
Proof.
  unfold C.transition_item, C.transition.
  destruct (refs !! key) as [cur|]; [|split; reflexivity].
  cbv zeta. destruct (Num.leb _ _); split; reflexivity.
Qed.

Lemma transition_item_refs (value : xval) (key : string) (elapsed rate : Q)
    (refs : gmap string Q) :
  exists v,
    (C.transition_item value key elapsed rate refs).2 = <[key := v]> refs.
Proof.
  rewrite (proj1 (transition_item_num value key elapsed rate refs)).
  apply transition_refs.
Qed.

Lemma transitionHdg_refs (value : Q) (key : string) (elapsed rate : Q)
    (refs : gmap string Q) :
  exists v, (C.transitionHdg value key elapsed rate refs).2 = <[key := v]> refs.
Proof. unfold C.transitionHdg. destruct (refs !! key); eexists; reflexivity. Qed.

Lemma extends_for_refl (id : string) (refs : gmap string Q) :
  extends_for id refs refs.
Proof. split; auto. Qed.

Lemma extends_for_trans (id : string) (r1 r2 r3 : gmap string Q) :
  extends_for id r1 r2 -> extends_for id r2 r3 -> extends_for id r1 r3.
Proof.
  intros [H1 M1] [H2 M2]. split.
  - intros k Hk. rewrite H2, H1; auto.
  - auto.
Qed.

Lemma extends_for_insert (id var : string) (v : Q) (refs : gmap string Q) :
  Str.dashless id = true ->
  extends_for id refs (<[id +:+ "-" +:+ var := v]> refs).
Proof.
  intros Hid. split.
  - intros k Hk. apply lookup_insert_ne. intros <-.
    apply Hk, StrFacts.before_dash_app, Hid.
  - intros k Hs. rewrite lookup_insert. case_decide; [eauto | exact Hs].
Qed.

Lemma trans_extra_extends (id : string) (elapsed rate : Q)
    (acc : extras * gmap string Q) (var : string) :
  Str.dashless id = true ->
  extends_for id acc.2 (trans_extra id elapsed rate acc var).2.
Proof.
  intros Hid. unfold trans_extra. destruct (acc.1 !! var) as [v|].
  - destruct (transition_item_refs v (id +:+ "-" +:+ var) elapsed rate acc.2)
      as [v' Hv].
    destruct (C.transition_item _ _ _ _ _) as [x refs]. simpl in *.
    subst refs. apply extends_for_insert, Hid.
  - apply extends_for_refl.
Qed.

Lemma transWindLayer_extends (cf : Conf) (wlayer : TLayer) (id : string)
    (elapsed : Q) (refs : gmap string Q) (h : Store) :
  Str.dashless id = true ->
  extends_for id refs (transWindLayer cf wlayer id elapsed refs h).1.2.
Proof.
  intros Hid. unfold transWindLayer.
  destruct (transitionHdg_refs (t_hdg wlayer) (id +:+ "-hdg") elapsed
              (windHdgTransSpeed cf) refs) as [v1 H1].
  destruct (C.transitionHdg _ _ _ _ _) as [hdg refs1]. simpl in H1.
  destruct (transition_refs (t_speed wlayer) (id +:+ "-speed") elapsed
              (windHdgTransSpeed cf) refs1) as [v2 H2].
  destruct (C.transition _ _ _ _ _) as [speed refs2]. simpl in H2.
  assert (E12 : extends_for id refs refs2).
  { subst refs1 refs2. eapply extends_for_trans.
    - apply (extends_for_insert id "hdg" v1 refs Hid).
    - apply (extends_for_insert id "speed" v2 _ Hid). }
  set (e0 := load h (t_extra wlayer)).
  assert (E3 : forall vars (acc : extras * gmap string Q),
            extends_for id acc.2
              (foldl (trans_extra id elapsed (windGustTransSpeed cf)) acc vars).2).
  { induction vars as [|var vars IH]; intros acc; simpl.
    - apply extends_for_refl.
    - eapply extends_for_trans; [|apply IH].
      apply trans_extra_extends, Hid. }
  specialize (E3 ["gust"; "rh"; "dew"] (e0, refs2)).
  destruct (foldl _ _ _) as [extra refs3]. simpl in *.
  eapply extends_for_trans; eassumption.
Qed.

(** The exclusion list keeps the references of the two bracketing layers
    and drops all others. *)
Lemma transitionClearReferences_lookup (exclude : list string)
    (refs : gmap string Q) (k : string) :
  C.transitionClearReferences exclude refs !! k
  = if decide (Str.before_dash k ∈ exclude) then refs !! k else None.
Proof.
  unfold C.transitionClearReferences. rewrite map_lookup_filter.
  destruct (refs !! k) as [v|]; simpl.
  - case_decide; [rewrite option_guard_True | rewrite option_guard_False];
      auto.
  - case_decide; reflexivity.
Qed.

Lemma layer_key_excluded (b : option nat) (t i : nat) (var : string) :
  Some i <> b -> i <> t ->
  Str.before_dash (Str.of_nat i +:+ "-" +:+ var)
    ∉ [Str.of_index b; Str.of_nat t].
Proof.
  intros Hb Ht. rewrite StrFacts.before_dash_app by apply StrFacts.dashless_of_nat.
  intros Hin. apply elem_of_cons in Hin as [Hin|Hin].
  - apply Hb. apply (StrFacts.of_index_inj (Some i) b). exact Hin.
  - apply list_elem_of_singleton in Hin. apply Ht, StrFacts.of_nat_inj, Hin.
Qed.

Lemma appendMetarLayer_state (c : CLib) (layers : list WindLayer)
    (elapsed : Q) (w w1 : Weather c) (lw : list TLayer) (h : Store) :
  appendMetarLayer layers elapsed w = Ok (lw, h, w1) ->
  alt w1 = alt w /\ windAlts w1 = windAlts w /\ conf w1 = conf w.
Proof.
  unfold appendMetarLayer. destruct (metar_with_wind (weatherData w))
    as [[[m [[hdg speed] gust]]|]|]; simpl; [| |discriminate].
  - destruct (m_elevation m); simpl; [|discriminate].
    destruct (m_variable_wind m) as [[h1 h2]|].
    + destruct (randPattern c _ _ _ _ _) as [v rr].
      destruct (C.transition _ _ _ _ _) as [a refs].
      intros [= <- <- <-]. auto.
    + destruct (C.transition _ _ _ _ _) as [a refs].
      intros [= <- <- <-]. auto.
  - intros [= <- <- <-]. auto.
Qed.

(** The transitions of a call touch only the references of the two
    bracketing layers and leave [windAlts] alone. *)
Lemma resolveWind_state (c : CLib) (lw : list TLayer) (b : option nat)
    (t : nat) (elapsed : Q) (h h' : Store) (w w' : Weather c) (r : TLayer) :
  resolveWind lw b t elapsed h w = Ok (r, h', w') ->
  windAlts w' = windAlts w
  /\ (forall k, Str.before_dash k ∉ [Str.of_index b; Str.of_nat t] ->
        transrefs w' !! k = transrefs w !! k)
  /\ (forall k, is_Some (transrefs w !! k) -> is_Some (transrefs w' !! k)).
Proof.
  unfold resolveWind. destruct (index lw t) as [wt|]; simpl; [|discriminate].
  pose proof (transWindLayer_extends (conf w) wt (Str.of_nat t) elapsed
                (transrefs w) h (StrFacts.dashless_of_nat t)) as [Ft Mt].
  destruct (transWindLayer (conf w) wt _ _ _ _) as [[twind refs1] h1].
  simpl in Ft, Mt.
  assert (Hone : forall r0 h0 w0,
            Ok (twind, h1, set_transrefs refs1 w) = Ok (r0, h0, w0) ->
            windAlts w0 = windAlts w
            /\ (forall k, Str.before_dash k ∉ [Str.of_index b; Str.of_nat t] ->
                  transrefs w0 !! k = transrefs w !! k)
            /\ (forall k, is_Some (transrefs w !! k) ->
                  is_Some (transrefs w0 !! k))).
  { intros r0 h0 w0 [= <- <- <-]. simpl. split; [reflexivity|].
    split; [|exact Mt]. intros k Hk. apply Ft. intros Heq. apply Hk.
    rewrite Heq. apply elem_of_cons. right. apply elem_of_cons. now left. }
  destruct b as [n|]; [|apply Hone].
  case_bool_decide; [|apply Hone].
  destruct (index lw n) as [wb|]; simpl; [|discriminate].
  pose proof (transWindLayer_extends (conf w) wb (Str.of_nat n) elapsed
                refs1 h1 (StrFacts.dashless_of_nat n)) as [Fb Mb].
  destruct (transWindLayer (conf w) wb _ _ _ _) as [[bwind refs2] h2].
  simpl in Fb, Mb.
  destruct (interpolateWindLayer c twind bwind (alt w) n h2)
    as [[rw h3]|]; simpl; [|discriminate].
  intros [= <- <- <-]. simpl. split; [reflexivity|]. split.
  - intros k Hk. rewrite Fb, Ft; [reflexivity| |].
    + intros Heq. apply Hk. rewrite Heq. apply elem_of_cons. right.
      apply elem_of_cons. now left.
    + intros Heq. apply Hk. rewrite Heq. apply elem_of_cons. now left.
  - auto.
Qed.

(** A call that returns has gone through the reset and the transitions,
    and nothing after them changes the references or [windAlts]. *)
Lemma setWinds_steps (c : CLib) (layers layers' : list WindLayer)
    (elapsed : Q) (w w1 w' : Weather c) (lw : list TLayer) (h : Store)
    (b : option nat) (t : nat) :
  appendMetarLayer layers elapsed w = Ok (lw, h, w1) ->
  lw <> [] ->
  searchLayers lw (alt w) = (b, t) ->
  setWinds layers elapsed w = Ok (layers', w') ->
  exists r h3 w3,
    resolveWind lw b t elapsed h (resetTransitions b t w1) = Ok (r, h3, w3)
    /\ transrefs w' = transrefs w3 /\ windAlts w' = windAlts w3.
Proof.
  intros Ha Hne Hs. unfold setWinds. rewrite Ha. simpl.
  destruct (appendMetarLayer_state c layers elapsed w w1 lw h Ha) as (Halt & _).
  rewrite Halt, Hs.
  rewrite bool_decide_eq_true_2 by (destruct lw; [congruence | simpl; lia]).
  destruct (resolveWind lw b t elapsed h (resetTransitions b t w1))
    as [[[r h3] w3]|]; simpl; [|discriminate].
  destruct (setWindLayer 0 r h3 (winds w3)) as [ws0|]; simpl; [|discriminate].
  destruct (setWindLayer 1 r h3 ws0) as [ws1|]; simpl; [|discriminate].
  destruct (setWindLayer 2 r h3 ws1) as [ws2|]; simpl; [|discriminate].
  destruct (upd_dref 0 _ ws2) as [ws3|]; simpl; [|discriminate].
  destruct (upd_dref 1 _ ws3) as [ws4|]; simpl; [|discriminate].
  destruct (upd_dref 2 _ ws4) as [ws5|]; simpl; [|discriminate].
  intros [= <- <-]. exists r, h3, w3. auto.
Qed.

(** C2, refuted as stated: two consecutive calls on the two layers of the
    scenario, the first at 500 m (bracket: bottom 0, top 1), the second
    at 2000 m, above both layers (bracket: bottom 1, top 1). The pair has
    changed, the top index has not, and the references of layer 0 are
    still there after the second call. *)
Lemma setWinds_bottom_change_keeps_refs :
  let w := init_weather c_lin tt default_conf 500 (forecast_only two_layers) in
  exists l1 w1 l2 w2,
    setWinds two_layers 1 w = Ok (l1, w1)
    /\ setWinds l1 1 (set_alt 2000 w1) = Ok (l2, w2)
    /\ searchLayers (copy_list two_layers) 500 = (Some 0%nat, 1%nat)
    /\ searchLayers (copy_list l1) 2000 = (Some 1%nat, 1%nat)
    /\ transrefs w2 !! "0-hdg" = Some 0
    /\ transrefs w2 !! "0-speed" = Some 5.
Proof.
  intros w.
  assert (H : match setWinds two_layers 1 w with
              | Ok (l1, w1) =>
                  match setWinds l1 1 (set_alt 2000 w1) with
                  | Ok (l2, w2) =>
                      searchLayers (copy_list l1) 2000 = (Some 1%nat, 1%nat)
                      /\ transrefs w2 !! "0-hdg" = Some 0
                      /\ transrefs w2 !! "0-speed" = Some 5
                  | Raise _ => False
                  end
              | Raise _ => False
              end).
  { vm_compute. repeat split. }
  destruct (setWinds two_layers 1 w) as [[l1 w1]|] eqn:E1; [|contradiction].
  destruct (setWinds l1 1 (set_alt 2000 w1)) as [[l2 w2]|] eqn:E2;
    [|contradiction].
  exists l1, w1, l2, w2. split; [reflexivity|]. split; [exact E2|].
  split; [reflexivity|]. exact H.
Qed.

(** C2, amended: [setWinds] remembers the top index of the previous call
    only ([windAlts]). If the top index of the current bracket differs
    from it, the references the transitions of this call start from hold
    nothing for any layer index other than the new bottom and top (whose
    references are kept), and so it is after the call; if the top index is
    the same, no reference is cleared, whether the bottom index has
    changed or not. After the call [windAlts] is the current top index. *)
Theorem setWinds_reset_rule (c : CLib) (layers : list WindLayer)
    (elapsed : Q) (w w1 : Weather c) (lw : list TLayer) (h : Store)
    (b : option nat) (t : nat) :
  appendMetarLayer layers elapsed w = Ok (lw, h, w1) ->
  lw <> [] ->
  searchLayers lw (alt w) = (b, t) ->
  let start := transrefs (resetTransitions b t w1) in
  (windAlts w <> Z.of_nat t ->
     (forall i var, Some i <> b -> i <> t ->
        start !! (Str.of_nat i +:+ "-" +:+ var) = None)
     /\ (forall k, Str.before_dash k ∈ [Str.of_index b; Str.of_nat t] ->
          start !! k = transrefs w1 !! k))
  /\ (windAlts w = Z.of_nat t -> start = transrefs w1)
  /\ (forall layers' w',
        setWinds layers elapsed w = Ok (layers', w') ->
        windAlts w' = Z.of_nat t
        /\ (windAlts w <> Z.of_nat t ->
            forall i var, Some i <> b -> i <> t ->
              transrefs w' !! (Str.of_nat i +:+ "-" +:+ var) = None)
        /\ (windAlts w = Z.of_nat t ->
            forall k, is_Some (transrefs w1 !! k) ->
              is_Some (transrefs w' !! k))).
Proof.
  intros Ha Hne Hs start.
  destruct (appendMetarLayer_state c layers elapsed w w1 lw h Ha)
    as (_ & Hwa & _).
  assert (Hchanged : windAlts w <> Z.of_nat t ->
            start = C.transitionClearReferences
                      [Str.of_index b; Str.of_nat t] (transrefs w1)).
  { intros Hd. subst start. unfold resetTransitions. rewrite Hwa.
    rewrite bool_decide_eq_true_2 by exact Hd. reflexivity. }
  assert (Hsame : windAlts w = Z.of_nat t -> start = transrefs w1).
  { intros Hd. subst start. unfold resetTransitions. rewrite Hwa.
    rewrite bool_decide_eq_false_2 by (intros Hx; apply Hx, Hd). reflexivity. }
  assert (Hcleared : windAlts w <> Z.of_nat t ->
            forall i var, Some i <> b -> i <> t ->
              start !! (Str.of_nat i +:+ "-" +:+ var) = None).
  { intros Hd i var Hb Ht. rewrite (Hchanged Hd).
    rewrite transitionClearReferences_lookup.
    rewrite decide_False by (apply layer_key_excluded; assumption).
    reflexivity. }
  split; [|split].
  - intros Hd. split; [exact (Hcleared Hd)|].
    intros k Hk. rewrite (Hchanged Hd), transitionClearReferences_lookup.
    rewrite decide_True by exact Hk. reflexivity.
  - exact Hsame.
  - intros layers' w' Hcall.
    destruct (setWinds_steps c layers layers' elapsed w w1 w' lw h b t
                Ha Hne Hs Hcall) as (r & h3 & w3 & Hr & Hrefs & Hw).
    destruct (resolveWind_state c lw b t elapsed h h3 _ w3 r Hr)
      as (Hw3 & Hother & Hmono).
    split; [|split].
    + rewrite Hw, Hw3. unfold resetTransitions. rewrite Hwa.
      case_bool_decide as Hd; [reflexivity|].
      simpl. rewrite Hwa. destruct (decide (windAlts w = Z.of_nat t)); tauto.
    + intros Hd i var Hb Ht. rewrite Hrefs, Hother.
      * apply (Hcleared Hd); assumption.
      * apply layer_key_excluded; assumption.
    + intros Hd k Hk. rewrite Hrefs. apply Hmono.
      fold start. rewrite (Hsame Hd). exact Hk.
Qed.

Lemma setWinds_reset_rule_witness :
  let w := init_weather c_lin tt default_conf 500 (forecast_only two_layers) in
  let lw := copy_list two_layers in
  let h := mkStore two_layers ∅ in
  let b := Some 0%nat in
  let t := 1%nat in
  let start := transrefs (resetTransitions b t w) in
  (appendMetarLayer two_layers 1 w = Ok (lw, h, w) /\ lw <> []
   /\ searchLayers lw (alt w) = (b, t))
  /\ (windAlts w <> Z.of_nat t ->
      (forall i var, Some i <> b -> i <> t ->
         start !! (Str.of_nat i +:+ "-" +:+ var) = None)
      /\ (forall k, Str.before_dash k ∈ [Str.of_index b; Str.of_nat t] ->
           start !! k = transrefs w !! k))
  /\ (windAlts w = Z.of_nat t -> start = transrefs w)
  /\ (forall layers' w',
        setWinds two_layers 1 w = Ok (layers', w') ->
        windAlts w' = Z.of_nat t
        /\ (windAlts w <> Z.of_nat t ->
            forall i var, Some i <> b -> i <> t ->
              transrefs w' !! (Str.of_nat i +:+ "-" +:+ var) = None)
        /\ (windAlts w = Z.of_nat t ->
            forall k, is_Some (transrefs w !! k) ->
              is_Some (transrefs w' !! k))).
Proof.
  intros w lw h b t start.
  assert (H1 : appendMetarLayer two_layers 1 w = Ok (lw, h, w)) by reflexivity.
  assert (H2 : lw <> []) by discriminate.
  assert (H3 : searchLayers lw (alt w) = (b, t)) by reflexivity.
  split; [repeat split; assumption|].
  exact (setWinds_reset_rule c_lin two_layers 1 w w lw h b t H1 H2 H3).
Defined.

(** * Further properties of the code *)

(** ** The receive loop as a whole *)

(** X1: whatever follows the termination marker ['!bye'] in the stream of
    payloads is never looked at: the loop leaves the state it had reached
    just before the marker. *)
Theorem weatherClient_stops_at_bye (c : CLib) (before after : list Payload)
    (w : Weather c) :
  weatherClient (before ++ PStr "!bye" :: after) w = weatherClient before w.
Proof.
  revert w. induction before as [|p before IH]; intros w; simpl.
  - unfold weatherClient_step. simpl. rewrite orb_true_r. reflexivity.
  - destruct (weatherClient_step p w) as [w1|]; [apply IH | reflexivity].
Qed.

(** X2: while the [die] event is not set, a run of the loop over payloads
    none of which is ['!bye'] queues the payloads without [info] in the
    order of arrival behind what was queued, leaves the last payload with
    [info] as the current snapshot (the one before, if there is none) and
    raises the new-data flag if a snapshot arrived; the transition table
    and the simulator variables are not touched. *)
Theorem weatherClient_run (c : CLib) (received : list Payload)
    (w : Weather c) :
  die w = false ->
  Forall (fun p => is_bye p = false) received ->
  let w' := weatherClient received w in
  queryResponses w'
  = queryResponses w ++ List.filter (fun p => negb (has_info p)) received
  /\ weatherData w'
     = match last (List.filter has_info received) with
       | Some p => Some p
       | None => weatherData w
       end
  /\ newData w' = newData w || existsb has_info received
  /\ die w' = false
  /\ transrefs w' = transrefs w /\ winds w' = winds w
  /\ clouds w' = clouds w /\ windAlts w' = windAlts w.
Proof.
  intros Hdie Hall. revert w Hdie.
  induction Hall as [|p received Hp Hall IH]; intros w Hdie; simpl.
  - rewrite app_nil_r, orb_false_r. repeat split; auto.
  - unfold weatherClient_step. rewrite Hdie, Hp. simpl.
    destruct (has_info p) eqn:Hi; simpl.
    + specialize (IH (set_snapshot p w) Hdie). simpl in IH.
      destruct IH as (Hq & Hd & Hn & Hdie' & Hrest).
      split; [exact Hq|]. split; [|split; [|split; [exact Hdie'|exact Hrest]]].
      * rewrite Hd, last_cons.
        destruct (last (List.filter has_info received)); reflexivity.
      * rewrite Hn. destruct (newData w); reflexivity.
    + specialize (IH (set_queryResponses (queryResponses w ++ [p]) w) Hdie).
      simpl in IH. destruct IH as (Hq & Hd & Hn & Hdie' & Hrest).
      split; [rewrite Hq, <- app_assoc; reflexivity|].
      split; [exact Hd|]. split; [exact Hn|]. split; [exact Hdie'|exact Hrest].
Qed.

Lemma weatherClient_run_witness :
  let w := init_weather c_lin tt default_conf 0 None in
  let snapshot := PDict (mkSnapshot (Some (mkInfo 1 2 "na" "na")) None None None) in
  let answer := PDict (mkSnapshot None None None None) in
  let received := [answer; snapshot; answer] in
  let w' := weatherClient received w in
  (die w = false /\ Forall (fun p => is_bye p = false) received)
  /\ queryResponses w'
     = queryResponses w ++ List.filter (fun p => negb (has_info p)) received
  /\ weatherData w'
     = match last (List.filter has_info received) with
       | Some p => Some p
       | None => weatherData w
       end
  /\ newData w' = newData w || existsb has_info received
  /\ die w' = false
  /\ transrefs w' = transrefs w /\ winds w' = winds w
  /\ clouds w' = clouds w /\ windAlts w' = windAlts w.
Proof.
  intros w snapshot answer received w'.
  assert (H1 : die w = false) by reflexivity.
  assert (H2 : Forall (fun p => is_bye p = false) received).
  { repeat constructor. }
  split; [split; assumption|].
  exact (weatherClient_run c_lin received w H1 H2).
Defined.

(** ** The bracket search *)

(** The loop of lines 252-257 started at index [i]: it stops at the first
    altitude above [alt], or runs to the end. *)
Lemma search_from_spec (alts : list Q) (alt : Q) (i : nat)
    (blayer : option nat) (tlayer : nat) :
  (exists j a,
     alts !! j = Some a /\ alt < a
     /\ (forall k a', (k < j)%nat -> alts !! k = Some a' -> a' <= alt)
     /\ search_from alts alt i blayer tlayer
        = (match j with
           | 0%nat => blayer
           | S j' => Some (i + j')%nat
           end, (i + j)%nat))
  \/ ((forall k a', alts !! k = Some a' -> a' <= alt)
      /\ search_from alts alt i blayer tlayer
         = match length alts with
           | 0%nat => (blayer, tlayer)
           | S n => (Some (i + n)%nat, (i + n)%nat)
           end).
Proof.
  revert i blayer tlayer.
  induction alts as [|a alts IH]; intros i blayer tlayer; simpl.
  - right. split; [intros k a' Hk; discriminate | reflexivity].
  - destruct (Num.ltb alt a) eqn:Hlt.
    + left. exists 0%nat, a. split; [reflexivity|].
      split; [apply NumFacts.ltb_lt, Hlt|]. split; [intros k a' Hk; lia|].
      rewrite Nat.add_0_r. reflexivity.
    + apply NumFacts.ltb_ge in Hlt.
      destruct (IH (S i) (Some i) i) as [(j & a0 & Hj & Ha0 & Hbefore & Hres)|[Hall Hres]].
      * left. exists (S j), a0. split; [exact Hj|]. split; [exact Ha0|].
        split.
        { intros [|k] a' Hk Hl; simpl in Hl.
          - injection Hl as <-. exact Hlt.
          - apply (Hbefore k); [lia | exact Hl]. }
        rewrite Hres. destruct j as [|j']; (f_equal; [f_equal; lia | lia]).
      * right. split.
        { intros [|k] a' Hl; simpl in Hl.
          - injection Hl as <-. exact Hlt.
          - apply (Hall k), Hl. }
        rewrite Hres. destruct (length alts) as [|n]; (f_equal; [f_equal; lia | lia]).
Qed.

(** X3: for a list that is not empty, the bracket search returns a top
    index inside the list, the layers before the top index all lie at or
    below the aircraft, and the bottom index is [False] with top index 0
    (aircraft below the first layer), the index just before a top layer
    that lies above the aircraft, or the top index itself, which is then
    the last index, every layer lying at or below the aircraft. *)
Theorem searchLayers_bracket (lw : list TLayer) (alt : Q) :
  lw <> [] ->
  let b := (searchLayers lw alt).1 in
  let t := (searchLayers lw alt).2 in
  (t < length lw)%nat
  /\ (forall k l, (k < t)%nat -> lw !! k = Some l -> t_alt l <= alt)
  /\ ((exists l, lw !! t = Some l /\ alt < t_alt l
                 /\ b = match t with 0%nat => None | S t' => Some t' end)
      \/ (b = Some t /\ S t = length lw
          /\ forall k l, lw !! k = Some l -> t_alt l <= alt)).
Proof.
  intros Hne b t. subst b t. unfold searchLayers.
  assert (Hlk : forall k a', (t_alt <$> lw) !! k = Some a' ->
                  exists l, lw !! k = Some l /\ t_alt l = a').
  { intros k a' Hk. rewrite list_lookup_fmap in Hk.
    destruct (lw !! k) as [l|]; [|discriminate].
    injection Hk as <-. eauto. }
  destruct (search_from_spec (t_alt <$> lw) alt 0 None 0)
    as [(j & a & Hj & Ha & Hbefore & Hres)|[Hall Hres]]; rewrite Hres; simpl.
  - destruct (Hlk j a Hj) as (l & Hl & <-).
    split; [apply lookup_lt_Some in Hl; exact Hl|]. split.
    + intros k l' Hk Hl'. apply (Hbefore k); [exact Hk|].
      rewrite list_lookup_fmap, Hl'. reflexivity.
    + left. exists l. split; [exact Hl|]. split; [exact Ha|].
      destruct j; reflexivity.
  - rewrite length_fmap. destruct lw as [|l0 lw]; [congruence|]. simpl.
    split; [lia|]. split.
    + intros k l' Hk Hl'. apply (Hall k).
      rewrite list_lookup_fmap, Hl'. reflexivity.
    + right. split; [reflexivity|]. split; [reflexivity|].
      intros k l' Hl'. apply (Hall k).
      change (t_alt l0 :: (t_alt <$> lw)) with (t_alt <$> (l0 :: lw)).
      rewrite list_lookup_fmap, Hl'. reflexivity.
Qed.

Lemma searchLayers_bracket_witness :
  let lw := copy_list two_layers in
  let b := (searchLayers lw 500).1 in
  let t := (searchLayers lw 500).2 in
  lw <> []
  /\ (t < length lw)%nat
  /\ (forall k l, (k < t)%nat -> lw !! k = Some l -> t_alt l <= 500)
  /\ ((exists l, lw !! t = Some l /\ 500 < t_alt l
                 /\ b = match t with 0%nat => None | S t' => Some t' end)
      \/ (b = Some t /\ S t = length lw
          /\ forall k l, lw !! k = Some l -> t_alt l <= 500)).
Proof.
  intros lw b t.
  assert (H : lw <> []) by discriminate.
  split; [exact H|].
  exact (searchLayers_bracket lw 500 H).
Defined.

(** ** The [extra] dicts under the transitions *)

Lemma same_but_refl (keys : list string) (e : extras) : same_but keys e e.
Proof. intros key _. reflexivity. Qed.

Lemma same_but_trans (keys : list string) (e1 e2 e3 : extras) :
  same_but keys e1 e2 -> same_but keys e2 e3 -> same_but keys e1 e3.
Proof. intros H1 H2 key Hk. rewrite H2, H1; auto. Qed.

Lemma same_but_weaken (keys keys' : list string) (e e' : extras) :
  (forall k, k ∈ keys -> k ∈ keys') -> same_but keys e e' -> same_but keys' e e'.
Proof. intros Hsub H key Hk. apply H. intros Hin. apply Hk, Hsub, Hin. Qed.

Lemma same_but_insert (keys : list string) (key : string) (v : xval)
    (e : extras) :
  key ∈ keys -> same_but keys e (<[key := v]> e).
Proof.
  intros Hin k Hk. apply lookup_insert_ne. intros <-. apply Hk, Hin.
Qed.

(** The loop over ['gust', 'rh', 'dew'] assigns to keys that are there:
    it adds none, removes none, and leaves the other items alone. *)
Lemma trans_extras_frame (id : string) (elapsed rate : Q) (vars : list string)
    (acc : extras * gmap string Q) :
  let r := foldl (trans_extra id elapsed rate) acc vars in
  dom r.1 = dom acc.1 /\ same_but vars acc.1 r.1.
Proof.
  revert acc. induction vars as [|var vars IH]; intros acc; simpl.
  - split; [reflexivity | apply same_but_refl].
  - destruct (IH (trans_extra id elapsed rate acc var)) as [Hd Hs].
    assert (Hstep : dom (trans_extra id elapsed rate acc var).1 = dom acc.1
                    /\ same_but [var] acc.1 (trans_extra id elapsed rate acc var).1).
    { unfold trans_extra. destruct (acc.1 !! var) as [v|] eqn:Hv.
      - destruct (C.transition_item _ _ _ _ _) as [v' refs]. simpl. split.
        + apply dom_insert_lookup_L. eauto.
        + apply same_but_insert. apply elem_of_cons. now left.
      - split; [reflexivity | apply same_but_refl]. }
    destruct Hstep as [Hd1 Hs1]. split.
    + rewrite Hd, Hd1. reflexivity.
    + eapply same_but_trans.
      * eapply same_but_weaken; [|exact Hs1].
        intros k Hk. apply list_elem_of_singleton in Hk as ->.
        apply elem_of_cons. now left.
      * eapply same_but_weaken; [|exact Hs].
        intros k Hk. apply elem_of_cons. now right.
Qed.

(** [transWindLayer] returns the layer's altitude and reference, and puts
    back into the layer's dict a dict with the same keys that differs at
    most at [gust], [rh], [dew] and [gust_hdg]. *)
Lemma transWindLayer_store (cf : Conf) (wlayer : TLayer) (id : string)
    (elapsed : Q) (refs : gmap string Q) (h : Store) :
  let r := transWindLayer cf wlayer id elapsed refs h in
  exists e',
    r.2 = store (t_extra wlayer) e' h
    /\ dom e' = dom (load h (t_extra wlayer))
    /\ same_but transitioned_keys (load h (t_extra wlayer)) e'
    /\ t_alt r.1.1 = t_alt wlayer /\ t_extra r.1.1 = t_extra wlayer
    /\ t_hdg r.1.1
       = (C.transitionHdg (t_hdg wlayer) (id +:+ "-hdg") elapsed
            (windHdgTransSpeed cf) refs).1
    /\ t_speed r.1.1
       = (C.transition (t_speed wlayer) (id +:+ "-speed") elapsed
            (windHdgTransSpeed cf)
            (C.transitionHdg (t_hdg wlayer) (id +:+ "-hdg") elapsed
               (windHdgTransSpeed cf) refs).2).1.
Proof.
  unfold transWindLayer.
  destruct (C.transitionHdg _ _ _ _ _) as [hdg refs1].
  destruct (C.transition _ _ _ _ _) as [speed refs2].
  pose proof (trans_extras_frame id elapsed (windGustTransSpeed cf)
                ["gust"; "rh"; "dew"] (load h (t_extra wlayer), refs2))
    as [Hd Hs].
  destruct (foldl _ _ _) as [extra refs3]. cbn [fst snd] in Hd, Hs |- *.
  assert (Hs4 : same_but transitioned_keys (load h (t_extra wlayer)) extra).
  { eapply same_but_weaken; [|exact Hs]. intros k Hk.
    unfold transitioned_keys. rewrite !elem_of_cons, elem_of_nil in Hk.
    rewrite !elem_of_cons. tauto. }
  destruct (extra !! "gust_hdg") as [g|] eqn:Hg; cbn [fst snd].
  - eexists. split; [reflexivity|]. split; [|split; [|repeat split]].
    + rewrite dom_insert_lookup_L by eauto. exact Hd.
    + eapply same_but_trans; [exact Hs4|]. apply same_but_insert.
      unfold transitioned_keys. rewrite !elem_of_cons. tauto.
  - eexists. split; [reflexivity|]. split; [exact Hd|].
    split; [exact Hs4|]. repeat split.
Qed.

(** Reading a dict back after an assignment through the same reference:
    the dict assigned, or, for a reference into nothing, what was read
    before. *)
Lemma load_store (x : xref) (e : extras) (h : Store) :
  load (store x e h) x = e \/ load (store x e h) x = load h x.
Proof.
  destruct x as [[i|]|e0]; simpl.
  - rewrite list_lookup_alter_eq.
    destruct (st_arg h !! i) as [l|]; simpl; [left | right]; reflexivity.
  - left. reflexivity.
  - right. reflexivity.
Qed.

Lemma load_store_other (x : xref) (r' : lref) (e : extras) (h : Store) :
  x <> XRef r' -> load (store x e h) (XRef r') = load h (XRef r').
Proof.
  intros Hne. destruct x as [[i|]|e0], r' as [j|]; simpl; try reflexivity.
  - rewrite list_lookup_alter_ne by congruence. reflexivity.
  - congruence.
Qed.

(** An assignment to a dict keeps the caller's layers, if it keeps the
    dict it replaces. *)
Lemma store_kept (x : xref) (e : extras) (h : Store) :
  same_but ("variation" :: transitioned_keys) (load h x) e ->
  Forall2 layer_kept (st_arg h) (st_arg (store x e h)).
Proof.
  assert (Hrefl : Forall2 layer_kept (st_arg h) (st_arg h)).
  { apply Forall_Forall2_diag, Forall_forall. intros l _.
    repeat split. }
  intros Hs. destruct x as [[i|]|e0]; simpl; try exact Hrefl.
  apply Forall2_alter_r; [exact Hrefl|].
  intros l l' Hl Hl' _. rewrite Hl in Hl'. injection Hl' as <-.
  simpl in Hs. rewrite Hl in Hs. simpl in Hs. repeat split. exact Hs.
Qed.

Lemma layer_kept_trans (l1 l2 l3 : WindLayer) :
  layer_kept l1 l2 -> layer_kept l2 l3 -> layer_kept l1 l3.
Proof.
  intros (A1 & H1 & S1 & E1) (A2 & H2 & S2 & E2).
  repeat split; try congruence. eapply same_but_trans; eassumption.
Qed.

(** X4: [transWindLayer] returns the layer's altitude and its [extra]
    dict itself; in that dict it assigns only to [gust], [rh], [dew] and
    [gust_hdg] and only where the key is already there, so that the dict
    keeps its set of keys and all its other items; no other dict of the
    store is touched, and the caller's list keeps its length. *)
Theorem transWindLayer_frame (cf : Conf) (wlayer : TLayer) (id : string)
    (elapsed : Q) (refs : gmap string Q) (h : Store) :
  let r := transWindLayer cf wlayer id elapsed refs h in
  t_alt r.1.1 = t_alt wlayer
  /\ t_extra r.1.1 = t_extra wlayer
  /\ dom (load r.2 (t_extra wlayer)) = dom (load h (t_extra wlayer))
  /\ same_but transitioned_keys
       (load h (t_extra wlayer)) (load r.2 (t_extra wlayer))
  /\ (forall r', t_extra wlayer <> XRef r' ->
        load r.2 (XRef r') = load h (XRef r'))
  /\ length (st_arg r.2) = length (st_arg h).
Proof.
  intros r. subst r.
  destruct (transWindLayer_store cf wlayer id elapsed refs h)
    as (e' & Hst & Hd & Hs & Ha & Hx & _).
  rewrite Hst. split; [exact Ha|]. split; [exact Hx|].
  destruct (load_store (t_extra wlayer) e' h) as [-> | ->].
  - split; [exact Hd|]. split; [exact Hs|]. split.
    + intros r' Hne. apply load_store_other, Hne.
    + destruct (t_extra wlayer) as [[i|]|e0]; simpl;
        rewrite ?length_alter; reflexivity.
  - split; [reflexivity|]. split; [apply same_but_refl|]. split.
    + intros r' Hne. apply load_store_other, Hne.
    + destruct (t_extra wlayer) as [[i|]|e0]; simpl;
        rewrite ?length_alter; reflexivity.
Qed.

(** ** The blended dict *)

(** X5: between two layers at different altitudes, the dict of the layer
    that [interpolateWindLayer] returns is a new one whose keys come from
    the first layer only: it has [variation] and every key of the first
    layer other than [temp] and [dew]; it has [temp] or [dew] exactly when
    the first layer has the key and the second layer has it with a value
    other than [False]. The call assigns to the store only by adding
    [variation] to the first layer's dict. *)
Theorem interpolateWindLayer_extras (c : CLib) (wlayer1 wlayer2 : TLayer)
    (alt : Q) (nlayer : nat) (h : Store) (e : Q) :
  ~ t_alt wlayer1 == t_alt wlayer2 ->
  windExpo (t_speed wlayer1) (t_speed wlayer2) = Ok e ->
  exists r ex h',
    interpolateWindLayer c wlayer1 wlayer2 alt nlayer h = Ok (r, h')
    /\ t_extra r = XNew ex
    /\ (h' = h
        \/ (load h (t_extra wlayer1) !! "variation" = None
            /\ h' = store (t_extra wlayer1)
                      (<["variation" := XNum 0]> (load h (t_extra wlayer1))) h))
    /\ is_Some (ex !! "variation")
    /\ (forall key, is_Some (ex !! key) ->
          is_Some (load h (t_extra wlayer1) !! key) \/ key = "variation")
    /\ (forall key, key <> "temp" -> key <> "dew" ->
          is_Some (load h (t_extra wlayer1) !! key) -> is_Some (ex !! key))
    /\ (forall key, key = "temp" \/ key = "dew" ->
          (is_Some (ex !! key) <->
           is_Some (load h (t_extra wlayer1) !! key)
           /\ exists v2, load h' (t_extra wlayer2) !! key = Some v2
                         /\ is_not_False v2 = true)).
Proof.
  intros Halt He. unfold interpolateWindLayer.
  apply NumFacts.eqb_neq in Halt. rewrite Halt, He. cbn [rbind].
  set (e0 := load h (t_extra wlayer1)).
  assert (Hgen : forall (e1 : extras) (h' : Store),
    (forall key, key <> "variation" -> e1 !! key = e0 !! key) ->
    is_Some (e1 !! "variation") ->
    let ex := map_imap
                (interpolate_extra c (t_alt wlayer1) (t_alt wlayer2) alt nlayer
                   (load h' (t_extra wlayer2))) e1 in
    is_Some (ex !! "variation")
    /\ (forall key, is_Some (ex !! key) ->
          is_Some (e0 !! key) \/ key = "variation")
    /\ (forall key, key <> "temp" -> key <> "dew" ->
          is_Some (e0 !! key) -> is_Some (ex !! key))
    /\ (forall key, key = "temp" \/ key = "dew" ->
          (is_Some (ex !! key) <->
           is_Some (e0 !! key)
           /\ exists v2, load h' (t_extra wlayer2) !! key = Some v2
                         /\ is_not_False v2 = true))).
  { intros e1 h' Hsame Hvar ex. subst ex.
    set (e2 := load h' (t_extra wlayer2)).
    assert (Hlk : forall key,
              map_imap (interpolate_extra c (t_alt wlayer1) (t_alt wlayer2)
                          alt nlayer e2) e1 !! key
              = e1 !! key ≫= interpolate_extra c (t_alt wlayer1)
                               (t_alt wlayer2) alt nlayer e2 key).
    { intros key. apply map_lookup_imap. }
    assert (Hkeep : forall key v, key <> "temp" -> key <> "dew" ->
              is_Some (interpolate_extra c (t_alt wlayer1) (t_alt wlayer2)
                         alt nlayer e2 key v)).
    { intros key v Ht Hd. unfold interpolate_extra.
      rewrite (bool_decide_eq_false_2 (key ∈ ["temp"; "dew"])).
      - destruct (e2 !! key) as [v2|];
          [destruct (is_not_False v2);
             [destruct (bool_decide (nlayer ≠ 0%nat))|]|]; cbn; eauto.
      - rewrite !elem_of_cons, elem_of_nil. tauto. }
    assert (Htd : forall key v, key = "temp" \/ key = "dew" ->
              (is_Some (interpolate_extra c (t_alt wlayer1) (t_alt wlayer2)
                          alt nlayer e2 key v)
               <-> exists v2, e2 !! key = Some v2 /\ is_not_False v2 = true)).
    { intros key v Hk. unfold interpolate_extra.
      rewrite (bool_decide_eq_true_2 (key ∈ ["temp"; "dew"]))
        by (rewrite !elem_of_cons; tauto).
      destruct (e2 !! key) as [v2|]; split.
      - intros Hs. exists v2. split; [reflexivity|].
        destruct (is_not_False v2); [reflexivity|].
        destruct Hs as [x Hx]. discriminate.
      - intros (v2' & [= <-] & Hnf). rewrite Hnf.
        destruct (bool_decide (nlayer ≠ 0%nat)); eauto.
      - intros [x Hx]. discriminate.
      - intros (v2' & Hx & _). discriminate. }
    split; [|split; [|split]].
    - rewrite Hlk. destruct Hvar as [v Hv]. rewrite Hv. simpl.
      apply Hkeep; discriminate.
    - intros key Hs. rewrite Hlk in Hs.
      destruct (decide (key = "variation")) as [->|Hne]; [now right|].
      left. rewrite <- (Hsame key Hne).
      destruct (e1 !! key); [eauto | destruct Hs as [x Hx]; discriminate].
    - intros key Ht Hd [v Hv]. rewrite Hlk.
      destruct (decide (key = "variation")) as [->|Hne].
      + destruct Hvar as [v' Hv']. rewrite Hv'. simpl.
        apply Hkeep; discriminate.
      + rewrite (Hsame key Hne), Hv. simpl. apply Hkeep; assumption.
    - intros key Hk.
      assert (Hne : key <> "variation") by (destruct Hk as [-> | ->]; discriminate).
      rewrite Hlk, (Hsame key Hne).
      destruct (e0 !! key) as [v|]; simpl.
      + rewrite (Htd key v Hk). split; [intros H; split; [eauto | exact H]|].
        intros [_ H]. exact H.
      + split; [intros [x Hx]; discriminate | intros [[x Hx] _]; discriminate]. }
  destruct (e0 !! "variation") as [v|] eqn:Hv.
  - eexists _, _, h. split; [reflexivity|]. split; [reflexivity|].
    split; [now left|]. apply Hgen; [reflexivity | eauto].
  - eexists _, _, _. split; [reflexivity|]. split; [reflexivity|].
    split; [right; split; reflexivity|].
    apply Hgen.
    + intros key Hne. apply lookup_insert_ne. congruence.
    + rewrite lookup_insert_eq. eauto.
Qed.

Lemma interpolateWindLayer_extras_witness :
  let wlayer1 := mkTLayer 1000 90 15 (XNew {["temp" := XNum 280; "gust" := XNum 3]}) in
  let wlayer2 := mkTLayer 0 0 5 (XNew {["dew" := XNum 270]}) in
  let h := mkStore [] ∅ in
  (~ t_alt wlayer1 == t_alt wlayer2
   /\ windExpo (t_speed wlayer1) (t_speed wlayer2) = Ok (2 * 15 / (15 + 5)))
  /\ exists r ex h',
    interpolateWindLayer c_lin wlayer1 wlayer2 500 0 h = Ok (r, h')
    /\ t_extra r = XNew ex
    /\ (h' = h
        \/ (load h (t_extra wlayer1) !! "variation" = None
            /\ h' = store (t_extra wlayer1)
                      (<["variation" := XNum 0]> (load h (t_extra wlayer1))) h))
    /\ is_Some (ex !! "variation")
    /\ (forall key, is_Some (ex !! key) ->
          is_Some (load h (t_extra wlayer1) !! key) \/ key = "variation")
    /\ (forall key, key <> "temp" -> key <> "dew" ->
          is_Some (load h (t_extra wlayer1) !! key) -> is_Some (ex !! key))
    /\ (forall key, key = "temp" \/ key = "dew" ->
          (is_Some (ex !! key) <->
           is_Some (load h (t_extra wlayer1) !! key)
           /\ exists v2, load h' (t_extra wlayer2) !! key = Some v2
                         /\ is_not_False v2 = true)).
Proof.
  intros wlayer1 wlayer2 h.
  assert (H1 : ~ t_alt wlayer1 == t_alt wlayer2) by discriminate.
  assert (H2 : windExpo (t_speed wlayer1) (t_speed wlayer2)
               = Ok (2 * 15 / (15 + 5))) by reflexivity.
  split; [split; assumption|].
  exact (interpolateWindLayer_extras c_lin wlayer1 wlayer2 500 0 h _ H1 H2).
Defined.

(** ** What a call of [setWinds] leaves behind *)

Lemma setWindLayer_spec (idx : nat) (r : TLayer) (h : Store)
    (ws : list WindDref) :
  setWindLayer idx r h ws
  = upd_dref idx
      (fun d => mkWindDref (d_alt d) (emitted_hdg r h) (t_speed r)
                  (default (d_gust d) (emitted_gust r h)) (d_gust_hdg d)
                  (d_turbulence d)) ws.
Proof.
  unfold setWindLayer, emitted_hdg, emitted_gust, upd_dref.
  destruct (ws !! idx) as [d|] eqn:Hd; simpl; [|reflexivity].
  destruct (load h (t_extra r) !! "gust") as [g|]; simpl; [|reflexivity].
  rewrite list_lookup_insert_eq by (eapply lookup_lt_Some; eassumption).
  rewrite list_insert_insert_eq. reflexivity.
Qed.

(** Lines 275-302 on three or more layer variables. *)
Lemma emit_three (r : TLayer) (h : Store) (ws : list WindDref) :
  (let* ws := setWindLayer 0 r h ws in
   let* ws := setWindLayer 1 r h ws in
   let* ws := setWindLayer 2 r h ws in
   let* ws := upd_dref 0 (with_gust_hdg 0) ws in
   let* ws := upd_dref 1 (with_gust_hdg 0) ws in
   upd_dref 2 (with_gust_hdg 0) ws)
  = if bool_decide (3 <= length ws)%nat then
      Ok ((emitted (emitted_hdg r h) (t_speed r) (emitted_gust r h)
             <$> take 3 ws) ++ drop 3 ws)
    else Raise IndexError.
Proof.
  destruct ws as [|d0 [|d1 [|d2 rest]]];
    repeat (rewrite setWindLayer_spec; cbn -[setWindLayer]); reflexivity.
Qed.

Lemma appendMetarLayer_frame (c : CLib) (layers : list WindLayer)
    (elapsed : Q) (w w1 : Weather c) (lw : list TLayer) (h : Store) :
  appendMetarLayer layers elapsed w = Ok (lw, h, w1) ->
  st_arg h = layers /\ winds w1 = winds w /\ weatherData w1 = weatherData w
  /\ clouds w1 = clouds w /\ queryResponses w1 = queryResponses w
  /\ msltemp w1 = msltemp w /\ msldewp w1 = msldewp w.
Proof.
  unfold appendMetarLayer. destruct (metar_with_wind (weatherData w))
    as [[[m [[hdg speed] gust]]|]|]; simpl; [| |discriminate].
  - destruct (m_elevation m); simpl; [|discriminate].
    destruct (m_variable_wind m) as [[h1 h2]|].
    + destruct (randPattern c _ _ _ _ _) as [v rr].
      destruct (C.transition _ _ _ _ _) as [a refs].
      intros [= <- <- <-]. repeat split.
    + destruct (C.transition _ _ _ _ _) as [a refs].
      intros [= <- <- <-]. repeat split.
  - intros [= <- <- <-]. repeat split.
Qed.

Lemma resetTransitions_frame (c : CLib) (b : option nat) (t : nat)
    (w : Weather c) :
  let w' := resetTransitions b t w in
  winds w' = winds w /\ weatherData w' = weatherData w /\ alt w' = alt w
  /\ clouds w' = clouds w /\ queryResponses w' = queryResponses w
  /\ msltemp w' = msltemp w /\ msldewp w' = msldewp w /\ conf w' = conf w.
Proof.
  unfold resetTransitions. destruct (bool_decide _); repeat split.
Qed.

Lemma Forall2_layer_kept_refl (l : list WindLayer) : Forall2 layer_kept l l.
Proof.
  apply Forall_Forall2_diag, Forall_forall. intros x _. repeat split.
Qed.

Lemma Forall2_layer_kept_trans (l1 l2 l3 : list WindLayer) :
  Forall2 layer_kept l1 l2 -> Forall2 layer_kept l2 l3 ->
  Forall2 layer_kept l1 l3.
Proof.
  intros H12. revert l3. induction H12 as [|x y l1 l2 Hxy _ IH]; intros l3 H23.
  - inversion H23. constructor.
  - inversion H23 as [|y' z l2' l3' Hyz Hrest]; subst. constructor.
    + eapply layer_kept_trans; eassumption.
    + apply IH, Hrest.
Qed.

Lemma transWindLayer_kept (cf : Conf) (wlayer : TLayer) (id : string)
    (elapsed : Q) (refs : gmap string Q) (h : Store) :
  Forall2 layer_kept (st_arg h)
    (st_arg (transWindLayer cf wlayer id elapsed refs h).2).
Proof.
  destruct (transWindLayer_store cf wlayer id elapsed refs h)
    as (e' & -> & _ & Hs & _).
  apply store_kept. eapply same_but_weaken; [|exact Hs].
  intros k Hk. apply elem_of_cons. now right.
Qed.

Lemma interpolateWindLayer_kept (c : CLib) (wlayer1 wlayer2 r : TLayer)
    (alt : Q) (nlayer : nat) (h h' : Store) :
  interpolateWindLayer c wlayer1 wlayer2 alt nlayer h = Ok (r, h') ->
  Forall2 layer_kept (st_arg h) (st_arg h').
Proof.
  unfold interpolateWindLayer.
  destruct (Num.eqb _ _).
  { intros [= _ <-]. apply Forall2_layer_kept_refl. }
  destruct (windExpo _ _) as [e|]; cbn [rbind]; [|discriminate].
  destruct (load h (t_extra wlayer1) !! "variation").
  - intros [= _ <-]. apply Forall2_layer_kept_refl.
  - intros [= _ <-]. apply store_kept, same_but_insert.
    apply elem_of_cons. now left.
Qed.

Lemma resolveWind_frame (c : CLib) (lw : list TLayer) (b : option nat)
    (t : nat) (elapsed : Q) (h h' : Store) (w w' : Weather c) (r : TLayer) :
  resolveWind lw b t elapsed h w = Ok (r, h', w') ->
  Forall2 layer_kept (st_arg h) (st_arg h')
  /\ winds w' = winds w /\ weatherData w' = weatherData w /\ alt w' = alt w
  /\ clouds w' = clouds w /\ queryResponses w' = queryResponses w
  /\ msltemp w' = msltemp w /\ msldewp w' = msldewp w.
Proof.
  unfold resolveWind. destruct (index lw t) as [wt|]; simpl; [|discriminate].
  pose proof (transWindLayer_kept (conf w) wt (Str.of_nat t) elapsed
                (transrefs w) h) as K1.
  destruct (transWindLayer (conf w) wt _ _ _ _) as [[twind refs1] h1].
  simpl in K1.
  assert (Hone : forall r0 h0 w0,
            Ok (twind, h1, set_transrefs refs1 w) = Ok (r0, h0, w0) ->
            Forall2 layer_kept (st_arg h) (st_arg h0)
            /\ winds w0 = winds w /\ weatherData w0 = weatherData w
            /\ alt w0 = alt w
            /\ clouds w0 = clouds w /\ queryResponses w0 = queryResponses w
            /\ msltemp w0 = msltemp w /\ msldewp w0 = msldewp w).
  { intros r0 h0 w0 [= <- <- <-]. repeat split. exact K1. }
  destruct b as [b|]; [|apply Hone].
  destruct (bool_decide (b ≠ t)); [|apply Hone].
  destruct (index lw b) as [wb|]; simpl; [|discriminate].
  pose proof (transWindLayer_kept (conf w) wb (Str.of_nat b) elapsed
                refs1 h1) as K2.
  destruct (transWindLayer (conf w) wb _ _ _ _) as [[bwind refs2] h2].
  simpl in K2.
  destruct (interpolateWindLayer c twind bwind (alt w) b h2)
    as [[rw h3]|] eqn:Hi; simpl; [|discriminate].
  apply interpolateWindLayer_kept in Hi.
  intros [= <- <- <-]. repeat split.
  eapply Forall2_layer_kept_trans; [exact K1|].
  eapply Forall2_layer_kept_trans; eassumption.
Qed.

(** The shape of a call that returns. *)
Lemma setWinds_inv (c : CLib) (layers layers' : list WindLayer)
    (elapsed : Q) (w w' : Weather c) :
  setWinds layers elapsed w = Ok (layers', w') ->
  exists lw h w1,
    appendMetarLayer layers elapsed w = Ok (lw, h, w1)
    /\ ((lw = [] /\ layers' = st_arg h /\ w' = w1)
        \/ (lw <> []
            /\ exists r h3 w3,
                 resolveWind lw (searchLayers lw (alt w1)).1
                   (searchLayers lw (alt w1)).2 elapsed h
                   (resetTransitions (searchLayers lw (alt w1)).1
                      (searchLayers lw (alt w1)).2 w1)
                 = Ok (r, h3, w3)
                 /\ layers' = st_arg h3
                 /\ (3 <= length (winds w3))%nat
                 /\ winds w'
                    = (emitted (emitted_hdg r h3) (t_speed r)
                         (emitted_gust r h3) <$> take 3 (winds w3))
                      ++ drop 3 (winds w3)
                 /\ weatherData w' = weatherData w3
                 /\ clouds w' = clouds w3
                 /\ queryResponses w' = queryResponses w3
                 /\ alt w' = alt w3
                 /\ conf w' = conf w3)).
Proof.
  unfold setWinds.
  destruct (appendMetarLayer layers elapsed w) as [[[lw h] w1]|] eqn:Ha;
    cbn [rbind]; [|discriminate].
  intros Hrun. exists lw, h, w1. split; [reflexivity|].
  destruct lw as [|l0 lw'].
  { left. simpl in Hrun. injection Hrun as <- <-. repeat split. }
  right. split; [discriminate|].
  rewrite bool_decide_eq_true_2 in Hrun by (simpl; lia).
  destruct (searchLayers (l0 :: lw') (alt w1)) as [b t]. cbn [fst snd].
  destruct (resolveWind (l0 :: lw') b t elapsed h (resetTransitions b t w1))
    as [[[r h3] w3]|]; cbn [rbind] in Hrun; [|discriminate].
  exists r, h3, w3. split; [reflexivity|].
  pose proof (emit_three r h3 (winds w3)) as He.
  destruct (setWindLayer 0 r h3 (winds w3)) as [ws0|];
    cbn [rbind] in Hrun, He; [|discriminate].
  destruct (setWindLayer 1 r h3 ws0) as [ws1|];
    cbn [rbind] in Hrun, He; [|discriminate].
  destruct (setWindLayer 2 r h3 ws1) as [ws2|];
    cbn [rbind] in Hrun, He; [|discriminate].
  destruct (upd_dref 0 _ ws2) as [ws3|];
    cbn [rbind] in Hrun, He; [|discriminate].
  destruct (upd_dref 1 _ ws3) as [ws4|];
    cbn [rbind] in Hrun, He; [|discriminate].
  destruct (upd_dref 2 _ ws4) as [ws5|];
    cbn [rbind] in Hrun, He; [|discriminate].
  injection Hrun as <- <-.
  destruct (bool_decide (3 <= length (winds w3))%nat) eqn:Hlen;
    [|discriminate].
  apply bool_decide_eq_true_1 in Hlen. injection He as ->.
  repeat split. exact Hlen.
Qed.

Lemma setWinds_later_frame_returns :
  match setWinds gusty_layers 1 later_frame with
  | Ok _ => True
  | Raise _ => False
  end.
Proof. vm_compute. exact I. Qed.

(** X6: a call of [setWinds] that returns leaves every layer of the
    caller's list with its altitude, heading and speed, and in the layers'
    [extra] dicts it has changed at most the items [variation], [gust],
    [rh], [dew] and [gust_hdg]; the list keeps its length and order. *)
Theorem setWinds_keeps_layers (c : CLib) (layers layers' : list WindLayer)
    (elapsed : Q) (w w' : Weather c) :
  setWinds layers elapsed w = Ok (layers', w') ->
  Forall2 layer_kept layers layers'.
Proof.
  intros Hrun.
  destruct (setWinds_inv c layers layers' elapsed w w' Hrun)
    as (lw & h & w1 & Ha & Hcase).
  destruct (appendMetarLayer_frame c layers elapsed w w1 lw h Ha) as (Hh & _).
  destruct Hcase as [(_ & -> & _) | (_ & r & h3 & w3 & Hr & -> & _)].
  - rewrite Hh. apply Forall2_layer_kept_refl.
  - apply resolveWind_frame in Hr. destruct Hr as (K & _).
    rewrite Hh in K. exact K.
Qed.

Lemma setWinds_keeps_layers_witness :
  exists layers' w',
    setWinds gusty_layers 1 later_frame = Ok (layers', w')
    /\ Forall2 layer_kept gusty_layers layers'.
Proof.
  pose proof setWinds_later_frame_returns as Hret.
  destruct (setWinds gusty_layers 1 later_frame) as [[layers' w']|] eqn:Hrun;
    [|destruct Hret].
  exists layers', w'. split; [reflexivity|].
  exact (setWinds_keeps_layers c_lin gusty_layers layers' 1 later_frame w' Hrun).
Defined.

(** X7: a call of [setWinds] that returns with a forecast layer in the
    list writes one and the same heading and speed to the first three wind
    layers of the simulator, sets their gust heading to 0, sets their gust
    to one value or leaves all three as they were, and leaves their
    altitude and turbulence, all further layers, the cloud variables, the
    response queue and the aircraft altitude alone. What the call assigns
    to in the layer list, which the caller takes from the snapshot, is
    stated apart. *)
Theorem setWinds_broadcast (c : CLib) (layers layers' : list WindLayer)
    (elapsed : Q) (w w' : Weather c) :
  setWinds layers elapsed w = Ok (layers', w') ->
  layers <> [] ->
  (3 <= length (winds w))%nat
  /\ (exists hdg speed gust,
        winds w'
        = (emitted hdg speed gust <$> take 3 (winds w)) ++ drop 3 (winds w))
  /\ clouds w' = clouds w
  /\ queryResponses w' = queryResponses w
  /\ alt w' = alt w.
Proof.
  intros Hrun Hne.
  destruct (setWinds_inv c layers layers' elapsed w w' Hrun)
    as (lw & h & w1 & Ha & Hcase).
  destruct (appendMetarLayer_frame c layers elapsed w w1 lw h Ha)
    as (_ & Hw & Hd & Hc & Hq & _).
  destruct (appendMetarLayer_state c layers elapsed w w1 lw h Ha)
    as (Halt & _).
  destruct Hcase as [(-> & _) | (_ & r & h3 & w3 & Hr & _ & Hlen & Hws & Hd' & Hc' & Hq' & Ha' & _)].
  - exfalso. revert Ha. unfold appendMetarLayer.
    destruct (metar_with_wind (weatherData w))
      as [[[m [[hdg speed] gust]]|]|]; simpl; [| |discriminate].
    + destruct (m_elevation m); simpl; [|discriminate].
      destruct (m_variable_wind m) as [[h1 h2]|].
      * destruct (randPattern c _ _ _ _ _) as [v rr].
        destruct (C.transition _ _ _ _ _) as [a refs]. discriminate.
      * destruct (C.transition _ _ _ _ _) as [a refs]. discriminate.
    + intros [= Hl _ _]. destruct layers; [congruence | discriminate].
  - apply resolveWind_frame in Hr.
    destruct Hr as (_ & Hw3 & Hd3 & Ha3 & Hc3 & Hq3 & _).
    destruct (resetTransitions_frame c (searchLayers lw (alt w1)).1
                (searchLayers lw (alt w1)).2 w1)
      as (Hw2 & Hd2 & Ha2 & Hc2 & Hq2 & _).
    rewrite Hw3, Hw2, Hw in Hlen, Hws.
    split; [exact Hlen|]. split; [eauto|].
    repeat split; congruence.
Qed.

Lemma setWinds_broadcast_witness :
  exists layers' w',
    (setWinds gusty_layers 1 later_frame = Ok (layers', w')
     /\ gusty_layers <> [])
    /\ (3 <= length (winds later_frame))%nat
    /\ (exists hdg speed gust,
          winds w'
          = (emitted hdg speed gust <$> take 3 (winds later_frame))
            ++ drop 3 (winds later_frame))
    /\ clouds w' = clouds later_frame
    /\ queryResponses w' = queryResponses later_frame
    /\ alt w' = alt later_frame.
Proof.
  pose proof setWinds_later_frame_returns as Hret.
  destruct (setWinds gusty_layers 1 later_frame) as [[layers' w']|] eqn:Hrun;
    [|destruct Hret].
  assert (Hne : gusty_layers <> []) by discriminate.
  exists layers', w'. split; [split; [reflexivity | exact Hne]|].
  exact (setWinds_broadcast c_lin gusty_layers layers' 1 later_frame w' Hrun Hne).
Defined.

(** ** Turbulence bands *)

Lemma turb_search_spec (bands : list (Q * Q)) (alt : Q)
    (prev : option (Q * Q)) (cur : Q * Q) :
  (exists j hi,
     bands !! j = Some hi /\ alt < hi.1
     /\ (forall k band, (k < j)%nat -> bands !! k = Some band -> band.1 <= alt)
     /\ turb_search bands alt prev cur
        = (match j with
           | 0%nat => prev
           | S j' => bands !! j'
           end, hi))
  \/ ((forall k band, bands !! k = Some band -> band.1 <= alt)
      /\ turb_search bands alt prev cur
         = match last bands with
           | Some top => (Some top, top)
           | None => (prev, cur)
           end).
Proof.
  revert prev cur.
  induction bands as [|b bands IH]; intros prev cur; simpl.
  - right. split; [intros k band Hk; discriminate | reflexivity].
  - destruct (Num.ltb alt b.1) eqn:Hlt.
    + left. exists 0%nat, b. split; [reflexivity|].
      split; [apply NumFacts.ltb_lt, Hlt|]. split; [intros k band Hk; lia|].
      reflexivity.
    + apply NumFacts.ltb_ge in Hlt.
      destruct (IH (Some b) b)
        as [(j & hi & Hj & Hhi & Hbefore & Hres)|[Hall Hres]].
      * left. exists (S j), hi. split; [exact Hj|]. split; [exact Hhi|].
        split.
        { intros [|k] band Hk Hl; simpl in Hl.
          - injection Hl as <-. exact Hlt.
          - apply (Hbefore k); [lia | exact Hl]. }
        rewrite Hres. destruct j as [|j']; reflexivity.
      * right. split.
        { intros [|k] band Hl; simpl in Hl.
          - injection Hl as <-. exact Hlt.
          - apply (Hall k), Hl. }
        rewrite Hres. destruct bands as [|b' bands']; [reflexivity|].
        change (last (b :: b' :: bands')) with (last (b' :: bands')).
        destruct (last (b' :: bands')) eqn:Hlast; [reflexivity|].
        apply last_None in Hlast. discriminate.
Qed.

(** X8: with more than one turbulence band, the severity [setTurbulence]
    starts from is the first band's severity when the aircraft is below
    the first band; the linear blend of two successive bands when the
    aircraft is at or above the lower one and below the upper one, which
    is the first band above the aircraft; and the blend of the last band
    with itself when no band lies above the aircraft. *)
Theorem turb_level_bracket (turbulence : list (Q * Q)) (alt : Q) :
  (1 < length turbulence)%nat ->
  (exists first,
     turbulence !! 0%nat = Some first /\ alt < first.1
     /\ turb_level turbulence alt = first.2)
  \/ (exists j lo hi,
        turbulence !! j = Some lo /\ turbulence !! S j = Some hi
        /\ lo.1 <= alt /\ alt < hi.1
        /\ (forall k band, (k <= j)%nat -> turbulence !! k = Some band ->
              band.1 <= alt)
        /\ turb_level turbulence alt
           = C.interpolate lo.2 hi.2 lo.1 hi.1 alt)
  \/ (exists top,
        last turbulence = Some top
        /\ Forall (fun band => band.1 <= alt) turbulence
        /\ turb_level turbulence alt
           = C.interpolate top.2 top.2 top.1 top.1 alt).
Proof.
  intros Hlen. unfold turb_level. rewrite bool_decide_eq_true_2 by exact Hlen.
  destruct (turb_search_spec turbulence alt None (0, 0))
    as [(j & hi & Hj & Hhi & Hbefore & Hres)|[Hall Hres]]; rewrite Hres.
  - destruct j as [|j'].
    + left. exists hi. repeat split; assumption.
    + right. left.
      destruct (turbulence !! j') as [lo|] eqn:Hlo.
      * exists j', lo, hi. split; [exact Hlo|]. split; [exact Hj|].
        split; [apply (Hbefore j'); [lia | exact Hlo]|].
        split; [exact Hhi|]. split; [|reflexivity].
        intros k band Hk Hl. apply (Hbefore k); [lia | exact Hl].
      * apply lookup_ge_None in Hlo. apply lookup_lt_Some in Hj. lia.
  - right. right. destruct (last turbulence) as [top|] eqn:Hlast.
    + exists top. split; [reflexivity|]. split; [|reflexivity].
      apply Forall_lookup. intros k band Hl. apply (Hall k), Hl.
    + apply last_None in Hlast. subst. simpl in Hlen. lia.
Qed.

Lemma turb_level_bracket_witness :
  let turbulence := [(1000, 1); (3000, 3); (6000, 2)] in
  let alt := 2000 in
  (1 < length turbulence)%nat
  /\ ((exists first,
         turbulence !! 0%nat = Some first /\ alt < first.1
         /\ turb_level turbulence alt = first.2)
      \/ (exists j lo hi,
            turbulence !! j = Some lo /\ turbulence !! S j = Some hi
            /\ lo.1 <= alt /\ alt < hi.1
            /\ (forall k band, (k <= j)%nat -> turbulence !! k = Some band ->
                  band.1 <= alt)
            /\ turb_level turbulence alt
               = C.interpolate lo.2 hi.2 lo.1 hi.1 alt)
      \/ (exists top,
            last turbulence = Some top
            /\ Forall (fun band => band.1 <= alt) turbulence
            /\ turb_level turbulence alt
               = C.interpolate top.2 top.2 top.1 top.1 alt)).
Proof.
  intros turbulence alt.
  assert (Hlen : (1 < length turbulence)%nat) by (simpl; lia).
  split; [exact Hlen|]. exact (turb_level_bracket turbulence alt Hlen).
Defined.

(** Lines 203-205 on three or more layer variables. *)
Lemma setTurbulence_spec (c : CLib) (turbulence : list (Q * Q)) (elapsed : Q)
    (w : Weather c) :
  (3 <= length (winds w))%nat ->
  let out :=
    randPattern c "turbulence"
      (turb_level turbulence (alt w) * turbulence_probability (conf w))
      elapsed turbulence_args (randRefs w) in
  setTurbulence turbulence elapsed w
  = Ok (set_winds
          ((with_turbulence out.1 <$> take 3 (winds w)) ++ drop 3 (winds w))
          (set_randRefs out.2 w)).
Proof.
  intros Hlen out. unfold setTurbulence. fold out.
  destruct out as [t rr].
  destruct (winds w) as [|d0 [|d1 [|d2 rest]]]; simpl in Hlen; try lia.
  reflexivity.
Qed.

Lemma resolveWind_conf (c : CLib) (lw : list TLayer) (b : option nat)
    (t : nat) (elapsed : Q) (h h' : Store) (w w' : Weather c) (r : TLayer) :
  resolveWind lw b t elapsed h w = Ok (r, h', w') ->
  conf w' = conf w /\ randRefs w' = randRefs w.
Proof.
  unfold resolveWind. destruct (index lw t) as [wt|]; simpl; [|discriminate].
  destruct (transWindLayer (conf w) wt _ _ _ _) as [[twind refs1] h1].
  destruct b as [b|]; [|intros [= <- <- <-]; split; reflexivity].
  destruct (bool_decide (b ≠ t)); [|intros [= <- <- <-]; split; reflexivity].
  destruct (index lw b) as [wb|]; simpl; [|discriminate].
  destruct (transWindLayer (conf w) wb _ _ _ _) as [[bwind refs2] h2].
  destruct (interpolateWindLayer c twind bwind (alt w) b h2)
    as [[rw h3]|]; simpl; [|discriminate].
  intros [= <- <- <-]. split; reflexivity.
Qed.

(** X9: after a call of [setWinds] that returned for a non-empty layer
    list, [setTurbulence] returns as well; it gives the first three wind
    layers one common turbulence, computed for the altitude and the
    probability factor the wind call saw, and keeps what the wind call
    wrote: heading, speed, gust and gust heading of every layer, the
    transition references and the remembered top index. *)
Theorem setTurbulence_after_setWinds (c : CLib)
    (layers layers' : list WindLayer) (turbulence : list (Q * Q))
    (elapsed : Q) (w w1 : Weather c) :
  setWinds layers elapsed w = Ok (layers', w1) ->
  layers <> [] ->
  exists t w2,
    setTurbulence turbulence elapsed w1 = Ok w2
    /\ t = (randPattern c "turbulence"
              (turb_level turbulence (alt w) * turbulence_probability (conf w))
              elapsed turbulence_args (randRefs w1)).1
    /\ winds w2
       = (with_turbulence t <$> take 3 (winds w1)) ++ drop 3 (winds w1)
    /\ transrefs w2 = transrefs w1
    /\ windAlts w2 = windAlts w1
    /\ msltemp w2 = msltemp w1 /\ msldewp w2 = msldewp w1.
Proof.
  intros Hrun Hne.
  destruct (setWinds_inv c layers layers' elapsed w w1 Hrun)
    as (lw & h & wa & Ha & Hcase).
  destruct (appendMetarLayer_state c layers elapsed w wa lw h Ha)
    as (Halt & _ & Hconf).
  destruct Hcase as [(-> & _) | (_ & r & h3 & w3 & Hr & _ & Hlen & Hws & _ & _ & _ & Ha1 & Hc1)].
  - exfalso. revert Ha. unfold appendMetarLayer.
    destruct (metar_with_wind (weatherData w))
      as [[[m [[hdg speed] gust]]|]|]; simpl; [| |discriminate].
    + destruct (m_elevation m); simpl; [|discriminate].
      destruct (m_variable_wind m) as [[h1 h2]|].
      * destruct (randPattern c _ _ _ _ _) as [v rr].
        destruct (C.transition _ _ _ _ _) as [a refs]. discriminate.
      * destruct (C.transition _ _ _ _ _) as [a refs]. discriminate.
    + intros [= Hl _ _]. destruct layers; [congruence | discriminate].
  - assert (Hlen1 : (3 <= length (winds w1))%nat).
    { rewrite Hws, length_app, length_fmap, length_take, length_drop. lia. }
    pose proof (setTurbulence_spec c turbulence elapsed w1 Hlen1) as Hs.
    cbv zeta in Hs.
    destruct (resolveWind_conf c _ _ _ _ _ _ _ _ _ Hr) as (Hc3 & _).
    apply resolveWind_frame in Hr.
    destruct Hr as (_ & _ & _ & Ha3 & _).
    destruct (resetTransitions_frame c (searchLayers lw (alt wa)).1
                (searchLayers lw (alt wa)).2 wa)
      as (_ & _ & Ha2 & _ & _ & _ & _ & Hc2).
    eexists _, _. split; [exact Hs|].
    split; [|repeat split].
    rewrite <- Halt, <- Ha2, <- Ha3, <- Ha1, <- Hconf, <- Hc2, <- Hc3, <- Hc1.
    reflexivity.
Qed.

Lemma setTurbulence_after_setWinds_witness :
  let turbulence := [(1000, 1); (3000, 3)] in
  exists layers' w1,
    (setWinds gusty_layers 1 later_frame = Ok (layers', w1)
     /\ gusty_layers <> [])
    /\ exists t w2,
         setTurbulence turbulence 1 w1 = Ok w2
         /\ t = (randPattern c_lin "turbulence"
                   (turb_level turbulence (alt later_frame)
                    * turbulence_probability (conf later_frame))
                   1 turbulence_args (randRefs w1)).1
         /\ winds w2
            = (with_turbulence t <$> take 3 (winds w1)) ++ drop 3 (winds w1)
         /\ transrefs w2 = transrefs w1
         /\ windAlts w2 = windAlts w1
         /\ msltemp w2 = msltemp w1 /\ msldewp w2 = msldewp w1.
Proof.
  intros turbulence.
  pose proof setWinds_later_frame_returns as Hret.
  destruct (setWinds gusty_layers 1 later_frame) as [[layers' w1]|] eqn:Hrun;
    [|destruct Hret].
  assert (Hne : gusty_layers <> []) by discriminate.
  exists layers', w1. split; [split; [reflexivity | exact Hne]|].
  exact (setTurbulence_after_setWinds c_lin gusty_layers layers' turbulence 1
           later_frame w1 Hrun Hne).
Defined.

(** ** Clouds *)

Ltac num_cases :=
  repeat match goal with
  | H : Num.ltb _ _ = true |- _ => apply NumFacts.ltb_lt in H
  | H : Num.ltb _ _ = false |- _ => apply NumFacts.ltb_ge in H
  | H : Num.eqb _ _ = true |- _ => apply NumFacts.eqb_eq in H
  | H : Num.eqb _ _ = false |- _ => apply NumFacts.eqb_neq in H
  end.

Lemma xp_scale (cover : Q) : cover / 100 * 4 == cover * (1 # 25).
Proof. field. Qed.

Lemma cc2xp_cases (cover : Q) :
  (0 < cover /\ cover < 25 /\ cc2xp cover = 1)
  \/ (89 < cover /\ cc2xp cover = 4)
  \/ (cover <= 89 /\ (cover <= 0 \/ 25 <= cover)
      /\ cc2xp cover = cover / 100 * 4).
Proof.
  unfold cc2xp. cbv zeta.
  destruct (Num.ltb (cover / 100 * 4) 1) eqn:H1;
    destruct (Num.ltb 0 cover) eqn:H2;
    destruct (Num.ltb 89 cover) eqn:H3; cbn [andb]; num_cases;
    rewrite xp_scale in H1.
  all: try (left; split; [assumption|]; split; [lra | reflexivity]).
  all: try (right; left; split; [assumption | reflexivity]).
  all: right; right; split; [assumption|]; split; [|reflexivity].
  all: try (left; assumption).
  all: right; lra.
Qed.

(** X10: [cc2xp] maps every positive cover percentage into the simulator's
    range from 1 to 4 (1 below 25 percent, 4 above 89 percent, a hundredth
    of the percentage times 4 in between), leaves a cover that is not
    positive unclamped at or below 0, and never decreases when the
    percentage grows. *)
Theorem cc2xp_scale (cover cover' : Q) :
  (0 < cover -> 1 <= cc2xp cover /\ cc2xp cover <= 4)
  /\ (cover <= 0 -> cc2xp cover == cover / 100 * 4 /\ cc2xp cover <= 0)
  /\ (cover <= cover' -> cc2xp cover <= cc2xp cover').
Proof.
  split; [|split].
  - intros Hpos.
    destruct (cc2xp_cases cover) as [(_ & _ & ->)|[(_ & ->)|(H89 & H & ->)]];
      [split; discriminate | split; discriminate |].
    rewrite xp_scale. destruct H as [H|H]; [lra|]. split; lra.
  - intros Hneg.
    destruct (cc2xp_cases cover) as [(H & _)|[(H & _)|(_ & _ & ->)]];
      [lra | lra |]. split; [reflexivity | rewrite xp_scale; lra].
  - intros Hle.
    destruct (cc2xp_cases cover) as [(A1 & A2 & ->)|[(A1 & ->)|(A1 & A2 & ->)]];
      destruct (cc2xp_cases cover')
        as [(B1 & B2 & ->)|[(B1 & ->)|(B1 & B2 & ->)]];
      rewrite ?xp_scale; try lra; discriminate.
Qed.








Lemma metar_clouds_bases (cf : Conf) (gfsClouds : list (Q * Q * Q))
    (clouds : list (Q * string * string)) (a : CloudAcc) :
  c_base <$> acc_clouds (foldl (metar_cloud cf gfsClouds) a clouds)
  = (c_base <$> acc_clouds a)
    ++ ((fun cl : Q * string * string => cl.1.1) <$> clouds).
Proof.
  revert a. induction clouds as [|cl clouds IH]; intros a; simpl.
  - rewrite app_nil_r. reflexivity.
  - rewrite IH. destruct cl as [[base code] x]. unfold metar_cloud.
    destruct (match xpClouds code with
              | Some (xp, thick) => (base + thick, CNum xp)
              | None => (minCloud, CCode code)
              end) as [top cv].
    cbn [acc_clouds]. rewrite fmap_app. cbn. rewrite <- app_assoc.
    reflexivity.
Qed.

(** The loop of lines 456-463 puts bands in front of the observed layers,
    each above the limit, and only while fewer than three layers are
    there. *)
Lemma add_gfs_clouds_spec (c : CLib) (cf : Conf) (gfsCloudLimit mxTop : Q)
    (bands : list (Q * Q * Q)) (out : list CloudLayer) :
  exists added,
    foldl (add_gfs_cloud c cf gfsCloudLimit mxTop) out bands = added ++ out
    /\ Forall (fun l => gfsCloudLimit < c_base l /\ mxTop < c_base l
                        /\ exists q, c_cover l = CNum q) added
    /\ (added = [] \/ (length (added ++ out) <= 3)%nat).
Proof.
  revert out. induction bands as [|b bands IH]; intros out; simpl.
  - exists []. split; [reflexivity|]. split; [constructor | now left].
  - destruct b as [[base top] cv]. unfold add_gfs_cloud at 2.
    destruct (bool_decide (length out < 3)%nat) eqn:Hlen; cbn [andb];
      [|apply IH].
    destruct (Num.ltb (Num.pymax gfsCloudLimit mxTop) base) eqn:Hb;
      [|apply IH].
    apply bool_decide_eq_true_1 in Hlen.
    destruct (IH (mkCloud base
                    (base + C.limit (top - base) (Some (maxCloud cf))
                              (Some minCloud))
                    (CNum (c_cc2xp c cv)) :: out))
      as (added & Hadd & Hall & Hn).
    exists (added ++ [mkCloud base
                        (base + C.limit (top - base) (Some (maxCloud cf))
                                  (Some minCloud))
                        (CNum (c_cc2xp c cv))]).
    rewrite <- app_assoc. split; [exact Hadd|]. split.
    + apply Forall_app. split; [exact Hall|]. apply Forall_singleton. cbn.
      apply NumFacts.ltb_lt in Hb. unfold Num.pymax in Hb.
      destruct (Num.ltb gfsCloudLimit mxTop) eqn:Hm; num_cases.
      * split; [lra|]. split; [lra | eauto].
      * split; [lra|]. split; [lra | eauto].
    + right. destruct Hn as [-> | Hn]; [simpl; lia | exact Hn].
Qed.

(** X12: when the station report is used for the clouds (its distance is
    below the limit and it reports clouds), the collected list consists of
    forecast bands put in front of the observed layers. The observed
    layers keep the report's bases, highest reported last first, and none
    of them reaches into the observed layer over it; each band put in
    front has its base above the limit of 5600 ft over the station and
    carries a number as cover; and bands are put in front only as long as
    the list has fewer than three layers. *)
Theorem collectClouds_merging (c : CLib) (cf : Conf) (d : Snapshot)
    (g : Gfs) (m : Metar) (dist elevation : Q) (clouds : list (Q * string * string)) :
  s_gfs d = Some g ->
  s_metar d = Some m ->
  m_distance m = Some dist ->
  dist < metar_distance_limit cf ->
  m_clouds m = Some clouds ->
  m_elevation m = Some elevation ->
  exists added observed,
    collectClouds c cf (Some (PDict d))
    = Ok (added ++ observed, C.f2m 5600 + elevation)
    /\ c_base <$> observed
       = reverse ((fun cl : Q * string * string => cl.1.1) <$> clouds)
    /\ capped_chain observed
    /\ Forall (fun l => C.f2m 5600 + elevation < c_base l
                        /\ exists q, c_cover l = CNum q) added
    /\ (added = [] \/ (length (added ++ observed) <= 3)%nat).
Proof.
  intros Hg Hm Hd Hlt Hc He.
  unfold collectClouds. cbn. rewrite Hg. cbn. rewrite Hm. cbn.
  unfold usable_metar_clouds. rewrite Hd.
  apply NumFacts.ltb_lt in Hlt. rewrite Hlt, Hc, He. cbn.
  set (a := foldl (metar_cloud cf (default [] (g_clouds g))) (mkAcc 0 0 [])
              (reverse clouds)).
  destruct (add_gfs_clouds_spec c cf (C.f2m 5600 + elevation) (maxTop a)
              (default [] (g_clouds g)) (acc_clouds a))
    as (added & Hadd & Hall & Hn).
  exists added, (acc_clouds a). rewrite Hadd.
  split; [reflexivity|]. split; [|split; [|split]].
  - subst a. rewrite metar_clouds_bases. cbn. rewrite fmap_reverse.
    reflexivity.
  - apply metar_clouds_capped.
  - eapply Forall_impl; [exact Hall|]. cbn. intros l (H1 & _ & H3).
    split; assumption.
  - exact Hn.
Qed.

Lemma collectClouds_merging_witness :
  let clouds := [(500, "FEW", ""); (1500, "BKN", "")] in
  let m := mkMetar (Some 100) (Some 1000) None None None (Some clouds) in
  let g := mkGfs None (Some [(1000, 5000, 100); (9000, 10000, 20)]) None in
  let d := mkSnapshot (Some (mkInfo 0 0 "na" "na")) (Some g) (Some [])
             (Some m) in
  (s_gfs d = Some g /\ s_metar d = Some m /\ m_distance m = Some 1000
   /\ 1000 < metar_distance_limit default_conf
   /\ m_clouds m = Some clouds /\ m_elevation m = Some 100)
  /\ exists added observed,
       collectClouds c_lin default_conf (Some (PDict d))
       = Ok (added ++ observed, C.f2m 5600 + 100)
       /\ c_base <$> observed
          = reverse ((fun cl : Q * string * string => cl.1.1) <$> clouds)
       /\ capped_chain observed
       /\ Forall (fun l => C.f2m 5600 + 100 < c_base l
                           /\ exists q, c_cover l = CNum q) added
       /\ (added = [] \/ (length (added ++ observed) <= 3)%nat).
Proof.
  intros clouds m g d.
  assert (H1 : s_gfs d = Some g) by reflexivity.
  assert (H2 : s_metar d = Some m) by reflexivity.
  assert (H3 : m_distance m = Some 1000) by reflexivity.
  assert (H4 : 1000 < metar_distance_limit default_conf) by reflexivity.
  assert (H5 : m_clouds m = Some clouds) by reflexivity.
  assert (H6 : m_elevation m = Some 100) by reflexivity.
  split; [repeat split; assumption|].
  exact (collectClouds_merging c_lin default_conf d g m 1000 100 clouds
           H1 H2 H3 H4 H5 H6).
Defined.

(** ** Writing the cloud variables *)

Lemma setDrefIfDiff_idem (cur value : Q) (max_diff : option Q) :
  setDrefIfDiff (setDrefIfDiff cur value max_diff) value max_diff
  = setDrefIfDiff cur value max_diff.
Proof.
  unfold setDrefIfDiff. destruct max_diff as [d|].
  - destruct (Num.ltb d (Qabs (cur - value))) eqn:H1.
    + destruct (Num.ltb d (Qabs (value - value))); reflexivity.
    + rewrite H1. reflexivity.
  - destruct (Num.eqb cur value) eqn:H1.
    + rewrite H1. reflexivity.
    + destruct (Num.eqb value value); reflexivity.
Qed.

(** A write into a list that already holds what the write left at its
    index changes nothing. *)
Lemma writeCloud_idem (alt : Q) (sc : list CloudLayer) (i : nat)
    (ds ds' ds'' : list CloudDref) :
  writeCloud alt sc i ds = Ok ds' ->
  ds'' !! i = ds' !! i ->
  writeCloud alt sc i ds'' = Ok ds''.
Proof.
  unfold writeCloud, index.
  destruct (ds !! i) as [d|] eqn:Hd; cbn [rbind]; [|discriminate].
  assert (Hi : (i < length ds)%nat) by (eapply lookup_lt_Some; eassumption).
  destruct (sc !! i) as [l|].
  - destruct (cover_num (c_cover l)) as [cv|]; cbn [rbind]; [|discriminate].
    set (e := mkCloudDref _ _ _). intros Hw. injection Hw as <-.
    rewrite list_lookup_insert_eq by exact Hi.
    intros Hd''. rewrite Hd''. cbn [rbind]. f_equal.
    replace (mkCloudDref _ _ _) with e; [apply list_insert_id, Hd''|].
    subst e. cbn [d_top d_bottom d_coverage].
    rewrite !setDrefIfDiff_idem. reflexivity.
  - set (e := mkCloudDref _ _ _). intros Hw. injection Hw as <-.
    rewrite list_lookup_insert_eq by exact Hi.
    intros Hd''. rewrite Hd''. cbn [rbind]. f_equal.
    replace (mkCloudDref _ _ _) with e; [apply list_insert_id, Hd''|].
    subst e. cbn [d_top d_bottom d_coverage].
    rewrite setDrefIfDiff_idem. reflexivity.
Qed.

Lemma writeCloud_other (alt : Q) (sc : list CloudLayer) (i j : nat)
    (ds ds' : list CloudDref) :
  writeCloud alt sc i ds = Ok ds' -> i <> j -> ds' !! j = ds !! j.
Proof.
  unfold writeCloud, index.
  destruct (ds !! i) as [d|]; cbn [rbind]; [|discriminate].
  destruct (sc !! i) as [l|].
  - destruct (cover_num (c_cover l)) as [cv|]; cbn [rbind]; [|discriminate].
    intros [= <-] Hne. apply list_lookup_insert_ne, Hne.
  - intros [= <-] Hne. apply list_lookup_insert_ne, Hne.
Qed.

(** X13: a second call of [setClouds] on the state a first call has left
    changes nothing: with the snapshot, the altitude and the settings
    unchanged, no cloud variable is written again and the published lists
    stay as they are. *)
Theorem setClouds_idempotent (c : CLib) (w w1 : Weather c) :
  setClouds w = Ok w1 -> setClouds w1 = Ok w1.
Proof.
  unfold setClouds.
  destruct (assembleClouds c (conf w) (weatherData w)) as [sc|] eqn:Hsc;
    cbn [rbind]; [|discriminate].
  destruct (override_clouds w) eqn:Hov.
  - cbn [rbind]. intros [= <-].
    cbn [conf weatherData override_clouds clouds alt set_cloud_data
         set_clouds].
    rewrite Hsc. cbn [rbind]. rewrite Hov. reflexivity.
  - destruct (writeCloud (alt w) sc 0 (clouds w)) as [ds1|] eqn:H0;
      cbn [rbind]; [|discriminate].
    destruct (writeCloud (alt w) sc 1 ds1) as [ds2|] eqn:H1;
      cbn [rbind]; [|discriminate].
    destruct (writeCloud (alt w) sc 2 ds2) as [ds3|] eqn:H2;
      cbn [rbind]; [|discriminate].
    intros [= <-].
    assert (E0 : writeCloud (alt w) sc 0 ds3 = Ok ds3).
    { apply (writeCloud_idem _ _ _ _ _ _ H0).
      rewrite (writeCloud_other _ _ _ 0%nat _ _ H2) by discriminate.
      apply (writeCloud_other _ _ _ 0%nat _ _ H1). discriminate. }
    assert (E1 : writeCloud (alt w) sc 1 ds3 = Ok ds3).
    { apply (writeCloud_idem _ _ _ _ _ _ H1).
      apply (writeCloud_other _ _ _ 1%nat _ _ H2). discriminate. }
    assert (E2 : writeCloud (alt w) sc 2 ds3 = Ok ds3).
    { apply (writeCloud_idem _ _ _ _ _ _ H2). reflexivity. }
    cbn [conf weatherData override_clouds clouds alt set_cloud_data
         set_clouds].
    rewrite Hsc. cbn [rbind]. rewrite Hov, E0. cbn [rbind].
    rewrite E1. cbn [rbind]. rewrite E2. reflexivity.
Qed.

Lemma setClouds_idempotent_witness :
  let w := init_weather c_lin tt default_conf 0
             (cloud_payload [(1000, 5000, 100); (3000, 6000, 100)]
                (mkMetar None None None None None None)) in
  exists w1, setClouds w = Ok w1 /\ setClouds w1 = Ok w1.
Proof.
  intros w. eexists. split; [reflexivity|].
  apply (setClouds_idempotent c_lin w). reflexivity.
Defined.

(** ** Requests and replies *)

Lemma lstrip_clean (chars : list ascii) (a : ascii) (s : string) :
  a ∉ chars -> Server.lstrip chars (String a s) = String a s.
Proof. intros H. simpl. rewrite bool_decide_eq_false_2 by exact H. reflexivity. Qed.

Lemma rstrip_all (chars : list ascii) (t : string) :
  forallb (fun ch => bool_decide (ch ∈ chars)) (list_ascii_of_string t) = true ->
  Server.rstrip chars t = EmptyString.
Proof.
  induction t as [|a t IH]; simpl; [reflexivity|].
  intros H. apply andb_prop in H as [Ha Ht]. rewrite (IH Ht), Ha. reflexivity.
Qed.

Lemma rstrip_cons (chars : list ascii) (a : ascii) (s : string) :
  Server.rstrip chars (String a s)
  = match Server.rstrip chars s with
    | EmptyString => if bool_decide (a ∈ chars) then EmptyString
                     else String a EmptyString
    | r => String a r
    end.
Proof. reflexivity. Qed.

Lemma rstrip_app (chars : list ascii) (s t : string) (ch : ascii) :
  last_char s = Some ch -> ch ∉ chars ->
  forallb (fun ch => bool_decide (ch ∈ chars)) (list_ascii_of_string t) = true ->
  Server.rstrip chars (s +:+ t) = s.
Proof.
  intros Hl Hch Ht. induction s as [|a s IH]; [discriminate|].
  change (String a s +:+ t) with (String a (s +:+ t)). rewrite rstrip_cons.
  destruct s as [|b s].
  - injection Hl as ->. change ("" +:+ t) with t.
    rewrite (rstrip_all chars t Ht).
    rewrite bool_decide_eq_false_2 by exact Hch. reflexivity.
  - change (last_char (String a (String b s))) with (last_char (String b s))
      in Hl.
    rewrite (IH Hl). reflexivity.
Qed.

Lemma append_empty_r (s : string) : s +:+ "" = s.
Proof.
  induction s as [|a s IH]; [reflexivity|].
  change (String a s +:+ "") with (String a (s +:+ "")). f_equal. exact IH.
Qed.

Lemma append_assoc' (s t u : string) : (s +:+ t) +:+ u = s +:+ (t +:+ u).
Proof.
  induction s as [|a s IH]; [reflexivity|].
  change (String a ((s +:+ t) +:+ u) = String a (s +:+ (t +:+ u))).
  f_equal. exact IH.
Qed.

Lemma rstrip_clean (chars : list ascii) (s : string) (ch : ascii) :
  last_char s = Some ch -> ch ∉ chars -> Server.rstrip chars s = s.
Proof.
  intros Hl Hch. transitivity (Server.rstrip chars (s +:+ "")).
  - f_equal. symmetry. apply append_empty_r.
  - apply (rstrip_app chars s "" ch Hl Hch). reflexivity.
Qed.

Lemma last_char_app (s t : string) (ch : ascii) :
  last_char t = Some ch -> last_char (s +:+ t) = Some ch.
Proof.
  intros Ht. induction s as [|a s IH]; [exact Ht|].
  simpl. destruct (s +:+ t) eqn:E; [|exact IH].
  destruct s; [|discriminate]. simpl in E. subst. discriminate.
Qed.

Lemma split_bar_no_bar (s : string) :
  no_bar s = true -> Server.split_bar s = [s].
Proof.
  induction s as [|a s IH]; simpl; [reflexivity|].
  unfold no_bar. simpl. intros H. apply andb_prop in H as [Ha Hs].
  apply negb_true_iff in Ha. rewrite Ha, (IH Hs). reflexivity.
Qed.

Lemma split_bar_app (a b : string) :
  no_bar a = true ->
  Server.split_bar (a +:+ "|" +:+ b) = a :: Server.split_bar b.
Proof.
  induction a as [|ch a IH]; [reflexivity|].
  unfold no_bar. simpl. intros H. apply andb_prop in H as [Hch Ha].
  apply negb_true_iff in Hch. rewrite Hch.
  change (Server.split_bar (a +:+ String "|" b))
    with (Server.split_bar (a +:+ "|" +:+ b)).
  rewrite (IH Ha). reflexivity.
Qed.

Lemma numeral_no_bar (s : string) : numeral s = true -> no_bar s = true.
Proof.
  unfold numeral, no_bar. intros H. apply andb_prop in H as [_ H].
  induction (list_ascii_of_string s) as [|ch l IH]; [reflexivity|].
  simpl in *. apply andb_prop in H as [Hch Hl]. rewrite (IH Hl), andb_true_r.
  apply bool_decide_eq_true_1 in Hch. apply negb_true_iff.
  apply Ascii.eqb_neq. intros ->. revert Hch. unfold numeral_chars.
  rewrite !elem_of_cons, elem_of_nil. intros H.
  repeat (destruct H as [H|H]; [discriminate|]). exact H.
Qed.

Lemma numeral_last (s : string) :
  numeral s = true ->
  exists ch, last_char s = Some ch /\ ch ∈ numeral_chars.
Proof.
  unfold numeral. intros H. apply andb_prop in H as [Hne H].
  induction s as [|a s IH]; [discriminate|].
  simpl in H. apply andb_prop in H as [Ha Hs].
  destruct s as [|b s].
  - exists a. split; [reflexivity|].
    apply bool_decide_eq_true_1 in Ha. exact Ha.
  - apply IH; [reflexivity | exact Hs].
Qed.

Lemma numeral_char_kept (ch : ascii) :
  ch ∈ numeral_chars -> ch ∉ Server.strip_chars.
Proof.
  unfold numeral_chars, Server.strip_chars.
  rewrite !elem_of_cons, !elem_of_nil. intros H.
  repeat (destruct H as [-> | H];
          [intros H'; repeat (destruct H' as [H'|H']; [discriminate|]); exact H'|]).
  destruct H.
Qed.

Lemma length_append (s t : string) :
  String.length (s +:+ t) = (String.length s + String.length t)%nat.
Proof.
  induction s as [|a s IH]; [reflexivity|].
  change (String a s +:+ t) with (String a (s +:+ t)).
  cbn [String.length]. rewrite IH. reflexivity.
Qed.

Lemma rstrip_shorter (chars : list ascii) (s : string) (ch : ascii) :
  last_char s = Some ch -> ch ∈ chars ->
  (String.length (Server.rstrip chars s) < String.length s)%nat.
Proof.
  intros Hl Hch. induction s as [|a s IH]; [discriminate|].
  rewrite rstrip_cons. destruct s as [|b s].
  - injection Hl as ->. cbn [Server.rstrip].
    rewrite bool_decide_eq_true_2 by exact Hch. cbn. lia.
  - change (last_char (String a (String b s))) with (last_char (String b s))
      in Hl.
    specialize (IH Hl). cbn [String.length] in *.
    destruct (Server.rstrip chars (String b s)) as [|x r].
    + destruct (bool_decide (a ∈ chars)); cbn; lia.
    + cbn [String.length] in *. lia.
Qed.

Lemma no_bar_rstrip (chars : list ascii) (s : string) :
  no_bar s = true -> no_bar (Server.rstrip chars s) = true.
Proof.
  induction s as [|a s IH]; [reflexivity|].
  unfold no_bar in *. cbn [list_ascii_of_string forallb].
  intros H. apply andb_prop in H as [Ha Hs]. specialize (IH Hs).
  rewrite rstrip_cons. destruct (Server.rstrip chars s) as [|x r].
  - destruct (bool_decide (a ∈ chars)); [reflexivity|].
    cbn [list_ascii_of_string forallb]. rewrite Ha. reflexivity.
  - cbn [list_ascii_of_string forallb] in *. rewrite Ha. exact IH.
Qed.

Lemma prefix_question (x : string) : String.prefix "?" (String "?" x) = true.
Proof. simpl. destruct x; reflexivity. Qed.

Section HandlerReplies.
Variables G K F : Type.
Variable lastgrib : G -> option string.
Variable wafs_lastgrib : G -> option string.
Variable parseGribData : G -> string -> Q -> Q -> Gfs.
Variable wafs_parseGribData : G -> string -> Q -> Q -> list (Q * Q).
Variable getClosestStation : G -> Q -> Q -> option (list F).
Variable parseMetar : G -> F -> F -> F -> Metar.
Variable getMetar : G -> string -> option Payload.
Variable conf_load : K -> K.
Variable float : string -> option Q.

Let handle :=
  Server.handle G K F lastgrib wafs_lastgrib parseGribData
    wafs_parseGribData getClosestStation parseMetar getMetar conf_load float.

(** X14: whatever the datagram, a call of the handler that returns has
    left the forecast and station repositories alone, has changed the
    configuration only by the reload that ['!reload'] asks for and the
    shutdown flag only on ['!shutdown'], and has sent a reply only to a
    request that starts with ['?']. *)
Theorem handle_frame (request : string) (s s' : Server.state G K)
    (response : option Payload) :
  handle request s = Ok (s', response) ->
  let data := Server.strip Server.strip_chars request in
  Server.gfs G K s' = Server.gfs G K s
  /\ (Server.config G K s' = Server.config G K s
      \/ (data = "!reload"
          /\ Server.config G K s' = conf_load (Server.config G K s)))
  /\ (Server.shutting_down G K s' = Server.shutting_down G K s
      \/ (data = "!shutdown" /\ Server.shutting_down G K s' = true))
  /\ (is_Some response -> String.prefix "?" data = true).
Proof.
  intros Hrun data. revert Hrun. unfold handle, Server.handle. fold data.
  destruct (bool_decide (1 < String.length data)%nat).
  2: { intros [= <- <-]. cbn. repeat split; auto. intros [x Hx]. discriminate. }
  destruct (String.prefix "?" data) eqn:Hp.
  - destruct (bool_decide (1 < length (Server.split_bar (Server.tail data)))%nat).
    + destruct (Server.getWeatherData _ _ _ _ _ _ _ _ _) as [r|];
        cbn [rbind]; [|discriminate].
      intros [= <- <-]. cbn. repeat split; auto.
    + destruct (bool_decide (String.length data = 5%nat)).
      * intros [= <- <-]. cbn. repeat split; auto.
      * intros [= <- <-]. cbn. repeat split; auto.
  - destruct (String.eqb data "!shutdown") eqn:Hs.
    + apply String.eqb_eq in Hs.
      intros [= <- <-]. cbn. repeat split; auto.
      intros [x Hx]. discriminate.
    + destruct (String.eqb data "!reload") eqn:Hr.
      * apply String.eqb_eq in Hr.
        intros [= <- <-]. cbn. repeat split; auto.
        intros [x Hx]. discriminate.
      * intros [= <- <-]. repeat split; auto. intros [x Hx]. discriminate.
Qed.

(** X15: the position request the client sends every time it asks for
    weather, ['?lat|lon'] followed by a newline with both numbers written
    as decimals, is decoded into exactly these two fields. When [float]
    reads both numbers the request is answered: the reply is a snapshot
    whose [info] holds the two numbers and the cycles of the repositories,
    the server's state does not change but for the log line, and the
    client, on receiving the reply, installs it as its current snapshot.
    The one exception is a closest-station record of exactly five fields:
    it passes the test [len(apt) > 4], the handler reads [apt[5]] and
    raises [IndexError]. When [float] rejects a number, the handler raises
    [ValueError]. Nothing is sent when the handler raises. *)
Theorem handle_position_query (a b : string) (s : Server.state G K) :
  numeral a = true ->
  numeral b = true ->
  let data := "?" +:+ a +:+ "|" +:+ b in
  match float a, float b with
  | Some lat, Some lon =>
      let station := getClosestStation (Server.gfs G K s) lat lon in
      if bool_decide (length <$> station = Some 5%nat) then
        handle (position_query a b) s = Raise IndexError
      else
        exists r,
          handle (position_query a b) s
          = Ok (Server.mkState G K (Server.gfs G K s) (Server.config G K s)
                  (Server.shutting_down G K s)
                  (Server.printed G K s ++ [(data, 1%nat)]),
                Some (PDict r))
          /\ s_info r
             = Some (mkInfo lat lon
                       (default "na" (lastgrib (Server.gfs G K s)))
                       (default "na" (wafs_lastgrib (Server.gfs G K s))))
          /\ forall (c : CLib) (w : Weather c),
               die w = false ->
               weatherClient [PDict r] w = set_snapshot (PDict r) w
  | _, _ => handle (position_query a b) s = Raise ValueError
  end.
Proof.
  intros Ha Hb data.
  destruct (numeral_last b Hb) as (ch & Hlast & Hch).
  apply numeral_char_kept in Hch.
  assert (Hstrip : Server.strip Server.strip_chars (position_query a b) = data).
  { assert (E : position_query a b = data +:+ String "010" "").
    { unfold position_query. subst data.
      change (String "?" (a +:+ "|" +:+ b +:+ String "010" "")
              = String "?" ((a +:+ "|" +:+ b) +:+ String "010" "")).
      f_equal. symmetry. apply (append_assoc' a ("|" +:+ b)). }
    rewrite E. unfold Server.strip. subst data.
    change (("?" +:+ a +:+ "|" +:+ b) +:+ String "010" "")
      with (String "?" ((a +:+ "|" +:+ b) +:+ String "010" "")).
    rewrite lstrip_clean
      by (unfold Server.strip_chars; rewrite !elem_of_cons, elem_of_nil;
          intros H; repeat (destruct H as [H|H]; [discriminate|]); exact H).
    change (String "?" ((a +:+ "|" +:+ b) +:+ String "010" ""))
      with (("?" +:+ a +:+ "|" +:+ b) +:+ String "010" "").
    apply (rstrip_app _ _ _ ch); [|exact Hch | reflexivity].
    apply (last_char_app "?"), (last_char_app a), (last_char_app "|"), Hlast. }
  assert (Hlen : (1 < String.length data)%nat).
  { subst data.
    change (String.length ("?" +:+ a +:+ "|" +:+ b))
      with (S (String.length (a +:+ "|" +:+ b))).
    rewrite length_append.
    change (String.length ("|" +:+ b)) with (S (String.length b)). lia. }
  assert (Hsplit : Server.split_bar (Server.tail data) = [a; b]).
  { subst data.
    change (Server.tail ("?" +:+ a +:+ "|" +:+ b)) with (a +:+ "|" +:+ b).
    rewrite split_bar_app by apply numeral_no_bar, Ha.
    rewrite split_bar_no_bar by apply numeral_no_bar, Hb. reflexivity. }
  unfold handle, Server.handle. rewrite Hstrip.
  rewrite bool_decide_eq_true_2 by exact Hlen.
  assert (Hp : String.prefix "?" data = true) by apply prefix_question.
  rewrite Hp, Hsplit. cbn [length]. rewrite bool_decide_eq_true_2 by lia.
  unfold Server.getWeatherData. cbn [lookup list_lookup rbind].
  destruct (float a) as [lat|]; cbn [rbind]; [|reflexivity].
  destruct (float b) as [lon|]; cbn [rbind]; [|reflexivity].
  cbv zeta. unfold Server.closestMetar.
  destruct (getClosestStation (Server.gfs G K s) lat lon)
    as [[|x0 [|x1 [|x2 [|x3 [|x4 [|x5 rest]]]]]]|];
    cbn [fmap option_fmap option_map length].
  8: { rewrite bool_decide_eq_false_2 by discriminate.
       cbn [rbind]. eexists. split; [reflexivity|]. split; [reflexivity|].
       intros c w Hdie. cbn. unfold weatherClient_step. rewrite Hdie.
       reflexivity. }
  6: { rewrite (bool_decide_eq_true_2 (Some 5%nat = Some 5%nat)) by reflexivity.
       reflexivity. }
  all: rewrite (bool_decide_eq_false_2 (Some _ = Some 5%nat))
         by (intros [= H]; lia).
  all: try rewrite (bool_decide_eq_false_2 (4 < _)%nat) by (simpl; lia).
  all: try rewrite (bool_decide_eq_true_2 (4 < _)%nat) by (simpl; lia).
  all: cbn [Server.apt_field lookup list_lookup rbind].
  all: eexists; split; [reflexivity|]; split; [reflexivity|].
  all: intros c w Hdie; cbn; unfold weatherClient_step; rewrite Hdie;
       reflexivity.
Qed.

(** X16: a station request ['?' + query] for a query of four characters
    without ['|'] whose last character is none of newline, backslash,
    [c], tab and space is answered with what [getMetar] returns for the
    query; the server's state does not change but for the log line. *)
Theorem handle_icao_query (query : string) (ch : ascii)
    (s : Server.state G K) :
  String.length query = 4%nat ->
  no_bar query = true ->
  last_char query = Some ch ->
  ch ∉ Server.strip_chars ->
  let response := getMetar (Server.gfs G K s) query in
  handle (icao_query query) s
  = Ok (Server.mkState G K (Server.gfs G K s) (Server.config G K s)
          (Server.shutting_down G K s)
          (Server.printed G K s
             ++ [("?" +:+ query, match response with
                                 | Some _ => 1%nat
                                 | None => 0%nat
                                 end)]),
        response).
Proof.
  intros Hlen Hbar Hlast Hch response.
  assert (Hstrip : Server.strip Server.strip_chars (icao_query query)
                   = "?" +:+ query).
  { unfold Server.strip, icao_query.
    change ("?" +:+ query) with (String "?" query).
    rewrite lstrip_clean
      by (unfold Server.strip_chars; rewrite !elem_of_cons, elem_of_nil;
          intros H; repeat (destruct H as [H|H]; [discriminate|]); exact H).
    apply (rstrip_clean _ _ ch); [|exact Hch].
    apply (last_char_app "?" query), Hlast. }
  unfold handle, Server.handle. rewrite Hstrip.
  change (String.length ("?" +:+ query)) with (S (String.length query)).
  rewrite Hlen.
  rewrite bool_decide_eq_true_2 by lia.
  change ("?" +:+ query) with (String "?" query).
  rewrite prefix_question.
  change (Server.tail (String "?" query)) with query.
  rewrite (split_bar_no_bar query Hbar). cbn [length].
  rewrite bool_decide_eq_false_2 by lia.
  rewrite bool_decide_eq_true_2 by reflexivity.
  subst response. destruct (getMetar _ _); reflexivity.
Qed.

(** X17: a station request for a query of four characters without ['|']
    that ends in one of the characters the handler strips from a datagram
    (newline, backslash, the letter [c], tab, space) is not answered:
    the stripped request no longer has five characters. *)
Theorem handle_icao_query_stripped (query : string) (ch : ascii)
    (s : Server.state G K) :
  String.length query = 4%nat ->
  no_bar query = true ->
  last_char query = Some ch ->
  ch ∈ Server.strip_chars ->
  handle (icao_query query) s
  = Ok (Server.mkState G K (Server.gfs G K s) (Server.config G K s)
          (Server.shutting_down G K s)
          (Server.printed G K s
             ++ [(Server.strip Server.strip_chars (icao_query query),
                  0%nat)]),
        None).
Proof.
  intros Hlen Hbar Hlast Hch.
  pose proof (rstrip_shorter _ _ _ Hlast Hch) as Hshort.
  pose proof (no_bar_rstrip Server.strip_chars query Hbar) as Hbar'.
  assert (Hstrip : Server.strip Server.strip_chars (icao_query query)
                   = match Server.rstrip Server.strip_chars query with
                     | EmptyString => "?"
                     | r => String "?" r
                     end).
  { unfold Server.strip, icao_query.
    change ("?" +:+ query) with (String "?" query).
    rewrite lstrip_clean
      by (unfold Server.strip_chars; rewrite !elem_of_cons, elem_of_nil;
          intros H; repeat (destruct H as [H|H]; [discriminate|]); exact H).
    rewrite rstrip_cons.
    destruct (Server.rstrip Server.strip_chars query); reflexivity. }
  unfold handle, Server.handle. rewrite Hstrip.
  destruct (Server.rstrip Server.strip_chars query) as [|x r]; [reflexivity|].
  cbn [String.length] in *.
  rewrite prefix_question.
  change (Server.tail (String "?" (String x r))) with (String x r).
  rewrite (split_bar_no_bar _ Hbar'). cbn [length].
  rewrite bool_decide_eq_true_2 by lia.
  rewrite bool_decide_eq_false_2 by lia.
  rewrite bool_decide_eq_false_2 by lia. reflexivity.
Qed.

End HandlerReplies.

Lemma handle_frame_witness :
  exists s',
    idle_handle "!reload" idle_state = Ok (s', None)
    /\ let data := Server.strip Server.strip_chars "!reload" in
       Server.gfs unit unit s' = Server.gfs unit unit idle_state
       /\ (Server.config unit unit s' = Server.config unit unit idle_state
           \/ (data = "!reload"
               /\ Server.config unit unit s'
                  = Server.config unit unit idle_state))
       /\ (Server.shutting_down unit unit s'
           = Server.shutting_down unit unit idle_state
           \/ (data = "!shutdown"
               /\ Server.shutting_down unit unit s' = true))
       /\ (is_Some (@None Payload) -> String.prefix "?" data = true).
Proof.
  eexists. split; [reflexivity|].
  apply (handle_frame unit unit string (fun _ => None) (fun _ => None)
           (fun _ _ _ _ => Server.empty_gfs) (fun _ _ _ _ => [])
           (fun _ _ _ => None) (fun _ _ _ _ => Server.empty_metar)
           (fun _ _ => None) (fun k => k) decimal_float
           "!reload" idle_state).
  reflexivity.
Defined.

Lemma handle_position_query_witness :
  (numeral "12.30" = true /\ numeral "-45.60" = true)
  /\ exists r,
       idle_handle (position_query "12.30" "-45.60") idle_state
       = Ok (Server.mkState unit unit tt tt false [("?12.30|-45.60", 1%nat)],
             Some (PDict r))
       /\ s_info r = Some (mkInfo (1230 # 100) (- (4560 # 100)) "na" "na")
       /\ forall (c : CLib) (w : Weather c),
            die w = false ->
            weatherClient [PDict r] w = set_snapshot (PDict r) w.
Proof.
  split; [split; reflexivity|].
  exact (handle_position_query unit unit string (fun _ => None) (fun _ => None)
           (fun _ _ _ _ => Server.empty_gfs) (fun _ _ _ _ => [])
           (fun _ _ _ => None) (fun _ _ _ _ => Server.empty_metar)
           (fun _ _ => None) (fun k => k) decimal_float
           "12.30" "-45.60" idle_state eq_refl eq_refl).
Defined.

Lemma handle_icao_query_witness :
  (String.length "LEBL" = 4%nat /\ no_bar "LEBL" = true
   /\ last_char "LEBL" = Some "L"%char /\ "L"%char ∉ Server.strip_chars)
  /\ idle_handle (icao_query "LEBL") idle_state
     = Ok (Server.mkState unit unit tt tt false [("?LEBL", 0%nat)], None).
Proof.
  assert (Hch : "L"%char ∉ Server.strip_chars).
  { unfold Server.strip_chars. rewrite !elem_of_cons, elem_of_nil.
    intros H. repeat (destruct H as [H|H]; [discriminate|]). exact H. }
  split; [repeat split; [exact Hch]|].
  exact (handle_icao_query unit unit string (fun _ => None) (fun _ => None)
           (fun _ _ _ _ => Server.empty_gfs) (fun _ _ _ _ => [])
           (fun _ _ _ => None) (fun _ _ _ _ => Server.empty_metar)
           (fun _ _ => None) (fun k => k) decimal_float
           "LEBL" "L"%char idle_state eq_refl eq_refl eq_refl Hch).
Defined.

Lemma handle_icao_query_stripped_witness :
  (String.length "lfpc" = 4%nat /\ no_bar "lfpc" = true
   /\ last_char "lfpc" = Some "c"%char /\ "c"%char ∈ Server.strip_chars)
  /\ idle_handle (icao_query "lfpc") idle_state
     = Ok (Server.mkState unit unit tt tt false [("?lfp", 0%nat)], None).
Proof.
  assert (Hch : "c"%char ∈ Server.strip_chars).
  { unfold Server.strip_chars. rewrite !elem_of_cons. right. right. now left. }
  split; [repeat split; [exact Hch]|].
  exact (handle_icao_query_stripped unit unit string (fun _ => None) (fun _ => None)
           (fun _ _ _ _ => Server.empty_gfs) (fun _ _ _ _ => [])
           (fun _ _ _ => None) (fun _ _ _ _ => Server.empty_metar)
           (fun _ _ => None) (fun k => k) decimal_float
           "lfpc" "c"%char idle_state eq_refl eq_refl eq_refl Hch).
Defined.

(** ** Outside the layers *)

Lemma copy_list_alts (layers : list WindLayer) :
  t_alt <$> copy_list layers = l_alt <$> layers.
Proof.
  unfold copy_list. apply list_eq. intros i.
  rewrite !list_lookup_fmap, list_lookup_imap.
  destruct (layers !! i); reflexivity.
Qed.

Lemma copy_list_lookup (layers : list WindLayer) (i : nat) (l : WindLayer) :
  layers !! i = Some l -> copy_list layers !! i = Some (arg_layer i l).
Proof.
  intros H. unfold copy_list. rewrite list_lookup_imap, H. reflexivity.
Qed.

(** The bracket of an aircraft below the first layer or at or above
    every layer: the layer itself, with nothing to blend it with. *)
Lemma searchLayers_outside (layers : list WindLayer) (l : WindLayer)
    (t : nat) (alt : Q) :
  layers !! t = Some l ->
  (t = 0%nat /\ alt < l_alt l)
  \/ (S t = length layers /\ Forall (fun l' => l_alt l' <= alt) layers) ->
  exists b,
    searchLayers (copy_list layers) alt = (b, t)
    /\ (b = None \/ b = Some t).
Proof.
  intros Hl Hcase. unfold searchLayers. rewrite copy_list_alts.
  destruct Hcase as [[-> Hlt] | [Hlen Hall]].
  - destruct layers as [|l0 rest]; [discriminate|].
    injection Hl as ->. exists None. simpl.
    apply NumFacts.ltb_lt in Hlt. rewrite Hlt. split; [reflexivity | now left].
  - destruct (search_from_spec (l_alt <$> layers) alt 0 None 0)
      as [(j & a & Hj & Ha & _)|[_ Hres]].
    + exfalso. rewrite list_lookup_fmap in Hj.
      destruct (layers !! j) as [lj|] eqn:E; [|discriminate].
      injection Hj as <-.
      pose proof (proj1 (Forall_lookup _ _) Hall j lj E) as Hle.
      cbv beta in Hle. lra.
    + rewrite Hres, length_fmap, <- Hlen. exists (Some t).
      split; [reflexivity | now right].
Qed.

(** X18: with no station wind in the snapshot, for an aircraft below the
    first layer of the list or at or above every layer, [setWinds]
    returns, and it blends nothing: the first layer, respectively the
    last one, is transitioned under its index and what the first three
    wind layers of the simulator get are that layer's transitioned
    heading (plus its variation), speed and gust. *)
Theorem setWinds_outside_layers (c : CLib) (layers : list WindLayer)
    (l : WindLayer) (t : nat) (elapsed : Q) (w : Weather c) :
  metar_with_wind (weatherData w) = Ok None ->
  layers !! t = Some l ->
  (t = 0%nat /\ alt w < l_alt l)
  \/ (S t = length layers /\ Forall (fun l' => l_alt l' <= alt w) layers) ->
  (3 <= length (winds w))%nat ->
  exists b w',
    (b = None \/ b = Some t)
    /\ let r :=
         transWindLayer (conf w) (arg_layer t l) (Str.of_nat t) elapsed
           (transrefs (resetTransitions b t w)) (mkStore layers ∅) in
       setWinds layers elapsed w = Ok (st_arg r.2, w')
       /\ winds w'
          = (emitted (emitted_hdg r.1.1 r.2) (t_speed r.1.1)
               (emitted_gust r.1.1 r.2) <$> take 3 (winds w))
            ++ drop 3 (winds w)
       /\ transrefs w' = r.1.2.
Proof.
  intros Hm Hl Hcase Hlen.
  destruct (searchLayers_outside layers l t (alt w) Hl Hcase)
    as (b & Hs & Hb).
  exists b.
  assert (Hne : (0 < length (copy_list layers))%nat).
  { apply copy_list_lookup in Hl. apply lookup_lt_Some in Hl. lia. }
  assert (Hw0 : winds (resetTransitions b t w) = winds w
                /\ conf (resetTransitions b t w) = conf w).
  { destruct (resetTransitions_frame c b t w) as (H1 & _ & _ & _ & _ & _ & _ & H2).
    split; assumption. }
  destruct Hw0 as [Hw0 Hc0].
  unfold setWinds, appendMetarLayer. rewrite Hm. cbn [rbind].
  rewrite bool_decide_eq_true_2 by exact Hne. rewrite Hs.
  unfold resolveWind, index. rewrite (copy_list_lookup layers t l Hl).
  cbn [rbind]. rewrite Hc0.
  destruct (transWindLayer (conf w) (arg_layer t l) (Str.of_nat t) elapsed
              (transrefs (resetTransitions b t w)) (mkStore layers ∅))
    as [[twind refs] h1] eqn:Ht.
  assert (Hsame : (match b with
                   | Some b0 =>
                       if bool_decide (b0 ≠ t) then
                         let* wb := index (copy_list layers) b0 in
                         let '(bwind, refs0, h) :=
                           transWindLayer (conf w) wb (Str.of_nat b0) elapsed
                             refs h1 in
                         let* (rwind, h0) :=
                           interpolateWindLayer c twind bwind
                             (alt (resetTransitions b t w)) b0 h in
                         Ok (rwind, h0,
                             set_transrefs refs0 (resetTransitions b t w))
                       else Ok (twind, h1,
                                set_transrefs refs (resetTransitions b t w))
                   | None => Ok (twind, h1,
                                 set_transrefs refs (resetTransitions b t w))
                   end)
                  = Ok (twind, h1,
                        set_transrefs refs (resetTransitions b t w))).
  { destruct Hb as [-> | ->]; [reflexivity|].
    rewrite bool_decide_eq_false_2 by (intros H; apply H; reflexivity).
    reflexivity. }
  unfold index in Hsame. rewrite Hsame. cbn [rbind].
  pose proof (emit_three twind h1 (winds w)) as He.
  rewrite bool_decide_eq_true_2 in He by exact Hlen.
  cbn [winds set_transrefs]. rewrite Hw0.
  destruct (setWindLayer 0 twind h1 (winds w)) as [ws0|];
    cbn [rbind] in He |- *; [|discriminate].
  destruct (setWindLayer 1 twind h1 ws0) as [ws1|];
    cbn [rbind] in He |- *; [|discriminate].
  destruct (setWindLayer 2 twind h1 ws1) as [ws2|];
    cbn [rbind] in He |- *; [|discriminate].
  destruct (upd_dref 0 _ ws2) as [ws3|];
    cbn [rbind] in He |- *; [|discriminate].
  destruct (upd_dref 1 _ ws3) as [ws4|];
    cbn [rbind] in He |- *; [|discriminate].
  destruct (upd_dref 2 _ ws4) as [ws5|];
    cbn [rbind] in He |- *; [|discriminate].
  injection He as ->.
  eexists. split; [exact Hb|]. cbn [fst snd]. split; [reflexivity|].
  split; reflexivity.
Qed.

Lemma setWinds_outside_layers_witness :
  let l := mkWindLayer 0 270 10 {["gust" := XNum 10]} in
  let w := later_frame in
  (metar_with_wind (weatherData w) = Ok None
   /\ gusty_layers !! 0%nat = Some l
   /\ ((0%nat = 0%nat /\ alt w < l_alt l)
       \/ (1%nat = length gusty_layers
           /\ Forall (fun l' => l_alt l' <= alt w) gusty_layers))
   /\ (3 <= length (winds w))%nat)
  /\ exists b w',
       (b = None \/ b = Some 0%nat)
       /\ let r :=
            transWindLayer (conf w) (arg_layer 0 l) (Str.of_nat 0) 1
              (transrefs (resetTransitions b 0 w)) (mkStore gusty_layers ∅) in
          setWinds gusty_layers 1 w = Ok (st_arg r.2, w')
          /\ winds w'
             = (emitted (emitted_hdg r.1.1 r.2) (t_speed r.1.1)
                  (emitted_gust r.1.1 r.2) <$> take 3 (winds w))
               ++ drop 3 (winds w)
          /\ transrefs w' = r.1.2.
Proof.
  intros l w.
  assert (H1 : metar_with_wind (weatherData w) = Ok None) by reflexivity.
  assert (H2 : gusty_layers !! 0%nat = Some l) by reflexivity.
  assert (H3 : (0%nat = 0%nat /\ alt w < l_alt l)
               \/ (1%nat = length gusty_layers
                   /\ Forall (fun l' => l_alt l' <= alt w) gusty_layers)).
  { right. split; [reflexivity|].
    apply Forall_cons. split; [apply Qle_refl | apply Forall_nil_2]. }
  assert (H4 : (3 <= length (winds w))%nat) by (simpl; lia).
  split; [repeat split; assumption|].
  exact (setWinds_outside_layers c_lin gusty_layers l 0 1 w H1 H2 H3 H4).
Defined.

(** ** Missing parts of the snapshot *)

(** X20: [setWinds] raises [TypeError] while no snapshot has been
    received ([weatherData] is [False]), and [KeyError] for a station
    report that has a wind but no elevation, whatever the layer list. *)
Theorem setWinds_errors (c : CLib) (layers : list WindLayer) (elapsed : Q)
    (w : Weather c) :
  (weatherData w = None -> setWinds layers elapsed w = Raise TypeError)
  /\ (forall d m wind,
        weatherData w = Some (PDict d) -> s_metar d = Some m ->
        m_wind m = Some wind -> m_elevation m = None ->
        setWinds layers elapsed w = Raise KeyError).
Proof.
  split.
  - intros H. unfold setWinds, appendMetarLayer, metar_with_wind.
    rewrite H. reflexivity.
  - intros d m [[hdg speed] gust] Hd Hm Hw He.
    unfold setWinds, appendMetarLayer, metar_with_wind.
    rewrite Hd, Hm, Hw. cbn [rbind]. rewrite He. reflexivity.
Qed.

(** X21: [setClouds] raises [TypeError] while no snapshot has been
    received, [KeyError] for a snapshot without [gfs] or without [metar],
    and [KeyError] for a station report within the distance limit that
    reports clouds but has no elevation. *)
Theorem setClouds_errors (c : CLib) (w : Weather c) :
  (weatherData w = None -> setClouds w = Raise TypeError)
  /\ (forall d,
        weatherData w = Some (PDict d) ->
        s_gfs d = None \/ s_metar d = None ->
        setClouds w = Raise KeyError)
  /\ (forall d g m clouds,
        weatherData w = Some (PDict d) -> s_gfs d = Some g ->
        s_metar d = Some m ->
        usable_metar_clouds (conf w) m = Some clouds ->
        m_elevation m = None ->
        setClouds w = Raise KeyError).
Proof.
  split; [|split].
  - intros H. unfold setClouds, assembleClouds, collectClouds. rewrite H.
    reflexivity.
  - intros d Hd Hmiss.
    unfold setClouds, assembleClouds, collectClouds. rewrite Hd.
    cbn [snapshot_dict rbind].
    destruct (s_gfs d) as [g|]; [|reflexivity]. cbn [getitem rbind].
    destruct Hmiss as [Hg | Hm]; [discriminate|]. rewrite Hm. reflexivity.
  - intros d g m clouds Hd Hg Hm Hu He.
    unfold setClouds, assembleClouds, collectClouds. rewrite Hd.
    cbn [snapshot_dict rbind]. rewrite Hg. cbn [getitem rbind].
    rewrite Hm. cbn [getitem rbind]. rewrite Hu, He. reflexivity.
Qed.
